(** * shadow/pkg/netstack/core: the link endpoint between a tun-like device
      and the gvisor network stack

    Two builds of package [core] are embedded here:
    - the linux/darwin build (offset read/write with a 4 byte frame prefix),
      module [Unix];
    - the windows build (direct read for WinTun, push producer for
      WinDivert, with checksum repair in [endpoint.Write]), module [Windows].

    Go slices that are mutated through aliases (the buffer of
    [endpoint.Write]) live in an explicit byte store and are handled through a
    small state-and-panic monad.  Buffers that are only read after they were
    produced (the pump loops) are plain lists. *)

From Stdlib Require Import ZArith List Lia Bool Arith.
From Stdlib Require Import Init.Byte Strings.Byte.
Import ListNotations.
Local Open Scope Z_scope.

(* ------------------------------------------------------------------ *)
(** ** Machine integers and bytes *)

Definition u8 (z : Z) : Z := z mod 2 ^ 8.
Definition u16 (z : Z) : Z := z mod 2 ^ 16.
Definition u32 (z : Z) : Z := z mod 2 ^ 32.

(** [^x] on a uint16. *)
Definition not16 (z : Z) : Z := Z.lxor z 0xffff.

Definition b2z (b : byte) : Z := Z.of_N (Byte.to_N b).

Definition z2b (z : Z) : byte :=
  match Byte.of_N (Z.to_N (z mod 256)) with
  | Some b => b
  | None => x00
  end.

(** [binary.BigEndian.PutUint16]: the two bytes stored for [v]. *)
Definition be16 (v : Z) : list byte := [z2b (Z.shiftr v 8); z2b v].

(** [binary.BigEndian.Uint16] of two bytes. *)
Definition word16 (hi lo : byte) : Z := Z.lor (Z.shiftl (b2z hi) 8) (b2z lo).

(** Overwrite [length bs] bytes of [m] from index [off] on. *)
Definition store (off : nat) (bs m : list byte) : list byte :=
  firstn off m ++ bs ++ skipn (off + length bs) m.

(* ------------------------------------------------------------------ *)
(** ** gvisor: pkg/tcpip/checksum *)

Module checksum.

(** Modelled from the spec: gvisor's [checksum.Combine] is not under src/;
    it adds two 16 bit sums with end-around carry (the ones'-complement
    addition of the "standard Internet checksum algorithm"). *)
Definition Combine (a b : Z) : Z :=
  let v := u32 (a + b) in
  u16 (v + Z.shiftr v 16).

(** The summing loop of the Internet checksum over big-endian 16 bit words
    in a 32 bit accumulator; a trailing odd byte counts as the high byte of
    a last word. *)
Fixpoint sumwords (buf : list byte) (v : Z) : Z :=
  match buf with
  | hi :: lo :: rest => sumwords rest (u32 (v + (Z.shiftl (b2z hi) 8 + b2z lo)))
  | [hi] => u32 (v + Z.shiftl (b2z hi) 8)
  | [] => v
  end.

(** Modelled from the spec: gvisor's [checksum.Checksum(buf, initial)] is
    not under src/; the spec names it the standard Internet checksum
    algorithm (RFC 1071): the ones'-complement sum of [initial] and the
    16 bit words of [buf], not complemented. *)
Definition Checksum (buf : list byte) (initial : Z) : Z :=
  let v := sumwords buf (u32 initial) in
  Combine (u16 v) (u16 (Z.shiftr v 16)).

End checksum.

(* ------------------------------------------------------------------ *)
(** ** gvisor: the channel link endpoint and the packets it carries *)

Module stack.

(** An outbound [stack.PacketBuffer] as [WriteNotify] sees it: the network
    header, the transport header and the data as a vectorised view (a list
    of views that [ToView]/[Flatten] concatenates). *)
Record PacketBuffer := mkPacket {
  NetworkHeader : list byte;
  TransportHeader : list byte;
  Data : list (list byte)
}.

Definition ToView (vv : list (list byte)) : list byte := concat vv.

End stack.

Module channel.

(** [channel.Endpoint]: what was handed to the stack's inbound dispatch
    (protocol number and packet bytes, oldest first) and the queue of
    outbound packets the stack has emitted. *)
Record Endpoint := mkEndpoint {
  inbound : list (Z * list byte);
  outq : list stack.PacketBuffer
}.

Definition InjectInbound (e : Endpoint) (proto : Z) (pkt : list byte) : Endpoint :=
  {| inbound := inbound e ++ [(proto, pkt)]; outq := outq e |}.

(** The non-blocking [Read]: the next outbound packet, if there is one. *)
Definition Read (e : Endpoint) : option stack.PacketBuffer * Endpoint :=
  match outq e with
  | [] => (None, e)
  | p :: q => (Some p, {| inbound := inbound e; outq := q |})
  end.

End channel.

(* ------------------------------------------------------------------ *)
(** ** Go slices over one byte store, with run-time panics *)

Module Go.

(** A slice header: where it starts in the backing array, its length and
    its capacity. *)
Record slice := mkSlice { s_off : nat; s_len : nat; s_cap : nat }.

(** The backing array of the buffer being processed and the channel
    endpoint it is injected into. *)
Record world := mkWorld { mem : list byte; chan : channel.Endpoint }.

(** A computation that may panic ([None]) or return with a new world. *)
Definition M (A : Type) : Type := world -> option (A * world).

Definition ret {A} (a : A) : M A := fun w => Some (a, w).
Definition bind {A B} (c : M A) (k : A -> M B) : M B :=
  fun w => match c w with
           | Some (a, w') => k a w'
           | None => None
           end.
Definition panic {A} : M A := fun _ => None.

(** [append(make([]byte, 0, len(b)), b...)]: a fresh array holding a copy
    of [b], of capacity exactly [len(b)]. *)
Definition copy_of (b : list byte) : M slice :=
  fun w => Some (mkSlice 0 (length b) (length b),
                 {| mem := b; chan := chan w |}).

(** [s[i]] *)
Definition index (s : slice) (i : nat) : M byte :=
  fun w => if (i <? s_len s)%nat
           then Some (nth (s_off s + i) (mem w) x00, w)
           else None.

(** [s[lo:]] *)
Definition from (s : slice) (lo : nat) : M slice :=
  if (lo <=? s_len s)%nat
  then ret (mkSlice (s_off s + lo) (s_len s - lo) (s_cap s - lo))
  else panic.

(** [s[:hi]] (may extend up to the capacity) *)
Definition upto (s : slice) (hi : nat) : M slice :=
  if (hi <=? s_cap s)%nat
  then ret (mkSlice (s_off s) hi (s_cap s))
  else panic.

(** [s[lo:hi]] *)
Definition range (s : slice) (lo hi : nat) : M slice :=
  if ((lo <=? hi) && (hi <=? s_cap s))%nat
  then ret (mkSlice (s_off s + lo) (hi - lo) (s_cap s - lo))
  else panic.

(** The bytes a slice currently shows. *)
Definition load (s : slice) : M (list byte) :=
  fun w => Some (firstn (s_len s) (skipn (s_off s) (mem w)), w).

(** [binary.BigEndian.Uint16(s)] *)
Definition Uint16 (s : slice) : M Z :=
  fun w => if (2 <=? s_len s)%nat
           then Some (word16 (nth (s_off s) (mem w) x00)
                             (nth (s_off s + 1) (mem w) x00), w)
           else None.

(** [binary.BigEndian.PutUint16(s, v)] *)
Definition PutUint16 (s : slice) (v : Z) : M unit :=
  fun w => if (2 <=? s_len s)%nat
           then Some (tt, {| mem := store (s_off s) (be16 v) (mem w);
                             chan := chan w |})
           else None.

(** [e.Endpoint.InjectInbound(proto, pktBuffer)] with the packet buffer
    made from the bytes of [s]. *)
Definition InjectInbound (proto : Z) (s : slice) : M unit :=
  fun w => Some (tt, {| mem := mem w;
                        chan := channel.InjectInbound (chan w) proto
                                  (firstn (s_len s) (skipn (s_off s) (mem w))) |}).

End Go.

Notation "x <- c ;; k" := (Go.bind c (fun x => k))
  (at level 61, c at next level, right associativity).
Notation "c ;;; k" := (Go.bind c (fun _ => k))
  (at level 61, right associativity).

(* ------------------------------------------------------------------ *)
(** ** gvisor: pkg/tcpip/header *)

Module header.
Import Go.

Definition IPv4Version : Z := 4.
Definition IPv6Version : Z := 6.
Definition IPv4ProtocolNumber : Z := 0x0800.
Definition IPv6ProtocolNumber : Z := 0x86dd.
Definition UDPProtocolNumber : Z := 17.
Definition TCPProtocolNumber : Z := 6.
Definition UDPMinimumSize : nat := 8.
Definition IPv6MinimumSize : nat := 40.

(** Modelled from the spec: gvisor's [header.IPVersion] is not under src/;
    it is the "first nibble" of the packet, and -1 for an empty buffer. *)
Definition IPVersion (b : list byte) : Z :=
  match b with
  | [] => -1
  | b0 :: _ => Z.shiftr (b2z b0) 4
  end.

(** Modelled from the spec: gvisor's [header.PseudoHeaderChecksum] is not
    under src/; it is the sum over "the protocol pseudo-header
    (source/destination address, protocol number, payload length)". *)
Definition PseudoHeaderChecksum (protocol : Z) (srcAddr dstAddr : list byte)
    (totalLen : Z) : Z :=
  let xsum := checksum.Checksum srcAddr 0 in
  let xsum := checksum.Checksum dstAddr xsum in
  let xsum := checksum.Checksum (be16 totalLen) xsum in
  checksum.Checksum [x00; z2b (u8 protocol)] xsum.

(** Modelled from the spec: gvisor's [header.IPv4] accessors are not under
    src/; they read and write the IPv4 header fields the spec's Checksum
    Engine names (header length, total length, protocol, header checksum,
    addresses) at their RFC 791 offsets. *)
Module IPv4.
Definition HeaderLength (b : slice) : M Z :=
  x <- index b 0 ;; ret (u8 (Z.land (b2z x) 0x0f * 4)).
Definition TotalLength (b : slice) : M Z :=
  t <- from b 2 ;; Uint16 t.
Definition PayloadLength (b : slice) : M Z :=
  tl <- TotalLength b ;; hl <- HeaderLength b ;; ret (u16 (tl - hl)).
Definition Payload (b : slice) : M slice :=
  hl <- HeaderLength b ;; t <- from b (Z.to_nat hl) ;;
  pl <- PayloadLength b ;; upto t (Z.to_nat pl).
Definition TransportProtocol (b : slice) : M Z :=
  x <- index b 9 ;; ret (b2z x).
Definition SourceAddress (b : slice) : M (list byte) :=
  t <- range b 12 16 ;; load t.
Definition DestinationAddress (b : slice) : M (list byte) :=
  t <- range b 16 20 ;; load t.
Definition SetChecksum (b : slice) (v : Z) : M unit :=
  t <- from b 10 ;; PutUint16 t v.
Definition CalculateChecksum (b : slice) : M Z :=
  hl <- HeaderLength b ;; h <- upto b (Z.to_nat hl) ;;
  bs <- load h ;; ret (checksum.Checksum bs 0).
End IPv4.

(** Modelled from the spec: gvisor's [header.IPv6] accessors are not under
    src/; the fixed 40 byte IPv6 header of RFC 8200 (payload length at 4,
    next header at 6, addresses at 8 and 24). *)
Module IPv6.
Definition PayloadLength (b : slice) : M Z :=
  t <- from b 4 ;; Uint16 t.
Definition Payload (b : slice) : M slice :=
  t <- from b IPv6MinimumSize ;; pl <- PayloadLength b ;; upto t (Z.to_nat pl).
Definition TransportProtocol (b : slice) : M Z :=
  x <- index b 6 ;; ret (b2z x).
Definition SourceAddress (b : slice) : M (list byte) :=
  t <- range b 8 24 ;; load t.
Definition DestinationAddress (b : slice) : M (list byte) :=
  t <- range b 24 40 ;; load t.
End IPv6.

(** Modelled from the spec: gvisor's [header.UDP] accessors are not under
    src/; the 8 byte UDP header of RFC 768 (length at 4, checksum at 6). *)
Module UDP.
Definition Length (b : slice) : M Z :=
  t <- from b 4 ;; Uint16 t.
Definition Payload (b : slice) : M slice := from b UDPMinimumSize.
Definition SetChecksum (b : slice) (xsum : Z) : M unit :=
  t <- from b 6 ;; PutUint16 t xsum.
Definition CalculateChecksum (b : slice) (partialChecksum : Z) : M Z :=
  h <- upto b UDPMinimumSize ;; bs <- load h ;;
  ret (checksum.Checksum bs partialChecksum).
End UDP.

(** Modelled from the spec: gvisor's [header.TCP] accessors are not under
    src/; the TCP header of RFC 9293 (data offset in the high nibble of
    byte 12, checksum at 16). *)
Module TCP.
Definition DataOffset (b : slice) : M Z :=
  x <- index b 12 ;; ret (u8 (Z.shiftr (b2z x) 4 * 4)).
Definition Payload (b : slice) : M slice :=
  off <- DataOffset b ;; from b (Z.to_nat off).
Definition SetChecksum (b : slice) (xsum : Z) : M unit :=
  t <- from b 16 ;; PutUint16 t xsum.
Definition CalculateChecksum (b : slice) (partialChecksum : Z) : M Z :=
  off <- DataOffset b ;; h <- upto b (Z.to_nat off) ;; bs <- load h ;;
  ret (checksum.Checksum bs partialChecksum).
End TCP.

End header.

(* ------------------------------------------------------------------ *)
(** ** Package core: what both builds share *)

(** A device value behind the [Device] interface: which of the interfaces
    the endpoints assert on its dynamic type implements. *)
Record Device := mkDevice {
  implWriter : bool;        (* io.Writer *)
  implReader : bool;        (* Reader: Read([]byte, int) (int, error) *)
  implWriterTo : bool;      (* io.WriterTo *)
  implReaderOffset : bool;  (* ReaderOffset *)
  implWriterOffset : bool   (* WriterOffset *)
}.

(** One call of the device's read primitive on a fresh zeroed buffer:
    [ReadOk stored n] stored the bytes [stored] from index 0 of the buffer on
    (for an offset device they begin with the frame prefix) and returned
    [(n, nil)]; [ReadErr] returned a non-nil error. *)
Inductive ReadEvent := ReadOk (stored : list byte) (n : Z) | ReadErr.

(** [make([]byte, size)] after the device has stored into it. *)
Definition filled (size : nat) (stored : list byte) : list byte :=
  firstn size (stored ++ repeat x00 (size - length stored)).

(** [buf[lo:hi]] on a slice whose capacity is its length. *)
Definition reslice (buf : list byte) (lo hi : Z) : option (list byte) :=
  if (0 <=? lo) && (lo <=? hi) && (hi <=? Z.of_nat (length buf))
  then Some (firstn (Z.to_nat (hi - lo)) (skipn (Z.to_nat lo) buf))
  else None.

(** How a pump loop stands when the script of device reads given to it is
    used up: it left the loop on a read error, it is blocked in the next
    read, or it panicked. *)
Inductive LoopStatus := Stopped | Reading | Panicked.

Record Pump := mkPump {
  status : LoopStatus;
  chan_after : channel.Endpoint;
  reads : nat;                    (* calls of the read primitive issued *)
  unread : list ReadEvent         (* device events never asked for *)
}.

(** A slice grown by [append] from a prefix of the scratch array: it still
    lies in the scratch array (its first [n] bytes) or it was moved to a new
    array because the capacity did not suffice. *)
Inductive grown := OnScratch (n : nat) | Moved (content : list byte).

Definition contents (scratch : list byte) (s : grown) : list byte :=
  match s with
  | OnScratch n => firstn n scratch
  | Moved c => c
  end.

(** [append(s, xs...)]: the scratch array afterwards and the new slice. *)
Definition append (scratch : list byte) (s : grown) (xs : list byte)
  : list byte * grown :=
  match s with
  | OnScratch n =>
      if (n + length xs <=? length scratch)%nat
      then (store n xs scratch, OnScratch (n + length xs))
      else (scratch, Moved (firstn n scratch ++ xs))
  | Moved c => (scratch, Moved (c ++ xs))
  end.

(** What [Attach] leaves running. *)
Inductive goroutine := ReadLoop (offset size : Z) | PushProducer.

(* ------------------------------------------------------------------ *)
(** ** The linux/darwin build *)

Module Unix.

Record Endpoint := mkEndpoint {
  ep : channel.Endpoint;
  mtu : Z;
  dev : Device;
  buf : list byte;
  wt : list (list byte * Z)   (* calls WriteOffset(buf, offset) made so far *)
}.

(** [NewEndpoint]: [None] is a panic ([make] with a negative length, or the
    type assertion [dev.(WriterOffset)]). *)
Definition NewEndpoint (dev : Device) (mtu : Z) : option Endpoint :=
  if 4 + mtu <? 0 then None
  else if implWriterOffset dev
  then Some {| ep := channel.mkEndpoint [] [];
               mtu := mtu;
               dev := dev;
               buf := repeat x00 (Z.to_nat (4 + mtu));
               wt := [] |}
  else None.

(** The loop of the goroutine started by [Attach], run against a script of
    device reads. *)
Fixpoint Attach_loop (size : Z) (script : list ReadEvent)
    (ep : channel.Endpoint) (reads : nat) : Pump :=
  match script with
  | [] => mkPump Reading ep reads []
  | ev :: rest =>
      if size <? 0 then mkPump Panicked ep reads script
      else
        match ev with
        | ReadErr => mkPump Stopped ep (S reads) rest
        | ReadOk stored n =>
            let buf := filled (Z.to_nat size) stored in
            match reslice buf 4 (4 + n) with
            | None => mkPump Panicked ep (S reads) rest
            | Some buf =>
                let ep :=
                  if header.IPVersion buf =? header.IPv4Version
                  then channel.InjectInbound ep header.IPv4ProtocolNumber buf
                  else if header.IPVersion buf =? header.IPv6Version
                  then channel.InjectInbound ep header.IPv6ProtocolNumber buf
                  else ep in
                Attach_loop size rest ep (S reads)
            end
        end
  end.

(** [Attach]: the goroutine it starts, or [None] when the type assertion
    [e.dev.(ReaderOffset)] panics. *)
Definition Attach (e : Endpoint) : option goroutine :=
  if implReaderOffset (dev e)
  then Some (ReadLoop 4 (4 + mtu e))
  else None.

(** [WriteNotify] (the statements between [e.mu.Lock()] and
    [e.mu.Unlock()] run here without interruption; module [Drain] has the
    interleaved runs). *)
Definition WriteNotify (e : Endpoint) : option Endpoint :=
  match channel.Read (ep e) with
  | (None, _) => Some e
  | (Some pkt, ep') =>
      if (4 <=? length (buf e))%nat
      then
        let '(scratch, b) := append (buf e) (OnScratch 4) (stack.NetworkHeader pkt) in
        let '(scratch, b) := append scratch b (stack.TransportHeader pkt) in
        let '(scratch, b) := append scratch b (stack.ToView (stack.Data pkt)) in
        Some {| ep := ep'; mtu := mtu e; dev := dev e; buf := scratch;
                wt := wt e ++ [(contents scratch b, 4)] |}
      else None
  end.

End Unix.

(* ------------------------------------------------------------------ *)
(** ** The windows build *)

Module Windows.
Import Go.

Record Endpoint := mkEndpoint {
  ep : channel.Endpoint;
  Device_ : Device;
  Writer : list (list byte);   (* calls Write(buf) made on the device so far *)
  mtu : Z;
  buff : list byte
}.

(** A Go [error] value; [None] is [nil]. *)
Definition error := option unit.

(** [NewEndpoint]: [None] is a panic ([log.Panic] when the device is no
    [io.Writer], or [make] with a negative length). *)
Definition NewEndpoint (dev : Device) (mtu : Z) : option Endpoint :=
  if implWriter dev
  then if mtu <? 0 then None
       else Some {| ep := channel.mkEndpoint [] [];
                    Device_ := dev;
                    Writer := [];
                    mtu := mtu;
                    buff := repeat x00 (Z.to_nat mtu) |}
  else None.

(** [Attach]: the goroutine it starts, or [None] when it reaches
    [log.Panic]. *)
Definition Attach (e : Endpoint) : option goroutine :=
  if implReader (Device_ e)
  then Some (ReadLoop 0 (mtu e + 4))
  else if implWriterTo (Device_ e)
       then Some PushProducer
       else None.

(** The loop of the WinTun goroutine started by [Attach], run against a
    script of device reads. *)
Fixpoint Attach_loop (size : Z) (script : list ReadEvent)
    (ep : channel.Endpoint) (reads : nat) : Pump :=
  match script with
  | [] => mkPump Reading ep reads []
  | ev :: rest =>
      if size <? 0 then mkPump Panicked ep reads script
      else
        match ev with
        | ReadErr => mkPump Stopped ep (S reads) rest
        | ReadOk stored nr =>
            let buf := filled (Z.to_nat size) stored in
            match reslice buf 0 nr with
            | None => mkPump Panicked ep (S reads) rest
            | Some buf =>
                let ep :=
                  if header.IPVersion buf =? header.IPv4Version
                  then channel.InjectInbound ep header.IPv4ProtocolNumber buf
                  else if header.IPVersion buf =? header.IPv6Version
                  then channel.InjectInbound ep header.IPv6ProtocolNumber buf
                  else ep in
                Attach_loop size rest ep (S reads)
            end
        end
  end.

(** [WriteNotify]: [pkt := e.Endpoint.Read()] is used without a test; on
    an empty queue [pkt] is nil and [pkt.NetworkHeader().View()]
    dereferences it, a panic. *)
Definition WriteNotify (e : Endpoint) : option Endpoint :=
  match channel.Read (ep e) with
  | (None, _) => None
  | (Some pkt, ep') =>
      let '(scratch, b) := append (buff e) (OnScratch 0) (stack.NetworkHeader pkt) in
      let '(scratch, b) := append scratch b (stack.TransportHeader pkt) in
      let vv := stack.Data pkt in
      let '(scratch, b) := append scratch b (stack.ToView vv) in
      Some {| ep := ep'; Device_ := Device_ e;
              Writer := Writer e ++ [contents scratch b];
              mtu := mtu e; buff := scratch |}
  end.

(** [endpoint.Write]: the entry point WinDivert pushes packets into. *)
Definition Write (b : list byte) : M (Z * error) :=
  buf <- copy_of b ;;
  bytes <- load buf ;;
  (if header.IPVersion bytes =? header.IPv4Version then
     let pkt := buf in
     header.IPv4.SetChecksum pkt 0 ;;;
     c <- header.IPv4.CalculateChecksum pkt ;;
     header.IPv4.SetChecksum pkt (not16 c) ;;;
     ProtocolNumber <- header.IPv4.TransportProtocol pkt ;;
     (if ProtocolNumber =? header.UDPProtocolNumber then
        hdr <- header.IPv4.Payload pkt ;;
        dst <- header.IPv4.DestinationAddress pkt ;;
        src <- header.IPv4.SourceAddress pkt ;;
        len <- header.UDP.Length hdr ;;
        let sum := header.PseudoHeaderChecksum ProtocolNumber dst src len in
        pl <- header.UDP.Payload hdr ;;
        data <- load pl ;;
        let sum := checksum.Checksum data sum in
        header.UDP.SetChecksum hdr 0 ;;;
        c <- header.UDP.CalculateChecksum hdr sum ;;
        header.UDP.SetChecksum hdr (not16 c)
      else if ProtocolNumber =? header.TCPProtocolNumber then
        hdr <- header.IPv4.Payload pkt ;;
        dst <- header.IPv4.DestinationAddress pkt ;;
        src <- header.IPv4.SourceAddress pkt ;;
        len <- header.IPv4.PayloadLength pkt ;;
        let sum := header.PseudoHeaderChecksum ProtocolNumber dst src len in
        pl <- header.TCP.Payload hdr ;;
        data <- load pl ;;
        let sum := checksum.Checksum data sum in
        header.TCP.SetChecksum hdr 0 ;;;
        c <- header.TCP.CalculateChecksum hdr sum ;;
        header.TCP.SetChecksum hdr (not16 c)
      else ret tt) ;;;
     InjectInbound header.IPv4ProtocolNumber buf
   else if header.IPVersion bytes =? header.IPv6Version then
     let pkt := buf in
     ProtocolNumber <- header.IPv6.TransportProtocol pkt ;;
     (if ProtocolNumber =? header.UDPProtocolNumber then
        hdr <- header.IPv6.Payload pkt ;;
        dst <- header.IPv6.DestinationAddress pkt ;;
        src <- header.IPv6.SourceAddress pkt ;;
        len <- header.UDP.Length hdr ;;
        let sum := header.PseudoHeaderChecksum ProtocolNumber dst src len in
        pl <- header.UDP.Payload hdr ;;
        data <- load pl ;;
        let sum := checksum.Checksum data sum in
        header.UDP.SetChecksum hdr 0 ;;;
        c <- header.UDP.CalculateChecksum hdr sum ;;
        header.UDP.SetChecksum hdr (not16 c)
      else if ProtocolNumber =? header.TCPProtocolNumber then
        hdr <- header.IPv6.Payload pkt ;;
        dst <- header.IPv6.DestinationAddress pkt ;;
        src <- header.IPv6.SourceAddress pkt ;;
        len <- header.IPv6.PayloadLength pkt ;;
        let sum := header.PseudoHeaderChecksum ProtocolNumber dst src len in
        pl <- header.TCP.Payload hdr ;;
        data <- load pl ;;
        let sum := checksum.Checksum data sum in
        header.TCP.SetChecksum hdr 0 ;;;
        c <- header.TCP.CalculateChecksum hdr sum ;;
        header.TCP.SetChecksum hdr (not16 c)
      else ret tt) ;;;
     InjectInbound header.IPv6ProtocolNumber buf
   else ret tt) ;;;
  ret (Z.of_nat (s_len buf), None).

(** A call [e.Write(b)] on the endpoint [e]: the values returned and the
    endpoint afterwards, or [None] for a panic. *)
Definition call_Write (e : channel.Endpoint) (b : list byte)
  : option ((Z * error) * channel.Endpoint) :=
  match Write b {| mem := []; chan := e |} with
  | Some (r, w) => Some (r, chan w)
  | None => None
  end.

End Windows.

(** The spec's end-to-end packet: a 20 byte IPv4 header, an 8 byte UDP header
    and 4 bytes of payload, both checksum fields zero. *)
Definition sample_udp4 : list byte :=
  map z2b [0x45; 0; 0; 32; 0; 1; 0; 0; 64; 17; 0; 0;
           10; 0; 0; 1; 10; 0; 0; 2;
           0x30; 0x39; 0; 53; 0; 12; 0; 0;
           1; 2; 3; 4].

(** Two successful reads of an offset device: the packet above behind a
    4 byte frame prefix, then one byte whose version nibble is 1. *)
Definition sample_reads : list (list byte * Z) :=
  [([x00; x00; x00; x02] ++ sample_udp4, 32);
   ([x00; x00; x00; x02; x15], 1)].

(** The same packet as the stack emits it: network header, transport
    header, and the data in two views. *)
Definition sample_out : stack.PacketBuffer :=
  stack.mkPacket (firstn 20 sample_udp4) (firstn 8 (skipn 20 sample_udp4))
    [firstn 2 (skipn 28 sample_udp4); skipn 30 sample_udp4].

(* ------------------------------------------------------------------ *)
(** ** Interleaved runs of WriteNotify *)

Module Drain.

(** Which build's [WriteNotify] runs: the frame prefix kept in front of
    the packet, and whether an empty queue is tested for. *)
Inductive build := unix | windows.

Definition prefix (v : build) : nat :=
  match v with unix => 4%nat | windows => 0%nat end.

(** The statement an invocation executes next. *)
Inductive pc :=
| AtRead        (* e.Endpoint.Read() *)
| AtLock        (* e.mu.Lock() *)
| AtNetwork     (* buf := append(e.buf[:prefix], network header...) *)
| AtTransport   (* buf = append(buf, transport header...) *)
| AtData        (* buf = append(buf, data...) *)
| AtWrite       (* the device write of buf *)
| AtUnlock      (* e.mu.Unlock() *)
| Returned
| Crashed.      (* panicked; a held mutex stays held *)

Record invocation := mkInv {
  at_pc : pc;
  pkt : option stack.PacketBuffer;   (* None: nil *)
  local : grown                      (* the local variable buf *)
}.

Record sys := mkSys {
  outq : list stack.PacketBuffer;    (* the stack's outbound queue *)
  mu : option nat;                   (* the invocation holding e.mu *)
  scratch : list byte;               (* the array behind e.buf *)
  device : list (list byte);         (* buffers written to the device *)
  invs : nat -> invocation
}.

Definition upd (f : nat -> invocation) (t : nat) (x : invocation)
  : nat -> invocation :=
  fun u => if Nat.eqb u t then x else f u.

Definition move (s : sys) (t : nat) (x : invocation) : sys :=
  {| outq := outq s; mu := mu s; scratch := scratch s;
     device := device s; invs := upd (invs s) t x |}.

(** One statement of one invocation [t]. *)
Inductive step (v : build) : sys -> sys -> Prop :=
| step_read_some s t p q :
    at_pc (invs s t) = AtRead -> outq s = p :: q ->
    step v s {| outq := q; mu := mu s; scratch := scratch s;
                device := device s;
                invs := upd (invs s) t (mkInv AtLock (Some p) (local (invs s t))) |}
| step_read_none_return s t :
    v = unix -> at_pc (invs s t) = AtRead -> outq s = [] ->
    step v s (move s t (mkInv Returned None (local (invs s t))))
| step_read_none_go_on s t :
    v = windows -> at_pc (invs s t) = AtRead -> outq s = [] ->
    step v s (move s t (mkInv AtLock None (local (invs s t))))
| step_lock s t :
    at_pc (invs s t) = AtLock -> mu s = None ->
    step v s {| outq := outq s; mu := Some t; scratch := scratch s;
                device := device s;
                invs := upd (invs s) t
                          (mkInv AtNetwork (pkt (invs s t)) (local (invs s t))) |}
| step_network s t p :
    at_pc (invs s t) = AtNetwork -> pkt (invs s t) = Some p ->
    (prefix v <= length (scratch s))%nat ->
    step v s {| outq := outq s; mu := mu s;
                scratch := fst (append (scratch s) (OnScratch (prefix v))
                                       (stack.NetworkHeader p));
                device := device s;
                invs := upd (invs s) t
                          (mkInv AtTransport (Some p)
                             (snd (append (scratch s) (OnScratch (prefix v))
                                          (stack.NetworkHeader p)))) |}
| step_network_nil s t :
    at_pc (invs s t) = AtNetwork -> pkt (invs s t) = None ->
    step v s (move s t (mkInv Crashed None (local (invs s t))))
| step_network_bounds s t p :
    at_pc (invs s t) = AtNetwork -> pkt (invs s t) = Some p ->
    (length (scratch s) < prefix v)%nat ->
    step v s (move s t (mkInv Crashed (Some p) (local (invs s t))))
| step_transport s t p :
    at_pc (invs s t) = AtTransport -> pkt (invs s t) = Some p ->
    step v s {| outq := outq s; mu := mu s;
                scratch := fst (append (scratch s) (local (invs s t))
                                       (stack.TransportHeader p));
                device := device s;
                invs := upd (invs s) t
                          (mkInv AtData (Some p)
                             (snd (append (scratch s) (local (invs s t))
                                          (stack.TransportHeader p)))) |}
| step_data s t p :
    at_pc (invs s t) = AtData -> pkt (invs s t) = Some p ->
    step v s {| outq := outq s; mu := mu s;
                scratch := fst (append (scratch s) (local (invs s t))
                                       (stack.ToView (stack.Data p)));
                device := device s;
                invs := upd (invs s) t
                          (mkInv AtWrite (Some p)
                             (snd (append (scratch s) (local (invs s t))
                                          (stack.ToView (stack.Data p))))) |}
| step_write s t :
    at_pc (invs s t) = AtWrite ->
    step v s {| outq := outq s; mu := mu s; scratch := scratch s;
                device := device s ++ [contents (scratch s) (local (invs s t))];
                invs := upd (invs s) t
                          (mkInv AtUnlock (pkt (invs s t)) (local (invs s t))) |}
| step_unlock s t :
    at_pc (invs s t) = AtUnlock ->
    step v s {| outq := outq s; mu := None; scratch := scratch s;
                device := device s;
                invs := upd (invs s) t
                          (mkInv Returned (pkt (invs s t)) (local (invs s t))) |}.

(** Any number of invocations, none of which has started, on an endpoint
    whose mutex is free. *)
Definition initial (queue : list stack.PacketBuffer) (buf : list byte) : sys :=
  {| outq := queue; mu := None; scratch := buf; device := [];
     invs := fun _ => mkInv AtRead None (OnScratch 0) |}.

Inductive reachable (v : build) (s0 : sys) : sys -> Prop :=
| reach_init : reachable v s0 s0
| reach_step s s' : reachable v s0 s -> step v s s' -> reachable v s0 s'.

(** An invocation between [Lock] and [Unlock]. *)
Definition in_section (p : pc) : bool :=
  match p with
  | AtNetwork | AtTransport | AtData | AtWrite | AtUnlock | Crashed => true
  | _ => false
  end.

(** The bytes of one packet as the device must see them. *)
Definition wire (p : stack.PacketBuffer) : list byte :=
  stack.NetworkHeader p ++ stack.TransportHeader p
    ++ stack.ToView (stack.Data p).

End Drain.

(* ------------------------------------------------------------------ *)
(** ** Packets as byte lists: the fields the statements speak about *)

Definition byte_at (b : list byte) (i : nat) : Z := b2z (nth i b x00).

Definition word_at (b : list byte) (i : nat) : Z :=
  word16 (nth i b x00) (nth (i + 1) b x00).

(** [len] bytes of [b] from index [off] on. *)
Definition sub (b : list byte) (off len : nat) : list byte :=
  firstn len (skipn off b).

(** IPv4: the header length in bytes and the length of what follows it. *)
Definition ihl_z (b : list byte) : Z := u8 (Z.land (byte_at b 0) 0x0f * 4).
Definition ihl (b : list byte) : nat := Z.to_nat (ihl_z b).
Definition payload_len4_z (b : list byte) : Z := u16 (word_at b 2 - ihl_z b).
Definition payload_len4 (b : list byte) : nat := Z.to_nat (payload_len4_z b).

(** IPv6: the payload length field. *)
Definition payload_len6 (b : list byte) : nat := Z.to_nat (word_at b 4).

(** TCP: the data offset in bytes, of the segment that starts at [off]. *)
Definition data_offset_z (m : list byte) (off : nat) : Z :=
  u8 (Z.shiftr (byte_at m (off + 12)) 4 * 4).
Definition data_offset_at (m : list byte) (off : nat) : nat :=
  Z.to_nat (data_offset_z m off).
Definition data_offset (seg : list byte) : nat := data_offset_at seg 0.

(** Where the transport segment of an IP packet starts, and its bytes. *)
Definition segment_off (b : list byte) : nat :=
  if header.IPVersion b =? 4 then ihl b else 40%nat.
Definition segment_len (b : list byte) : nat :=
  if header.IPVersion b =? 4 then payload_len4 b else payload_len6 b.
Definition segment (b : list byte) : list byte :=
  sub b (segment_off b) (segment_len b).

(** The protocol field of IPv4, the next-header field of IPv6. *)
Definition transport (b : list byte) : Z :=
  if header.IPVersion b =? 4 then byte_at b 9 else byte_at b 6.

(** The pseudo-header of the transport checksum as bytes: for IPv4 source,
    destination, a zero byte, the protocol and the 16 bit segment length
    (RFC 768, RFC 9293); for IPv6 source, destination, the 32 bit
    upper-layer length, three zero bytes and the next header (RFC 8200). *)
Definition pseudo_header (b : list byte) : list byte :=
  let len := Z.of_nat (length (segment b)) in
  if header.IPVersion b =? 4
  then sub b 12 4 ++ sub b 16 4 ++ [x00; z2b (transport b)] ++ be16 len
  else sub b 8 16 ++ sub b 24 16 ++ [x00; x00] ++ be16 len
         ++ [x00; x00; x00; z2b (transport b)].

(** An IP packet whose header is complete and whose length fields stay
    inside the buffer. *)
Definition wellformed_ip (b : list byte) : bool :=
  if header.IPVersion b =? 4
  then ((20 <=? ihl b) && (ihl b <=? Z.to_nat (word_at b 2))
        && (Z.to_nat (word_at b 2) <=? length b))%nat
  else if header.IPVersion b =? 6
  then (40 + payload_len6 b <=? length b)%nat
  else false.

(** The transport header lies inside the segment. *)
Definition fits (proto : Z) (seg : list byte) : bool :=
  if proto =? header.UDPProtocolNumber
  then (8 <=? length seg)%nat
  else if proto =? header.TCPProtocolNumber
  then ((20 <=? data_offset seg) && (data_offset seg <=? length seg))%nat
  else true.

(** A packet [Write] can take apart: a well-formed IP packet whose UDP or
    TCP header, if it carries one, is complete. *)
Definition wellformed (b : list byte) : bool :=
  wellformed_ip b && fits (transport b) (segment b).

(** A valid UDP or TCP segment in a well-formed IP packet: complete header,
    and for UDP a length field that is the length of the segment. *)
Definition valid_segment (b : list byte) : bool :=
  wellformed b
  && (((transport b =? header.UDPProtocolNumber)
       && (word_at (segment b) 4 =? Z.of_nat (length (segment b))))
      || (transport b =? header.TCPProtocolNumber)).

(** The unbounded sum of the big-endian 16 bit words of a buffer. *)
Fixpoint wsum (buf : list byte) : Z :=
  match buf with
  | hi :: lo :: rest => (b2z hi * 256 + b2z lo) + wsum rest
  | [hi] => b2z hi * 256
  | [] => 0
  end.

(** The 16 bit ones'-complement representative of a sum: 0 only for 0, and
    0xffff for the other multiples of 0xffff. *)
Definition fold16 (x : Z) : Z :=
  if x =? 0 then 0 else (x - 1) mod 65535 + 1.

(** What [Write] leaves in its buffer, step by step as pure functions of the
    bytes (the lemmas [Write_run_*] relate them to the code). *)
Definition fix_ipv4_header (m : list byte) : list byte :=
  let m0 := store 10 (be16 0) m in
  store 10 (be16 (not16 (checksum.Checksum (firstn (ihl m0) m0) 0))) m0.

Definition fix_udp (off len : nat) (ps : Z) (m : list byte) : list byte :=
  let sum := checksum.Checksum (sub m (off + 8) (len - 8)) ps in
  let m0 := store (off + 6) (be16 0) m in
  store (off + 6) (be16 (not16 (checksum.Checksum (sub m0 off 8) sum))) m0.

Definition fix_tcp (off len : nat) (ps : Z) (m : list byte) : list byte :=
  let doff := data_offset_at m off in
  let sum := checksum.Checksum (sub m (off + doff) (len - doff)) ps in
  let m0 := store (off + 16) (be16 0) m in
  store (off + 16)
        (be16 (not16 (checksum.Checksum
                        (sub m0 off (data_offset_at m0 off)) sum))) m0.

Definition repaired (b : list byte) : list byte :=
  if header.IPVersion b =? 4 then
    let m := fix_ipv4_header b in
    if byte_at m 9 =? header.UDPProtocolNumber then
      fix_udp (ihl m) (payload_len4 m)
        (header.PseudoHeaderChecksum (byte_at m 9) (sub m 16 4) (sub m 12 4)
           (word_at m (ihl m + 4))) m
    else if byte_at m 9 =? header.TCPProtocolNumber then
      fix_tcp (ihl m) (payload_len4 m)
        (header.PseudoHeaderChecksum (byte_at m 9) (sub m 16 4) (sub m 12 4)
           (payload_len4_z m)) m
    else m
  else if header.IPVersion b =? 6 then
    if byte_at b 6 =? header.UDPProtocolNumber then
      fix_udp 40 (payload_len6 b)
        (header.PseudoHeaderChecksum (byte_at b 6) (sub b 24 16) (sub b 8 16)
           (word_at b (40 + 4))) b
    else if byte_at b 6 =? header.TCPProtocolNumber then
      fix_tcp 40 (payload_len6 b)
        (header.PseudoHeaderChecksum (byte_at b 6) (sub b 24 16) (sub b 8 16)
           (word_at b 4)) b
    else b
  else b.

(** The indices of the checksum fields of a packet: the IPv4 header
    checksum, and the UDP or TCP checksum of the segment. *)
Definition checksum_fields (b : list byte) : list nat :=
  (if header.IPVersion b =? 4 then [10%nat; 11%nat] else [])
  ++ (if transport b =? header.UDPProtocolNumber
      then [(segment_off b + 6)%nat; (segment_off b + 7)%nat]
      else if transport b =? header.TCPProtocolNumber
      then [(segment_off b + 16)%nat; (segment_off b + 17)%nat]
      else []).

(** The packet a pump loop takes out of the buffer of one successful read:
    [n] bytes behind a frame prefix of [off] bytes. *)
Definition read_packet (off : nat) (size : Z) (ev : list byte * Z) : list byte :=
  sub (filled (Z.to_nat size) (fst ev)) off (Z.to_nat (snd ev)).

Definition ok_event (ev : list byte * Z) : ReadEvent := ReadOk (fst ev) (snd ev).

(** The packets a pump loop forwards out of the packets it has read. *)
Definition known (p : list byte) : bool :=
  (header.IPVersion p =? header.IPv4Version)
  || (header.IPVersion p =? header.IPv6Version).

Definition tagged (p : list byte) : Z * list byte :=
  (if header.IPVersion p =? header.IPv4Version
   then header.IPv4ProtocolNumber else header.IPv6ProtocolNumber, p).

Definition forwarded (pkts : list (list byte)) : list (Z * list byte) :=
  map tagged (filter known pkts).

Definition forward_all (e : channel.Endpoint) (pkts : list (list byte))
  : channel.Endpoint :=
  {| channel.inbound := channel.inbound e ++ forwarded pkts;
     channel.outq := channel.outq e |}.

(** What holds of every state of the interleaved runs. *)
Module DrainInv.
Import Drain.

(** A slice grown from the scratch array leaves the frame prefix in front
    of it and ends inside the array. *)
Definition grown_ok (pre : nat) (scratch : list byte) (g : grown) : Prop :=
  match g with
  | OnScratch n => (pre <= n <= length scratch)%nat
  | Moved _ => True
  end.

(** The local buffer of an invocation holds the part of its own packet it
    has appended so far, behind the frame prefix. *)
Definition holds (pre : nat) (queue : list stack.PacketBuffer)
    (buf0 scratch : list byte) (i : invocation) (part : stack.PacketBuffer -> list byte)
  : Prop :=
  exists p, pkt i = Some p /\ In p queue
            /\ grown_ok pre scratch (local i)
            /\ contents scratch (local i) = firstn pre buf0 ++ part p.

Definition inv_ok (v : build) (queue : list stack.PacketBuffer)
    (buf0 : list byte) (s : sys) (t : nat) : Prop :=
  (in_section (at_pc (invs s t)) = true -> mu s = Some t)
  /\ (forall p, pkt (invs s t) = Some p -> In p queue)
  /\ match at_pc (invs s t) with
     | AtTransport =>
         holds (prefix v) queue buf0 (scratch s) (invs s t) stack.NetworkHeader
     | AtData =>
         holds (prefix v) queue buf0 (scratch s) (invs s t)
           (fun p => stack.NetworkHeader p ++ stack.TransportHeader p)
     | AtWrite =>
         holds (prefix v) queue buf0 (scratch s) (invs s t) wire
     | _ => True
     end.

Definition Inv (v : build) (queue : list stack.PacketBuffer)
    (buf0 : list byte) (s : sys) : Prop :=
  length (scratch s) = length buf0
  /\ firstn (prefix v) (scratch s) = firstn (prefix v) buf0
  /\ (forall x, In x (outq s) -> In x queue)
  /\ (forall t, inv_ok v queue buf0 s t)
  /\ (forall w, In w (device s) ->
                exists p, In p queue /\ w = firstn (prefix v) buf0 ++ wire p).
End DrainInv.

(** ** Where [Write] stays in bounds, and runs of notifications *)

(** The transport header that [Write] reads and writes lies inside a
    segment of [len] bytes at [off]: 8 bytes for UDP; for TCP the checksum
    field (bytes 16 and 17) and the data offset. *)
Definition header_in_bounds (proto : Z) (m : list byte) (off len : nat) : bool :=
  if proto =? header.UDPProtocolNumber
  then (8 <=? len)%nat
  else ((18 <=? len) && (data_offset_at m off <=? len))%nat.

(** The buffers on which no slice expression, index or 16 bit access of
    [Write] is out of range. *)
Definition in_bounds (b : list byte) : bool :=
  if header.IPVersion b =? 4 then
    ((12 <=? length b) && (ihl b <=? length b))%nat
    && (if (byte_at b 9 =? header.UDPProtocolNumber)
           || (byte_at b 9 =? header.TCPProtocolNumber)
        then ((ihl b + payload_len4 b <=? length b) && (20 <=? length b))%nat
             && header_in_bounds (byte_at b 9) b (ihl b) (payload_len4 b)
        else true)
  else if header.IPVersion b =? 6 then
    (7 <=? length b)%nat
    && (if (byte_at b 6 =? header.UDPProtocolNumber)
           || (byte_at b 6 =? header.TCPProtocolNumber)
        then (40 + payload_len6 b <=? length b)%nat
             && header_in_bounds (byte_at b 6) b 40 (payload_len6 b)
        else true)
  else true.

(** [n] notifications in a row on the linux/darwin endpoint, as the channel
    endpoint fires them; [None] when one of them panics. *)
Fixpoint unix_notify (n : nat) (e : Unix.Endpoint) : option Unix.Endpoint :=
  match n with
  | O => Some e
  | S n' =>
      match Unix.WriteNotify e with
      | Some e' => unix_notify n' e'
      | None => None
      end
  end.

(** The same on the windows endpoint. *)
Fixpoint windows_notify (n : nat) (e : Windows.Endpoint)
  : option Windows.Endpoint :=
  match n with
  | O => Some e
  | S n' =>
      match Windows.WriteNotify e with
      | Some e' => windows_notify n' e'
      | None => None
      end
  end.

(** Sample inputs for the edge behaviour of [Write]: an IPv4 echo request
    whose total length field (0xffff) is far beyond its 24 bytes; the first
    7 bytes of an IPv6 header with next header 58 (ICMPv6), and its first 6;
    the UDP packet above with a total length field of 33 for its 32 bytes;
    and the same packet with both checksum fields filled with other
    values. *)
Definition sample_icmp4 : list byte :=
  map z2b [0x45; 0; 0xff; 0xff; 0; 1; 0; 0; 64; 1; 0; 0;
           10; 0; 0; 1; 10; 0; 0; 2;
           8; 0; 0xf7; 0xff].

Definition sample_cut6 : list byte := [x60; x00; x00; x00; x00; x14; x3a].

Definition sample_short6 : list byte := [x60; x00; x00; x00; x00; x14].

Definition sample_overrun : list byte := store 2 [x00; x21] sample_udp4.

Definition sample_stale_sums : list byte :=
  store 26 [xaa; xbb] (store 10 [x12; x34] sample_udp4).

(** A second outbound packet: a network header of 20 bytes, no transport
    header, one view of data. *)
Definition sample_out2 : stack.PacketBuffer :=
  stack.mkPacket (firstn 20 sample_icmp4) [] [skipn 20 sample_icmp4].

(* ================================================================== *)
(** * Proofs *)

(** ** Bytes and 16 bit words *)

Lemma b2z_range (b : byte) : 0 <= b2z b < 256.
Proof.
  unfold b2z. pose proof (Byte.to_N_bounded b). lia.
Qed.

Lemma b2z_z2b (z : Z) : b2z (z2b z) = z mod 256.
Proof.
  unfold z2b, b2z.
  assert (Hr : 0 <= z mod 256 < 256) by (apply Z.mod_pos_bound; lia).
  destruct (Byte.of_N (Z.to_N (z mod 256))) as [b|] eqn:E.
  - apply Byte.to_of_N in E. rewrite E. lia.
  - apply Byte.of_N_None_iff in E. lia.
Qed.

Lemma shiftl8 (z : Z) : Z.shiftl z 8 = z * 256.
Proof. rewrite Z.shiftl_mul_pow2 by lia. reflexivity. Qed.

Lemma shiftr8 (z : Z) : Z.shiftr z 8 = z / 256.
Proof. rewrite Z.shiftr_div_pow2 by lia. reflexivity. Qed.

Lemma shiftr16 (z : Z) : Z.shiftr z 16 = z / 65536.
Proof. rewrite Z.shiftr_div_pow2 by lia. reflexivity. Qed.

Lemma word16_eq (hi lo : byte) : word16 hi lo = b2z hi * 256 + b2z lo.
Proof.
  unfold word16. rewrite shiftl8.
  pose proof (b2z_range hi). pose proof (b2z_range lo).
  rewrite <- Z.add_lor_land.
  replace (Z.land (b2z hi * 256) (b2z lo)) with 0; [lia|].
  symmetry. apply Z.bits_inj'. intros n Hn.
  rewrite Z.land_spec, Z.bits_0.
  destruct (Z.ltb_spec n 8).
  - replace (b2z hi * 256) with (b2z hi * 2 ^ 8) by lia.
    rewrite Z.mul_pow2_bits_low by lia. reflexivity.
  - replace (Z.testbit (b2z lo) n) with false; [apply andb_false_r|].
    symmetry. apply Z.bits_above_log2; [lia|].
    destruct (Z.eq_dec (b2z lo) 0) as [->|]; [simpl; lia|].
    apply Z.log2_lt_pow2; [lia|].
    apply Z.lt_le_trans with (2 ^ 8); [lia|].
    apply Z.pow_le_mono_r; lia.
Qed.

Lemma word16_range (hi lo : byte) : 0 <= word16 hi lo < 65536.
Proof.
  rewrite word16_eq. pose proof (b2z_range hi). pose proof (b2z_range lo). lia.
Qed.

Lemma not16_eq (s : Z) : 0 <= s <= 65535 -> not16 s = 65535 - s.
Proof.
  intros H. unfold not16.
  assert (E : s + Z.lxor s 65535 = 65535); [|lia].
  rewrite Z.add_nocarry_lxor.
  - rewrite <- Z.lxor_assoc, Z.lxor_nilpotent, Z.lxor_0_l. reflexivity.
  - apply Z.bits_inj'. intros n Hn.
    rewrite Z.land_spec, Z.lxor_spec, Z.bits_0.
    destruct (Z.testbit s n) eqn:Es; [|reflexivity].
    change 65535 with (Z.ones 16).
    destruct (Z.ltb_spec n 16).
    + rewrite Z.ones_spec_low by lia. reflexivity.
    + exfalso. rewrite Z.bits_above_log2 in Es; [discriminate|lia|].
      destruct (Z.eq_dec s 0) as [->|]; [simpl; lia|].
      apply Z.lt_le_trans with 16; [|lia].
      apply Z.log2_lt_pow2; lia.
Qed.

Lemma wsum_be16 (v : Z) : 0 <= v < 65536 -> wsum (be16 v) = v.
Proof.
  intros H. unfold be16, wsum.
  rewrite !b2z_z2b, shiftr8.
  rewrite (Z.mod_small (v / 256)) by (split; [apply Z.div_pos; lia | apply Z.div_lt_upper_bound; lia]).
  pose proof (Z.div_mod v 256). lia.
Qed.

Lemma wsum_nonneg (l : list byte) : 0 <= wsum l.
Proof.
  induction l as [l IH] using (well_founded_induction
    (Wf_nat.well_founded_ltof _ (@length byte))).
  destruct l as [|hi [|lo rest]]; simpl; try lia.
  - pose proof (b2z_range hi). lia.
  - pose proof (b2z_range hi). pose proof (b2z_range lo).
    assert (0 <= wsum rest) by (apply IH; unfold Wf_nat.ltof; simpl; lia). lia.
Qed.

(** ** The ones'-complement sum *)

Lemma pair_ind (P : list byte -> Prop) :
  P [] -> (forall x, P [x]) -> (forall x y l, P l -> P (x :: y :: l)) ->
  forall l, P l.
Proof.
  intros H0 H1 H2.
  assert (H : forall l, P l /\ forall x, P (x :: l)).
  { induction l as [|y l [IHa IHb]]; split; auto. }
  intros l. apply H.
Qed.

Lemma wsum_bound (l : list byte) :
  wsum l <= 32768 * (Z.of_nat (length l) + 1).
Proof.
  induction l as [|x|x y l IH] using pair_ind.
  - simpl. lia.
  - simpl. pose proof (b2z_range x). lia.
  - pose proof (b2z_range x). pose proof (b2z_range y).
    change (wsum (x :: y :: l)) with (b2z x * 256 + b2z y + wsum l).
    change (length (x :: y :: l)) with (S (S (length l))). lia.
Qed.

Lemma wsum_app (l1 l2 : list byte) :
  Nat.even (length l1) = true -> wsum (l1 ++ l2) = wsum l1 + wsum l2.
Proof.
  induction l1 as [|x|x y l IH] using pair_ind; intros E.
  - reflexivity.
  - discriminate.
  - change (wsum ((x :: y :: l) ++ l2))
      with (b2z x * 256 + b2z y + wsum (l ++ l2)).
    change (wsum (x :: y :: l)) with (b2z x * 256 + b2z y + wsum l).
    rewrite IH by exact E. lia.
Qed.

Lemma u32_idem (z : Z) : u32 (u32 z) = u32 z.
Proof. unfold u32. apply Z.mod_mod. lia. Qed.

Lemma sumwords_eq (buf : list byte) :
  forall v, checksum.sumwords buf (u32 v) = u32 (v + wsum buf).
Proof.
  induction buf as [|x|x y l IH] using pair_ind; intros v.
  - simpl. rewrite Z.add_0_r. reflexivity.
  - change (checksum.sumwords [x] (u32 v))
      with (u32 (u32 v + Z.shiftl (b2z x) 8)).
    change (wsum [x]) with (b2z x * 256).
    rewrite shiftl8. unfold u32. rewrite Zplus_mod_idemp_l. reflexivity.
  - change (checksum.sumwords (x :: y :: l) (u32 v))
      with (checksum.sumwords l (u32 (u32 v + (Z.shiftl (b2z x) 8 + b2z y)))).
    rewrite IH. rewrite shiftl8.
    change (wsum (x :: y :: l)) with (b2z x * 256 + b2z y + wsum l).
    unfold u32. rewrite <- Z.add_assoc, Zplus_mod_idemp_l. reflexivity.
Qed.

Lemma fold16_range (x : Z) : 0 <= x -> 0 <= fold16 x <= 65535.
Proof.
  intros H. unfold fold16. destruct (Z.eqb_spec x 0); [lia|].
  pose proof (Z.mod_pos_bound (x - 1) 65535). lia.
Qed.

Lemma fold16_pos (x : Z) : 0 < x -> 1 <= fold16 x.
Proof.
  intros H. unfold fold16. destruct (Z.eqb_spec x 0); [lia|].
  pose proof (Z.mod_pos_bound (x - 1) 65535). lia.
Qed.

Lemma fold16_small (x : Z) : 0 <= x <= 65535 -> fold16 x = x.
Proof.
  intros H. unfold fold16. destruct (Z.eqb_spec x 0); [lia|].
  rewrite Z.mod_small; lia.
Qed.

Lemma fold16_fold16 (a b : Z) :
  0 <= a -> 0 <= b -> fold16 (fold16 a + b) = fold16 (a + b).
Proof.
  intros Ha Hb. unfold fold16.
  destruct (Z.eqb_spec a 0) as [->|Na]; [reflexivity|].
  pose proof (Z.mod_pos_bound (a - 1) 65535 ltac:(lia)) as Hr.
  destruct (Z.eqb_spec ((a - 1) mod 65535 + 1 + b) 0); [lia|].
  destruct (Z.eqb_spec (a + b) 0); [lia|].
  f_equal.
  pose proof (Z.div_mod (a - 1) 65535 ltac:(lia)) as E.
  replace (a + b - 1) with ((a - 1) mod 65535 + 1 + b - 1 + (a - 1) / 65535 * 65535) by lia.
  rewrite Z.mod_add by lia. reflexivity.
Qed.

Lemma fold16_complement (x : Z) :
  0 < x -> fold16 (x + (65535 - fold16 x)) = 65535.
Proof.
  intros H. unfold fold16.
  destruct (Z.eqb_spec x 0); [lia|].
  pose proof (Z.mod_pos_bound (x - 1) 65535 ltac:(lia)) as Hr.
  destruct (Z.eqb_spec (x + (65535 - ((x - 1) mod 65535 + 1))) 0); [lia|].
  pose proof (Z.div_mod (x - 1) 65535 ltac:(lia)) as E.
  replace (x + (65535 - ((x - 1) mod 65535 + 1)) - 1)
    with (65534 + (x - 1) / 65535 * 65535) by lia.
  rewrite Z.mod_add by lia. reflexivity.
Qed.

Lemma Combine_fold (x : Z) :
  0 <= x < 2 ^ 32 ->
  checksum.Combine (u16 x) (u16 (Z.shiftr x 16)) = fold16 x.
Proof.
  intros H. unfold checksum.Combine, u16, u32. rewrite !shiftr16.
  change (2 ^ 16) with 65536. change (2 ^ 32) with 4294967296 in *.
  assert (Hh : 0 <= x / 65536 < 65536)
    by (split; [apply Z.div_pos; lia | apply Z.div_lt_upper_bound; lia]).
  pose proof (Z.mod_pos_bound x 65536 ltac:(lia)) as Hl.
  pose proof (Z.div_mod x 65536 ltac:(lia)) as E.
  rewrite (Z.mod_small (x / 65536)) by lia.
  set (l := x mod 65536) in *. set (h := x / 65536) in *.
  rewrite (Z.mod_small (l + h)) by lia.
  unfold fold16. destruct (Z.eqb_spec x 0) as [Ex|Nx].
  - assert (l = 0 /\ h = 0) as [-> ->] by lia. reflexivity.
  - destruct (Z_lt_le_dec (l + h) 65536) as [Hs|Hs].
    + rewrite (Z.div_small (l + h)) by lia.
      rewrite Z.mod_small by lia.
      replace (x - 1) with (l + h - 1 + h * 65535) by lia.
      rewrite Z.mod_add by lia. rewrite Z.mod_small; lia.
    + replace ((l + h) / 65536) with 1
        by (apply Z.div_unique with (l + h - 65536); lia).
      replace (l + h + 1) with (l + h - 65535 + 1 * 65536) by lia.
      rewrite Z.mod_add by lia. rewrite Z.mod_small by lia.
      replace (x - 1) with (l + h - 65536 + (h + 1) * 65535) by lia.
      rewrite Z.mod_add by lia. rewrite Z.mod_small; lia.
Qed.

(** [Checksum] is the folded sum as long as the 32 bit accumulator cannot
    wrap, which no buffer of an IP packet makes it do. *)
Lemma Checksum_eq (buf : list byte) (initial : Z) :
  0 <= initial <= 65535 -> Z.of_nat (length buf) <= 100000 ->
  checksum.Checksum buf initial = fold16 (initial + wsum buf).
Proof.
  intros Hi Hl. unfold checksum.Checksum.
  pose proof (wsum_bound buf). pose proof (wsum_nonneg buf).
  rewrite sumwords_eq.
  assert (Hx : 0 <= initial + wsum buf < 2 ^ 32)
    by (change (2 ^ 32) with 4294967296; lia).
  unfold u32 at 1 2. rewrite Z.mod_small by exact Hx.
  apply Combine_fold. exact Hx.
Qed.

Lemma Checksum_range (buf : list byte) (initial : Z) :
  0 <= checksum.Checksum buf initial <= 65535.
Proof.
  unfold checksum.Checksum, checksum.Combine, u16.
  pose proof (Z.mod_pos_bound
    (u32 (checksum.sumwords buf (u32 initial) mod 2 ^ 16 +
          Z.shiftr (checksum.sumwords buf (u32 initial)) 16 mod 2 ^ 16) +
     Z.shiftr (u32 (checksum.sumwords buf (u32 initial) mod 2 ^ 16 +
          Z.shiftr (checksum.sumwords buf (u32 initial)) 16 mod 2 ^ 16)) 16)
    (2 ^ 16) ltac:(lia)).
  cbv zeta. change (2 ^ 16) with 65536 in *. lia.
Qed.

(** ** Stores into a byte list *)

Lemma store_length (off : nat) (bs m : list byte) :
  (off + length bs <= length m)%nat -> length (store off bs m) = length m.
Proof.
  intros H. unfold store.
  rewrite !length_app, length_firstn, length_skipn. lia.
Qed.

Lemma nth_store (off : nat) (bs m : list byte) (i : nat) (d : byte) :
  (off + length bs <= length m)%nat ->
  nth i (store off bs m) d =
    if (i <? off)%nat then nth i m d
    else if (i <? off + length bs)%nat then nth (i - off) bs d
    else nth i m d.
Proof.
  intros H. unfold store.
  assert (Lf : length (firstn off m) = off) by (rewrite length_firstn; lia).
  destruct (Nat.ltb_spec i off).
  - rewrite app_nth1 by lia. rewrite nth_firstn.
    destruct (Nat.ltb_spec i off); [reflexivity|lia].
  - rewrite app_nth2 by lia. rewrite Lf.
    destruct (Nat.ltb_spec i (off + length bs)).
    + rewrite app_nth1 by lia. reflexivity.
    + rewrite app_nth2 by lia. rewrite nth_skipn. f_equal. lia.
Qed.

Lemma nth_store_other (off : nat) (bs m : list byte) (i : nat) (d : byte) :
  (off + length bs <= length m)%nat ->
  (i < off \/ off + length bs <= i)%nat ->
  nth i (store off bs m) d = nth i m d.
Proof.
  intros H Hi. rewrite nth_store by exact H.
  destruct (Nat.ltb_spec i off); [reflexivity|].
  destruct (Nat.ltb_spec i (off + length bs)); [lia|reflexivity].
Qed.

Lemma sub_length (b : list byte) (off len : nat) :
  (off + len <= length b)%nat -> length (sub b off len) = len.
Proof.
  intros H. unfold sub. rewrite length_firstn, length_skipn. lia.
Qed.

Lemma nth_sub (b : list byte) (off len i : nat) (d : byte) :
  (i < len)%nat -> nth i (sub b off len) d = nth (off + i) b d.
Proof.
  intros H. unfold sub. rewrite nth_firstn.
  destruct (Nat.ltb_spec i len); [|lia]. apply nth_skipn.
Qed.

Lemma sub_all (b : list byte) : sub b 0 (length b) = b.
Proof. unfold sub. simpl. apply firstn_all. Qed.

(** A store outside a window does not show in it. *)
Lemma sub_store_outside (p : nat) (bs m : list byte) (off len : nat) :
  (p + length bs <= length m)%nat -> (off + len <= length m)%nat ->
  (p + length bs <= off \/ off + len <= p)%nat ->
  sub (store p bs m) off len = sub m off len.
Proof.
  intros Hp Ho Hd.
  apply nth_ext with (d := x00) (d' := x00).
  - rewrite !sub_length; rewrite ?store_length; lia.
  - intros i Hi. rewrite sub_length in Hi by (rewrite store_length; lia).
    rewrite !nth_sub by lia. apply nth_store_other; lia.
Qed.

(** A store inside a window is a store into the window. *)
Lemma sub_store_inside (k : nat) (bs m : list byte) (off len : nat) :
  (off + len <= length m)%nat -> (k + length bs <= len)%nat ->
  sub (store (off + k) bs m) off len = store k bs (sub m off len).
Proof.
  intros Ho Hk.
  assert (Ls : length (sub m off len) = len) by (apply sub_length; lia).
  apply nth_ext with (d := x00) (d' := x00).
  - rewrite store_length by lia.
    rewrite !sub_length; rewrite ?store_length; lia.
  - intros i Hi. rewrite sub_length in Hi by (rewrite store_length; lia).
    rewrite nth_sub by lia.
    rewrite !nth_store by lia.
    destruct (Nat.ltb_spec (off + i) (off + k)), (Nat.ltb_spec i k); try lia.
    + rewrite nth_sub by lia. reflexivity.
    + destruct (Nat.ltb_spec (off + i) (off + k + length bs)),
               (Nat.ltb_spec i (k + length bs)); try lia.
      * f_equal. lia.
      * rewrite nth_sub by lia. reflexivity.
Qed.

Lemma store_store (off : nat) (bs bs' m : list byte) :
  (off + length bs <= length m)%nat -> length bs' = length bs ->
  store off bs (store off bs' m) = store off bs m.
Proof.
  intros H L.
  apply nth_ext with (d := x00) (d' := x00).
  - rewrite !store_length; rewrite ?store_length; lia.
  - intros i _. rewrite !nth_store by (rewrite ?store_length; lia).
    rewrite L.
    destruct (Nat.ltb_spec i off); [reflexivity|].
    destruct (Nat.ltb_spec i (off + length bs)); reflexivity.
Qed.

Lemma sub_split (b : list byte) (off k len : nat) :
  (k <= len)%nat ->
  sub b off len = sub b off k ++ sub b (off + k) (len - k).
Proof.
  intros H. unfold sub.
  rewrite <- (firstn_skipn k (firstn len (skipn off b))).
  rewrite firstn_firstn, Nat.min_l by lia.
  rewrite skipn_firstn_comm, skipn_skipn.
  do 3 f_equal. lia.
Qed.

Lemma sub_sub (b : list byte) (off len off' len' : nat) :
  (off' + len' <= len)%nat ->
  sub (sub b off len) off' len' = sub b (off + off') len'.
Proof.
  intros H. unfold sub.
  rewrite skipn_firstn_comm, firstn_firstn, skipn_skipn, Nat.min_l by lia.
  do 2 f_equal. lia.
Qed.

Lemma length_be16 (v : Z) : length (be16 v) = 2%nat.
Proof. reflexivity. Qed.

(** Bounds on indices into buffers that stores have gone into. *)
Ltac solve_len :=
  repeat first [rewrite length_be16 | rewrite store_length]; lia.

(** Writing a 16 bit field at an even offset adds its value to the sum that
    the buffer has with the field zeroed. *)
Lemma wsum_store16 (k : nat) (v : Z) (l : list byte) :
  Nat.even k = true -> (k + 2 <= length l)%nat -> 0 <= v < 65536 ->
  wsum (store k (be16 v) l) = wsum (store k (be16 0) l) + v.
Proof.
  intros Ek Hk Hv. unfold store. rewrite !length_be16.
  assert (Lf : length (firstn k l) = k) by (rewrite length_firstn; lia).
  rewrite !wsum_app by (rewrite ?Lf; assumption || reflexivity).
  rewrite !wsum_be16 by lia. lia.
Qed.

(** ** Running the header accessors *)

Lemma bind_run {A B} (c : Go.M A) (k : A -> Go.M B) (w w' : Go.world) (a : A) :
  c w = Some (a, w') -> Go.bind c k w = k a w'.
Proof. intros E. unfold Go.bind. rewrite E. reflexivity. Qed.

Ltac tests :=
  cbn [Go.s_len Go.s_cap Go.s_off Go.mem Go.chan andb];
  repeat match goal with
  | |- context [(?a <=? ?b)%nat] =>
      rewrite (proj2 (Nat.leb_le a b)) by lia;
      cbn [Go.s_len Go.s_cap Go.s_off Go.mem Go.chan andb]
  | |- context [(?a <? ?b)%nat] =>
      rewrite (proj2 (Nat.ltb_lt a b)) by lia;
      cbn [Go.s_len Go.s_cap Go.s_off Go.mem Go.chan andb]
  end.

Ltac run_prim :=
  unfold Go.bind, Go.index, Go.from, Go.upto, Go.range, Go.load, Go.Uint16,
    Go.PutUint16, Go.ret, Go.panic;
  tests.

Section Accessors.
Import Go.
Variables (m : list byte) (c : channel.Endpoint).

Section OnPacket.
Variable n : nat.
Local Abbreviation pkt := (mkSlice 0 n n).

Lemma IPv4_HeaderLength_run :
  (1 <= n)%nat ->
  header.IPv4.HeaderLength pkt (mkWorld m c) = Some (ihl_z m, mkWorld m c).
Proof. intros. unfold header.IPv4.HeaderLength. run_prim. reflexivity. Qed.

Lemma IPv4_SetChecksum_run (v : Z) :
  (12 <= n)%nat ->
  header.IPv4.SetChecksum pkt v (mkWorld m c)
  = Some (tt, mkWorld (store 10 (be16 v) m) c).
Proof. intros. unfold header.IPv4.SetChecksum. run_prim. reflexivity. Qed.

Lemma IPv4_CalculateChecksum_run :
  (1 <= n)%nat -> (ihl m <= n)%nat ->
  header.IPv4.CalculateChecksum pkt (mkWorld m c)
  = Some (checksum.Checksum (firstn (ihl m) m) 0, mkWorld m c).
Proof.
  intros. unfold header.IPv4.CalculateChecksum.
  rewrite (bind_run _ _ _ _ _ (IPv4_HeaderLength_run ltac:(lia))).
  fold (ihl m). run_prim. reflexivity.
Qed.

Lemma IPv4_TransportProtocol_run :
  (10 <= n)%nat ->
  header.IPv4.TransportProtocol pkt (mkWorld m c)
  = Some (byte_at m 9, mkWorld m c).
Proof. intros. unfold header.IPv4.TransportProtocol. run_prim. reflexivity. Qed.

Lemma IPv4_PayloadLength_run :
  (4 <= n)%nat ->
  header.IPv4.PayloadLength pkt (mkWorld m c)
  = Some (payload_len4_z m, mkWorld m c).
Proof.
  intros. unfold header.IPv4.PayloadLength, header.IPv4.TotalLength,
    header.IPv4.HeaderLength.
  run_prim. reflexivity.
Qed.

Lemma IPv4_Payload_run :
  (4 <= n)%nat -> (ihl m + payload_len4 m <= n)%nat ->
  header.IPv4.Payload pkt (mkWorld m c)
  = Some (mkSlice (ihl m) (payload_len4 m) (n - ihl m), mkWorld m c).
Proof.
  intros. unfold header.IPv4.Payload.
  rewrite (bind_run _ _ _ _ _ (IPv4_HeaderLength_run ltac:(lia))).
  fold (ihl m).
  unfold bind at 1. unfold from at 1. tests. unfold ret at 1.
  rewrite (bind_run _ _ _ _ _ (IPv4_PayloadLength_run ltac:(lia))).
  fold (payload_len4 m). run_prim. reflexivity.
Qed.

Lemma IPv4_SourceAddress_run :
  (16 <= n)%nat ->
  header.IPv4.SourceAddress pkt (mkWorld m c)
  = Some (sub m 12 4, mkWorld m c).
Proof. intros. unfold header.IPv4.SourceAddress. run_prim. reflexivity. Qed.

Lemma IPv4_DestinationAddress_run :
  (20 <= n)%nat ->
  header.IPv4.DestinationAddress pkt (mkWorld m c)
  = Some (sub m 16 4, mkWorld m c).
Proof. intros. unfold header.IPv4.DestinationAddress. run_prim. reflexivity. Qed.

Lemma IPv6_TransportProtocol_run :
  (7 <= n)%nat ->
  header.IPv6.TransportProtocol pkt (mkWorld m c)
  = Some (byte_at m 6, mkWorld m c).
Proof. intros. unfold header.IPv6.TransportProtocol. run_prim. reflexivity. Qed.

Lemma IPv6_PayloadLength_run :
  (6 <= n)%nat ->
  header.IPv6.PayloadLength pkt (mkWorld m c)
  = Some (word_at m 4, mkWorld m c).
Proof. intros. unfold header.IPv6.PayloadLength. run_prim. reflexivity. Qed.

Lemma IPv6_Payload_run :
  (40 + payload_len6 m <= n)%nat ->
  header.IPv6.Payload pkt (mkWorld m c)
  = Some (mkSlice 40 (payload_len6 m) (n - 40), mkWorld m c).
Proof.
  intros. unfold header.IPv6.Payload, header.IPv6MinimumSize.
  unfold bind at 1. unfold from at 1. tests. unfold ret at 1.
  rewrite (bind_run _ _ _ _ _ (IPv6_PayloadLength_run ltac:(lia))).
  fold (payload_len6 m). run_prim. reflexivity.
Qed.

Lemma IPv6_SourceAddress_run :
  (40 <= n)%nat ->
  header.IPv6.SourceAddress pkt (mkWorld m c)
  = Some (sub m 8 16, mkWorld m c).
Proof. intros. unfold header.IPv6.SourceAddress. run_prim. reflexivity. Qed.

Lemma IPv6_DestinationAddress_run :
  (40 <= n)%nat ->
  header.IPv6.DestinationAddress pkt (mkWorld m c)
  = Some (sub m 24 16, mkWorld m c).
Proof. intros. unfold header.IPv6.DestinationAddress. run_prim. reflexivity. Qed.
End OnPacket.

Section OnSegment.
Variables off len cap : nat.
Local Abbreviation hdr := (mkSlice off len cap).

Lemma UDP_Length_run :
  (6 <= len)%nat ->
  header.UDP.Length hdr (mkWorld m c) = Some (word_at m (off + 4), mkWorld m c).
Proof. intros. unfold header.UDP.Length. run_prim. reflexivity. Qed.

Lemma UDP_Payload_run :
  (8 <= len)%nat ->
  header.UDP.Payload hdr (mkWorld m c)
  = Some (mkSlice (off + 8) (len - 8) (cap - 8), mkWorld m c).
Proof.
  intros. unfold header.UDP.Payload, header.UDPMinimumSize. run_prim.
  reflexivity.
Qed.

Lemma UDP_SetChecksum_run (v : Z) :
  (8 <= len)%nat ->
  header.UDP.SetChecksum hdr v (mkWorld m c)
  = Some (tt, mkWorld (store (off + 6) (be16 v) m) c).
Proof. intros. unfold header.UDP.SetChecksum. run_prim. reflexivity. Qed.

Lemma UDP_CalculateChecksum_run (p : Z) :
  (8 <= cap)%nat ->
  header.UDP.CalculateChecksum hdr p (mkWorld m c)
  = Some (checksum.Checksum (sub m off 8) p, mkWorld m c).
Proof.
  intros. unfold header.UDP.CalculateChecksum, header.UDPMinimumSize.
  run_prim. reflexivity.
Qed.

Lemma TCP_DataOffset_run :
  (13 <= len)%nat ->
  header.TCP.DataOffset hdr (mkWorld m c)
  = Some (data_offset_z m off, mkWorld m c).
Proof. intros. unfold header.TCP.DataOffset. run_prim. reflexivity. Qed.

Lemma TCP_Payload_run :
  (13 <= len)%nat -> (data_offset_at m off <= len)%nat ->
  header.TCP.Payload hdr (mkWorld m c)
  = Some (mkSlice (off + data_offset_at m off) (len - data_offset_at m off)
            (cap - data_offset_at m off), mkWorld m c).
Proof.
  intros. unfold header.TCP.Payload.
  rewrite (bind_run _ _ _ _ _ (TCP_DataOffset_run ltac:(lia))).
  fold (data_offset_at m off). run_prim. reflexivity.
Qed.

Lemma TCP_SetChecksum_run (v : Z) :
  (18 <= len)%nat ->
  header.TCP.SetChecksum hdr v (mkWorld m c)
  = Some (tt, mkWorld (store (off + 16) (be16 v) m) c).
Proof. intros. unfold header.TCP.SetChecksum. run_prim. reflexivity. Qed.

Lemma TCP_CalculateChecksum_run (p : Z) :
  (13 <= len)%nat -> (data_offset_at m off <= cap)%nat ->
  header.TCP.CalculateChecksum hdr p (mkWorld m c)
  = Some (checksum.Checksum (sub m off (data_offset_at m off)) p,
          mkWorld m c).
Proof.
  intros. unfold header.TCP.CalculateChecksum.
  rewrite (bind_run _ _ _ _ _ (TCP_DataOffset_run ltac:(lia))).
  fold (data_offset_at m off). run_prim. reflexivity.
Qed.
End OnSegment.
End Accessors.

(** ** Running [Write] *)

Lemma bind_assoc {A B C} (c : Go.M A) (k : A -> Go.M B) (k' : B -> Go.M C)
    (w : Go.world) :
  Go.bind (Go.bind c k) k' w = Go.bind c (fun x => Go.bind (k x) k') w.
Proof. unfold Go.bind. destruct (c w) as [[a w']|]; reflexivity. Qed.

Lemma load_run (s : Go.slice) (m : list byte) (c : channel.Endpoint) :
  Go.load s (Go.mkWorld m c)
  = Some (sub m (Go.s_off s) (Go.s_len s), Go.mkWorld m c).
Proof. reflexivity. Qed.

Lemma InjectInbound_run (proto : Z) (m : list byte) (c : channel.Endpoint) :
  Go.InjectInbound proto (Go.mkSlice 0 (length m) (length m)) (Go.mkWorld m c)
  = Some (tt, Go.mkWorld m (channel.InjectInbound c proto m)).
Proof.
  unfold Go.InjectInbound. cbn [Go.s_len Go.s_off Go.mem Go.chan skipn].
  rewrite firstn_all. reflexivity.
Qed.

(** One statement: run the computation at the head of the bind chain with
    the lemma [L], reassociating the chain until the head is that
    computation; [side] closes the lemma's hypotheses. *)
Ltac step_with L side :=
  first [ erewrite bind_run by (apply L; side)
        | rewrite bind_assoc; step_with L side ];
  cbv beta.

Ltac step L := step_with L ltac:(lia).

Lemma udp_tail_run (m : list byte) (c : channel.Endpoint)
    (off len cap : nat) (ps : Z) :
  (8 <= len)%nat -> (len <= cap)%nat ->
  (pl <- header.UDP.Payload (Go.mkSlice off len cap) ;;
   data <- Go.load pl ;;
   header.UDP.SetChecksum (Go.mkSlice off len cap) 0 ;;;
   c0 <- header.UDP.CalculateChecksum (Go.mkSlice off len cap)
           (checksum.Checksum data ps) ;;
   header.UDP.SetChecksum (Go.mkSlice off len cap) (not16 c0))
    (Go.mkWorld m c)
  = Some (tt, Go.mkWorld (fix_udp off len ps m) c).
Proof.
  intros H1 H2.
  step UDP_Payload_run. step load_run. cbn [Go.s_off Go.s_len].
  step UDP_SetChecksum_run. step UDP_CalculateChecksum_run.
  rewrite UDP_SetChecksum_run by lia. reflexivity.
Qed.

Lemma tcp_tail_run (m : list byte) (c : channel.Endpoint)
    (off len cap : nat) (ps : Z) :
  (18 <= len)%nat -> (len <= cap)%nat ->
  (data_offset_at m off <= len)%nat ->
  (off + 18 <= length m)%nat ->
  (pl <- header.TCP.Payload (Go.mkSlice off len cap) ;;
   data <- Go.load pl ;;
   header.TCP.SetChecksum (Go.mkSlice off len cap) 0 ;;;
   c0 <- header.TCP.CalculateChecksum (Go.mkSlice off len cap)
           (checksum.Checksum data ps) ;;
   header.TCP.SetChecksum (Go.mkSlice off len cap) (not16 c0))
    (Go.mkWorld m c)
  = Some (tt, Go.mkWorld (fix_tcp off len ps m) c).
Proof.
  intros H1 H2 H3 H4.
  assert (E : data_offset_at (store (off + 16) (be16 0) m) off
              = data_offset_at m off).
  { unfold data_offset_at, data_offset_z, byte_at.
    rewrite nth_store_other by (rewrite ?length_be16; lia). reflexivity. }
  step TCP_Payload_run. step load_run. cbn [Go.s_off Go.s_len].
  step TCP_SetChecksum_run.
  step_with TCP_CalculateChecksum_run ltac:(rewrite ?E; lia).
  rewrite TCP_SetChecksum_run by lia. reflexivity.
Qed.

Lemma copy_of_run (b : list byte) (w : Go.world) :
  Go.copy_of b w
  = Some (Go.mkSlice 0 (length b) (length b), Go.mkWorld b (Go.chan w)).
Proof. reflexivity. Qed.

Lemma InjectInbound_run_n (proto : Z) (n : nat) (m : list byte)
    (c : channel.Endpoint) :
  n = length m ->
  Go.InjectInbound proto (Go.mkSlice 0 n n) (Go.mkWorld m c)
  = Some (tt, Go.mkWorld m (channel.InjectInbound c proto m)).
Proof. intros ->. apply InjectInbound_run. Qed.

(** What the repair of the IPv4 header checksum leaves alone. *)
Section FixHeader.
Variable b : list byte.
Hypothesis Hlen : (12 <= length b)%nat.

Lemma fix4_length : length (fix_ipv4_header b) = length b.
Proof.
  unfold fix_ipv4_header. cbv zeta.
  solve_len.
Qed.

Lemma fix4_nth (i : nat) :
  (i < 10 \/ 12 <= i)%nat -> nth i (fix_ipv4_header b) x00 = nth i b x00.
Proof.
  intros Hi. unfold fix_ipv4_header. cbv zeta.
  rewrite !nth_store_other by solve_len. reflexivity.
Qed.

Lemma fix4_byte_at (i : nat) :
  (i < 10 \/ 12 <= i)%nat -> byte_at (fix_ipv4_header b) i = byte_at b i.
Proof. intros Hi. unfold byte_at. rewrite fix4_nth by lia. reflexivity. Qed.

Lemma fix4_word_at (i : nat) :
  (i + 1 < 10 \/ 12 <= i)%nat -> word_at (fix_ipv4_header b) i = word_at b i.
Proof. intros Hi. unfold word_at. rewrite !fix4_nth by lia. reflexivity. Qed.

Lemma fix4_ihl_z : ihl_z (fix_ipv4_header b) = ihl_z b.
Proof. unfold ihl_z. rewrite fix4_byte_at by lia. reflexivity. Qed.

Lemma fix4_ihl : ihl (fix_ipv4_header b) = ihl b.
Proof. unfold ihl. rewrite fix4_ihl_z. reflexivity. Qed.

Lemma fix4_payload_len4_z :
  payload_len4_z (fix_ipv4_header b) = payload_len4_z b.
Proof.
  unfold payload_len4_z. rewrite fix4_ihl_z, fix4_word_at by lia. reflexivity.
Qed.

Lemma fix4_payload_len4 : payload_len4 (fix_ipv4_header b) = payload_len4 b.
Proof. unfold payload_len4. rewrite fix4_payload_len4_z. reflexivity. Qed.

Lemma fix4_sub (off len : nat) :
  (12 <= off)%nat -> (off + len <= length b)%nat ->
  sub (fix_ipv4_header b) off len = sub b off len.
Proof.
  intros Ho Hl. unfold fix_ipv4_header. cbv zeta.
  rewrite !sub_store_outside by solve_len. reflexivity.
Qed.

Lemma fix4_version :
  header.IPVersion (fix_ipv4_header b) = header.IPVersion b.
Proof.
  pose proof (fix4_nth 0 ltac:(lia)) as E.
  pose proof fix4_length as L.
  destruct (fix_ipv4_header b) as [|x l], b as [|y l'];
    simpl in *; try lia.
  rewrite E. reflexivity.
Qed.
End FixHeader.

Lemma ihl_store_zero (b : list byte) :
  (12 <= length b)%nat -> ihl (store 10 (be16 0) b) = ihl b.
Proof.
  intros H. unfold ihl, ihl_z, byte_at.
  rewrite nth_store_other by (rewrite ?length_be16; lia). reflexivity.
Qed.

Lemma fix_udp_length (off len : nat) (ps : Z) (m : list byte) :
  (off + 8 <= length m)%nat -> length (fix_udp off len ps m) = length m.
Proof. intros H. unfold fix_udp. cbv zeta. solve_len. Qed.

Lemma fix_tcp_length (off len : nat) (ps : Z) (m : list byte) :
  (off + 18 <= length m)%nat -> length (fix_tcp off len ps m) = length m.
Proof. intros H. unfold fix_tcp. cbv zeta. solve_len. Qed.

Lemma wellformed_ip4 (b : list byte) :
  header.IPVersion b = 4 -> wellformed_ip b = true ->
  (20 <= ihl b /\ ihl b <= Z.to_nat (word_at b 2)
   /\ Z.to_nat (word_at b 2) <= length b)%nat.
Proof.
  unfold wellformed_ip. intros -> H.
  change (4 =? 4) with true in H. cbv iota in H.
  apply andb_prop in H as [H H3]. apply andb_prop in H as [H1 H2].
  apply Nat.leb_le in H1, H2, H3. lia.
Qed.

Lemma wellformed_ip6 (b : list byte) :
  header.IPVersion b = 6 -> wellformed_ip b = true ->
  (40 + payload_len6 b <= length b)%nat.
Proof.
  unfold wellformed_ip. intros -> H.
  change (6 =? 4) with false in H. change (6 =? 6) with true in H.
  cbv iota in H. apply Nat.leb_le in H. exact H.
Qed.

Lemma payload_len4_eq (b : list byte) :
  (ihl b <= Z.to_nat (word_at b 2))%nat ->
  payload_len4 b = (Z.to_nat (word_at b 2) - ihl b)%nat.
Proof.
  intros H. unfold payload_len4, payload_len4_z, ihl in *.
  pose proof (word16_range (nth 2 b x00) (nth (2 + 1) b x00)) as R.
  fold (word_at b 2) in R.
  assert (0 <= ihl_z b) by (unfold ihl_z, u8; apply Z.mod_pos_bound; lia).
  unfold u16. rewrite Z.mod_small; lia.
Qed.

Lemma fix_udp_nth (off len : nat) (ps : Z) (m : list byte) (i : nat) :
  (off + 8 <= length m)%nat -> (i < off + 6 \/ off + 8 <= i)%nat ->
  nth i (fix_udp off len ps m) x00 = nth i m x00.
Proof.
  intros H Hi. unfold fix_udp. cbv zeta.
  rewrite !nth_store_other by solve_len. reflexivity.
Qed.

Lemma fix_tcp_nth (off len : nat) (ps : Z) (m : list byte) (i : nat) :
  (off + 18 <= length m)%nat -> (i < off + 16 \/ off + 18 <= i)%nat ->
  nth i (fix_tcp off len ps m) x00 = nth i m x00.
Proof.
  intros H Hi. unfold fix_tcp. cbv zeta.
  rewrite !nth_store_other by solve_len. reflexivity.
Qed.

(** Entering [Write]: the copy of the input and the test of its version. *)
Ltac enter_Write :=
  unfold Windows.Write;
  rewrite (bind_run _ _ _ _ _ (copy_of_run _ _));
  rewrite (bind_run _ _ _ _ _ (load_run _ _ _));
  cbn [Go.s_off Go.s_len]; rewrite sub_all; cbv zeta.

(** The start of the IPv4 branch: header checksum and protocol. *)
Ltac ipv4_start b :=
  step IPv4_SetChecksum_run;
  step_with IPv4_CalculateChecksum_run
    ltac:(rewrite ?ihl_store_zero by lia; lia);
  step IPv4_SetChecksum_run;
  change (store 10 _ (store 10 (be16 0) b)) with (fix_ipv4_header b);
  step IPv4_TransportProtocol_run;
  rewrite (fix4_byte_at b) by lia.

Ltac fix4_facts :=
  rewrite ?fix4_length, ?fix4_ihl, ?fix4_payload_len4 by lia.

(** The ways through [Write] for a packet it can take apart. *)
Section WriteRuns.
Variables (b : list byte) (w : Go.world).

Lemma Write_run_other :
  header.IPVersion b <> 4 -> header.IPVersion b <> 6 ->
  Windows.Write b w
  = Some ((Z.of_nat (length b), None), Go.mkWorld b (Go.chan w)).
Proof.
  intros H4 H6. enter_Write.
  unfold header.IPv4Version, header.IPv6Version.
  destruct (Z.eqb_spec (header.IPVersion b) 4); [contradiction|].
  destruct (Z.eqb_spec (header.IPVersion b) 6); [contradiction|].
  reflexivity.
Qed.

Section V4.
Hypothesis V : header.IPVersion b = 4.
Hypothesis I : wellformed_ip b = true.

Lemma Write_run_udp4 :
  byte_at b 9 = 17 -> (8 <= payload_len4 b)%nat ->
  Windows.Write b w
  = Some ((Z.of_nat (length b), None),
          Go.mkWorld (repaired b)
            (channel.InjectInbound (Go.chan w) header.IPv4ProtocolNumber
               (repaired b))).
Proof.
  intros P F.
  destruct (wellformed_ip4 b V I) as (I1 & I2 & I3).
  pose proof (payload_len4_eq b I2) as EP.
  enter_Write. rewrite V.
  change (4 =? header.IPv4Version) with true. cbv iota.
  ipv4_start b. rewrite P.
  change (17 =? header.UDPProtocolNumber) with true. cbv iota.
  step_with IPv4_Payload_run ltac:(fix4_facts; lia). fix4_facts.
  step IPv4_DestinationAddress_run. step IPv4_SourceAddress_run.
  step UDP_Length_run. step udp_tail_run.
  step_with InjectInbound_run_n
    ltac:(rewrite fix_udp_length; fix4_facts; lia).
  unfold repaired. rewrite V.
  change (4 =? 4) with true. cbv iota zeta.
  rewrite (fix4_byte_at b) by lia. rewrite P.
  change (17 =? header.UDPProtocolNumber) with true. cbv iota.
  fix4_facts. reflexivity.
Qed.

Lemma fix4_data_offset_at (off : nat) :
  data_offset_at (fix_ipv4_header b) off = data_offset_at b off.
Proof.
  destruct (wellformed_ip4 b V I) as (I1 & I2 & I3).
  unfold data_offset_at, data_offset_z.
  rewrite fix4_byte_at by lia. reflexivity.
Qed.

Lemma Write_run_tcp4 :
  byte_at b 9 = 6 ->
  (18 <= payload_len4 b)%nat ->
  (data_offset_at b (ihl b) <= payload_len4 b)%nat ->
  Windows.Write b w
  = Some ((Z.of_nat (length b), None),
          Go.mkWorld (repaired b)
            (channel.InjectInbound (Go.chan w) header.IPv4ProtocolNumber
               (repaired b))).
Proof.
  intros P F1 F2.
  destruct (wellformed_ip4 b V I) as (I1 & I2 & I3).
  pose proof (payload_len4_eq b I2) as EP.
  enter_Write. rewrite V.
  change (4 =? header.IPv4Version) with true. cbv iota.
  ipv4_start b. rewrite P.
  change (6 =? header.UDPProtocolNumber) with false.
  change (6 =? header.TCPProtocolNumber) with true. cbv iota.
  step_with IPv4_Payload_run ltac:(fix4_facts; lia). fix4_facts.
  step IPv4_DestinationAddress_run. step IPv4_SourceAddress_run.
  step IPv4_PayloadLength_run.
  step_with tcp_tail_run
    ltac:(rewrite ?fix4_data_offset_at; fix4_facts; lia).
  step_with InjectInbound_run_n
    ltac:(rewrite fix_tcp_length; fix4_facts; lia).
  unfold repaired. rewrite V.
  change (4 =? 4) with true. cbv iota zeta.
  rewrite (fix4_byte_at b) by lia. rewrite P.
  change (6 =? header.UDPProtocolNumber) with false.
  change (6 =? header.TCPProtocolNumber) with true. cbv iota.
  fix4_facts. reflexivity.
Qed.

Lemma Write_run_plain4 :
  byte_at b 9 <> 17 -> byte_at b 9 <> 6 ->
  Windows.Write b w
  = Some ((Z.of_nat (length b), None),
          Go.mkWorld (repaired b)
            (channel.InjectInbound (Go.chan w) header.IPv4ProtocolNumber
               (repaired b))).
Proof.
  intros P1 P2.
  destruct (wellformed_ip4 b V I) as (I1 & I2 & I3).
  enter_Write. rewrite V.
  change (4 =? header.IPv4Version) with true. cbv iota.
  ipv4_start b.
  unfold repaired. rewrite V.
  change (4 =? 4) with true. cbv iota zeta.
  rewrite (fix4_byte_at b) by lia.
  unfold header.UDPProtocolNumber, header.TCPProtocolNumber.
  destruct (Z.eqb_spec (byte_at b 9) 17); [contradiction|].
  destruct (Z.eqb_spec (byte_at b 9) 6); [contradiction|].
  step_with InjectInbound_run_n ltac:(fix4_facts; lia).
  reflexivity.
Qed.
End V4.

Section V6.
Hypothesis V : header.IPVersion b = 6.
Hypothesis I : wellformed_ip b = true.

Lemma Write_run_udp6 :
  byte_at b 6 = 17 -> (8 <= payload_len6 b)%nat ->
  Windows.Write b w
  = Some ((Z.of_nat (length b), None),
          Go.mkWorld (repaired b)
            (channel.InjectInbound (Go.chan w) header.IPv6ProtocolNumber
               (repaired b))).
Proof.
  intros P F.
  pose proof (wellformed_ip6 b V I) as I1.
  enter_Write. rewrite V.
  change (6 =? header.IPv4Version) with false.
  change (6 =? header.IPv6Version) with true. cbv iota.
  step IPv6_TransportProtocol_run. rewrite P.
  change (17 =? header.UDPProtocolNumber) with true. cbv iota.
  step IPv6_Payload_run.
  step IPv6_DestinationAddress_run. step IPv6_SourceAddress_run.
  step UDP_Length_run. step udp_tail_run.
  step_with InjectInbound_run_n ltac:(rewrite fix_udp_length; lia).
  unfold repaired. rewrite V.
  change (6 =? 4) with false. change (6 =? 6) with true. cbv iota.
  rewrite P.
  change (17 =? header.UDPProtocolNumber) with true. cbv iota.
  reflexivity.
Qed.

Lemma Write_run_tcp6 :
  byte_at b 6 = 6 ->
  (18 <= payload_len6 b)%nat ->
  (data_offset_at b 40 <= payload_len6 b)%nat ->
  Windows.Write b w
  = Some ((Z.of_nat (length b), None),
          Go.mkWorld (repaired b)
            (channel.InjectInbound (Go.chan w) header.IPv6ProtocolNumber
               (repaired b))).
Proof.
  intros P F1 F2.
  pose proof (wellformed_ip6 b V I) as I1.
  enter_Write. rewrite V.
  change (6 =? header.IPv4Version) with false.
  change (6 =? header.IPv6Version) with true. cbv iota.
  step IPv6_TransportProtocol_run. rewrite P.
  change (6 =? header.UDPProtocolNumber) with false.
  change (6 =? header.TCPProtocolNumber) with true. cbv iota.
  step IPv6_Payload_run.
  step IPv6_DestinationAddress_run. step IPv6_SourceAddress_run.
  step IPv6_PayloadLength_run.
  step tcp_tail_run.
  step_with InjectInbound_run_n ltac:(rewrite fix_tcp_length; lia).
  unfold repaired. rewrite V.
  change (6 =? 4) with false. change (6 =? 6) with true. cbv iota.
  rewrite P.
  change (6 =? header.UDPProtocolNumber) with false.
  change (6 =? header.TCPProtocolNumber) with true. cbv iota.
  reflexivity.
Qed.

Lemma Write_run_plain6 :
  byte_at b 6 <> 17 -> byte_at b 6 <> 6 ->
  Windows.Write b w
  = Some ((Z.of_nat (length b), None),
          Go.mkWorld (repaired b)
            (channel.InjectInbound (Go.chan w) header.IPv6ProtocolNumber
               (repaired b))).
Proof.
  intros P1 P2.
  pose proof (wellformed_ip6 b V I) as I1.
  enter_Write. rewrite V.
  change (6 =? header.IPv4Version) with false.
  change (6 =? header.IPv6Version) with true. cbv iota.
  step IPv6_TransportProtocol_run.
  unfold repaired. rewrite V.
  change (6 =? 4) with false. change (6 =? 6) with true. cbv iota.
  unfold header.UDPProtocolNumber, header.TCPProtocolNumber.
  destruct (Z.eqb_spec (byte_at b 6) 17); [contradiction|].
  destruct (Z.eqb_spec (byte_at b 6) 6); [contradiction|].
  step InjectInbound_run_n.
  reflexivity.
Qed.
End V6.
End WriteRuns.

Lemma data_offset_sub (b : list byte) (off len : nat) :
  (13 <= len)%nat -> data_offset (sub b off len) = data_offset_at b off.
Proof.
  intros H. unfold data_offset, data_offset_at, data_offset_z, byte_at.
  rewrite nth_sub by lia. reflexivity.
Qed.

Lemma wellformed_version (b : list byte) :
  wellformed_ip b = true ->
  header.IPVersion b = 4 \/ header.IPVersion b = 6.
Proof.
  unfold wellformed_ip. intros H.
  destruct (Z.eqb_spec (header.IPVersion b) 4); [left; assumption|].
  destruct (Z.eqb_spec (header.IPVersion b) 6); [right; assumption|].
  discriminate.
Qed.

Lemma segment_length (b : list byte) :
  wellformed_ip b = true -> length (segment b) = segment_len b.
Proof.
  intros I. unfold segment, segment_off, segment_len.
  destruct (wellformed_version b I) as [V|V]; rewrite V.
  - change (4 =? 4) with true. cbv iota.
    destruct (wellformed_ip4 b V I) as (I1 & I2 & I3).
    pose proof (payload_len4_eq b I2). apply sub_length. lia.
  - change (6 =? 4) with false. cbv iota.
    pose proof (wellformed_ip6 b V I). apply sub_length. lia.
Qed.

(** What [fits] says about a TCP segment, at the place of the segment in
    the packet. *)
Lemma fits_tcp (b : list byte) (off len : nat) :
  (off + len <= length b)%nat ->
  fits 6 (sub b off len) = true ->
  (20 <= data_offset_at b off /\ data_offset_at b off <= len)%nat.
Proof.
  intros H F. unfold fits in F.
  change (6 =? header.UDPProtocolNumber) with false in F.
  change (6 =? header.TCPProtocolNumber) with true in F. cbv iota in F.
  apply andb_prop in F as [F1 F2]. apply Nat.leb_le in F1, F2.
  rewrite sub_length in F2 by lia.
  assert (L : (13 <= len)%nat) by lia.
  rewrite (data_offset_sub b off len L) in F1, F2. lia.
Qed.

Lemma fits_udp (b : list byte) (off len : nat) :
  (off + len <= length b)%nat ->
  fits 17 (sub b off len) = true -> (8 <= len)%nat.
Proof.
  intros H F. unfold fits in F.
  change (17 =? header.UDPProtocolNumber) with true in F. cbv iota in F.
  apply Nat.leb_le in F. rewrite sub_length in F by lia. exact F.
Qed.

(** [Write] on a well-formed packet: it returns, and has injected the
    repaired bytes. *)
Lemma Write_run (b : list byte) (w : Go.world) :
  wellformed b = true ->
  Windows.Write b w
  = Some ((Z.of_nat (length b), None),
          Go.mkWorld (repaired b)
            (channel.InjectInbound (Go.chan w) (fst (tagged b)) (repaired b))).
Proof.
  intros W. unfold wellformed in W. apply andb_prop in W as [I F].
  unfold tagged, fst, header.IPv4Version.
  unfold transport, segment, segment_off, segment_len in F.
  destruct (wellformed_version b I) as [V|V]; rewrite V in *.
  - change (4 =? 4) with true in *. cbv iota in *.
    destruct (wellformed_ip4 b V I) as (I1 & I2 & I3).
    pose proof (payload_len4_eq b I2) as EP.
    destruct (Z.eq_dec (byte_at b 9) 17) as [P|P1].
    + rewrite P in F. apply fits_udp in F; [|lia].
      apply Write_run_udp4; assumption.
    + destruct (Z.eq_dec (byte_at b 9) 6) as [P|P2].
      * rewrite P in F. apply fits_tcp in F; [|lia].
        apply Write_run_tcp4; try assumption; lia.
      * apply Write_run_plain4; assumption.
  - change (6 =? 4) with false in *. cbv iota in *.
    pose proof (wellformed_ip6 b V I) as I1.
    destruct (Z.eq_dec (byte_at b 6) 17) as [P|P1].
    + rewrite P in F. apply fits_udp in F; [|lia].
      apply Write_run_udp6; assumption.
    + destruct (Z.eq_dec (byte_at b 6) 6) as [P|P2].
      * rewrite P in F. apply fits_tcp in F; [|lia].
        apply Write_run_tcp6; try assumption; lia.
      * apply Write_run_plain6; assumption.
Qed.

Lemma call_Write_run (e : channel.Endpoint) (b : list byte) :
  wellformed b = true ->
  Windows.call_Write e b
  = Some ((Z.of_nat (length b), None),
          channel.InjectInbound e (fst (tagged b)) (repaired b)).
Proof.
  intros W. unfold Windows.call_Write. rewrite Write_run by exact W.
  reflexivity.
Qed.

(** ** The round-trip law of the Internet checksum *)

Lemma even_mul4 (x : Z) : Nat.even (Z.to_nat (u8 (x * 4))) = true.
Proof.
  unfold u8. change (2 ^ 8) with (64 * 4).
  rewrite Z.mul_mod_distr_r by lia.
  pose proof (Z.mod_pos_bound x 64 ltac:(lia)) as H.
  replace (Z.to_nat (x mod 64 * 4)) with (2 * (2 * Z.to_nat (x mod 64)))%nat
    by lia.
  rewrite Nat.even_mul. reflexivity.
Qed.

Lemma ihl_even (b : list byte) : Nat.even (ihl b) = true.
Proof. apply even_mul4. Qed.

Lemma data_offset_even (m : list byte) (off : nat) :
  Nat.even (data_offset_at m off) = true.
Proof. apply even_mul4. Qed.

Lemma store_app_r (p s bs : list byte) (k : nat) :
  (k + length bs <= length s)%nat ->
  store (length p + k) bs (p ++ s) = p ++ store k bs s.
Proof.
  intros H. unfold store.
  rewrite firstn_app, firstn_all2 by lia.
  rewrite skipn_app, skipn_all2 by lia.
  replace (length p + k - length p)%nat with k by lia.
  replace (length p + k + length bs - length p)%nat
    with (k + length bs)%nat by lia.
  rewrite <- app_assoc. reflexivity.
Qed.

(** The law itself: when the field at the even offset [k] of [x] holds the
    complement of the folded sum of [ph] and of [x] with the field zeroed,
    the sum of [ph] and [x] folds to all ones. *)
Lemma complement_law (ph x : list byte) (k : nat) (c : Z) :
  Nat.even (length ph) = true -> Nat.even k = true ->
  (k + 2 <= length x)%nat ->
  Z.of_nat (length ph + length x) <= 100000 ->
  c = fold16 (wsum ph + wsum (store k (be16 0) x)) ->
  0 < wsum ph + wsum (store k (be16 0) x) ->
  checksum.Checksum (ph ++ store k (be16 (not16 c)) (store k (be16 0) x)) 0
  = 0xffff.
Proof.
  intros Ep Ek Hk Hl Hc Hpos.
  pose proof (wsum_nonneg ph). pose proof (wsum_nonneg (store k (be16 0) x)).
  assert (Rc : 0 <= c <= 65535) by (subst c; apply fold16_range; lia).
  rewrite Checksum_eq.
  - rewrite wsum_app by exact Ep.
    rewrite store_store by solve_len.
    rewrite wsum_store16 by (rewrite ?not16_eq; solve [assumption | lia]).
    rewrite not16_eq by exact Rc. subst c.
    rewrite Z.add_0_l, Z.add_assoc. apply fold16_complement. exact Hpos.
  - lia.
  - rewrite length_app. rewrite !store_length by solve_len. lia.
Qed.

Lemma wsum_head (x : byte) (l : list byte) : b2z x * 256 <= wsum (x :: l).
Proof.
  destruct l as [|y l].
  - simpl. lia.
  - change (wsum (x :: y :: l)) with (b2z x * 256 + b2z y + wsum l).
    pose proof (b2z_range y). pose proof (wsum_nonneg l). lia.
Qed.

(** The sum gvisor computes for the pseudo-header. *)
Lemma PseudoHeaderChecksum_eq (proto : Z) (src dst : list byte) (len : Z) :
  0 <= proto < 256 -> 0 <= len < 65536 ->
  (length src <= 16)%nat -> (length dst <= 16)%nat ->
  header.PseudoHeaderChecksum proto src dst len
  = fold16 (wsum src + wsum dst + len + proto).
Proof.
  intros Hp Hl Hs Hd. unfold header.PseudoHeaderChecksum. cbv zeta.
  pose proof (wsum_nonneg src). pose proof (wsum_nonneg dst).
  assert (E : wsum [x00; z2b (u8 proto)] = proto).
  { change (wsum [x00; z2b (u8 proto)])
      with (b2z x00 * 256 + b2z (z2b (u8 proto)) + 0).
    rewrite b2z_z2b. unfold u8. change (2 ^ 8) with 256.
    rewrite Z.mod_mod by lia. rewrite Z.mod_small by lia.
    change (b2z x00) with 0. lia. }
  rewrite (Checksum_eq src 0) by lia. rewrite Z.add_0_l.
  rewrite (Checksum_eq dst) by (try apply fold16_range; lia).
  rewrite fold16_fold16 by lia.
  rewrite (Checksum_eq (be16 len))
    by (try apply fold16_range; rewrite ?length_be16; lia).
  rewrite wsum_be16 by lia. rewrite fold16_fold16 by lia.
  rewrite Checksum_eq by (try apply fold16_range; simpl; lia).
  rewrite E. rewrite fold16_fold16 by lia. reflexivity.
Qed.

(** Summing the data first and the header on top of it is summing the
    segment. *)
Lemma split_checksum (seg : list byte) (d : nat) (ps P : Z) :
  Nat.even d = true -> (d <= length seg)%nat ->
  Z.of_nat (length seg) <= 65535 -> 0 <= P -> ps = fold16 P ->
  checksum.Checksum (sub seg 0 d)
    (checksum.Checksum (sub seg d (length seg - d)) ps)
  = fold16 (P + wsum seg).
Proof.
  intros Ed Hd Hl HP ->.
  assert (Es : seg = sub seg 0 d ++ sub seg d (length seg - d)).
  { rewrite <- (sub_all seg) at 1. apply (sub_split seg 0 d (length seg)). lia. }
  assert (L1 : length (sub seg 0 d) = d) by (apply sub_length; lia).
  assert (L2 : length (sub seg d (length seg - d)) = (length seg - d)%nat)
    by (apply sub_length; lia).
  pose proof (wsum_nonneg (sub seg 0 d)).
  pose proof (wsum_nonneg (sub seg d (length seg - d))).
  rewrite (Checksum_eq (sub seg d (length seg - d)))
    by (try apply fold16_range; lia).
  rewrite fold16_fold16 by lia.
  rewrite Checksum_eq by (try apply fold16_range; lia).
  rewrite fold16_fold16 by lia.
  assert (Ew : wsum seg = wsum (sub seg 0 d) + wsum (sub seg d (length seg - d))).
  { rewrite Es at 1. apply wsum_app. rewrite L1. exact Ed. }
  rewrite Ew. f_equal. lia.
Qed.

(** The repair of a transport checksum: the field at [k] of the segment at
    [off], whose header is [d] bytes long. *)
Lemma transport_law (m ph : list byte) (off len k d : nat) (ps : Z) :
  (off + len <= length m)%nat -> (k + 2 <= d)%nat -> (d <= len)%nat ->
  Nat.even d = true -> Nat.even k = true -> Z.of_nat len <= 65535 ->
  Nat.even (length ph) = true -> (length ph <= 40)%nat ->
  ps = fold16 (wsum ph) -> 0 < wsum ph ->
  checksum.Checksum
    (ph ++ sub (store (off + k)
                 (be16 (not16
                    (checksum.Checksum
                       (sub (store (off + k) (be16 0) m) off d)
                       (checksum.Checksum (sub m (off + d) (len - d)) ps))))
                 (store (off + k) (be16 0) m)) off len) 0
  = 0xffff.
Proof.
  intros Hm Hk Hd Ed Ek Hl Ep Lp Hps Hpos.
  set (m0 := store (off + k) (be16 0) m).
  assert (Lm0 : length m0 = length m) by (unfold m0; solve_len).
  set (seg0 := sub m0 off len).
  assert (Ls : length seg0 = len) by (apply sub_length; lia).
  assert (E0 : seg0 = store k (be16 0) (sub m off len)).
  { unfold seg0, m0. apply sub_store_inside; rewrite ?length_be16; lia. }
  assert (Eh : sub m0 off d = sub seg0 0 d).
  { unfold seg0. rewrite sub_sub by lia. f_equal. lia. }
  assert (Ed' : sub m (off + d) (len - d) = sub seg0 d (length seg0 - d)).
  { rewrite Ls. unfold seg0. rewrite sub_sub by lia. unfold m0.
    symmetry. apply sub_store_outside; rewrite ?length_be16; lia. }
  rewrite Eh, Ed'.
  rewrite (split_checksum seg0 d ps (wsum ph))
    by (try assumption; try lia; apply wsum_nonneg).
  rewrite sub_store_inside by (rewrite ?length_be16; lia).
  fold seg0. rewrite E0.
  pose proof (wsum_nonneg (store k (be16 0) (sub m off len))).
  assert (Lsub : length (sub m off len) = len) by (apply sub_length; lia).
  apply complement_law; try assumption; try lia.
Qed.

(** ** What [Write] changes, and what it leaves alone *)

Lemma IPVersion_ext (d b : list byte) :
  length d = length b -> nth 0 d x00 = nth 0 b x00 ->
  header.IPVersion d = header.IPVersion b.
Proof.
  intros L E. destruct d as [|x d], b as [|y b]; simpl in *; try lia.
  rewrite E. reflexivity.
Qed.

Lemma sub_ext (d b : list byte) (off len : nat) :
  length d = length b -> (off + len <= length b)%nat ->
  (forall i, (off <= i < off + len)%nat -> nth i d x00 = nth i b x00) ->
  sub d off len = sub b off len.
Proof.
  intros L H E. apply nth_ext with (d := x00) (d' := x00).
  - rewrite !sub_length; lia.
  - intros i Hi. rewrite sub_length in Hi by lia.
    rewrite !nth_sub by lia. apply E. lia.
Qed.

Section Repaired.
Variable b : list byte.
Hypothesis I : wellformed_ip b = true.

Section R4.
Hypothesis V : header.IPVersion b = 4.

Lemma repaired_udp4 :
  byte_at b 9 = 17 ->
  repaired b
  = fix_udp (ihl b) (payload_len4 b)
      (header.PseudoHeaderChecksum 17 (sub b 16 4) (sub b 12 4)
         (word_at b (ihl b + 4))) (fix_ipv4_header b).
Proof.
  intros P. destruct (wellformed_ip4 b V I) as (I1 & I2 & I3).
  unfold repaired. rewrite V. change (4 =? 4) with true. cbv iota zeta.
  rewrite (fix4_byte_at b) by lia. rewrite P.
  change (17 =? header.UDPProtocolNumber) with true. cbv iota.
  rewrite !fix4_sub, fix4_ihl, fix4_payload_len4, fix4_word_at by lia.
  reflexivity.
Qed.

Lemma repaired_tcp4 :
  byte_at b 9 = 6 ->
  repaired b
  = fix_tcp (ihl b) (payload_len4 b)
      (header.PseudoHeaderChecksum 6 (sub b 16 4) (sub b 12 4)
         (payload_len4_z b)) (fix_ipv4_header b).
Proof.
  intros P. destruct (wellformed_ip4 b V I) as (I1 & I2 & I3).
  unfold repaired. rewrite V. change (4 =? 4) with true. cbv iota zeta.
  rewrite (fix4_byte_at b) by lia. rewrite P.
  change (6 =? header.UDPProtocolNumber) with false.
  change (6 =? header.TCPProtocolNumber) with true. cbv iota.
  rewrite !fix4_sub, fix4_ihl, fix4_payload_len4, fix4_payload_len4_z by lia.
  reflexivity.
Qed.

Lemma repaired_plain4 :
  byte_at b 9 <> 17 -> byte_at b 9 <> 6 ->
  repaired b = fix_ipv4_header b.
Proof.
  intros P1 P2. destruct (wellformed_ip4 b V I) as (I1 & I2 & I3).
  unfold repaired. rewrite V. change (4 =? 4) with true. cbv iota zeta.
  rewrite (fix4_byte_at b) by lia.
  unfold header.UDPProtocolNumber, header.TCPProtocolNumber.
  destruct (Z.eqb_spec (byte_at b 9) 17); [contradiction|].
  destruct (Z.eqb_spec (byte_at b 9) 6); [contradiction|].
  reflexivity.
Qed.
End R4.

Section R6.
Hypothesis V : header.IPVersion b = 6.

Lemma repaired_udp6 :
  byte_at b 6 = 17 ->
  repaired b
  = fix_udp 40 (payload_len6 b)
      (header.PseudoHeaderChecksum 17 (sub b 24 16) (sub b 8 16)
         (word_at b (40 + 4))) b.
Proof.
  intros P. unfold repaired. rewrite V.
  change (6 =? 4) with false. change (6 =? 6) with true. cbv iota.
  rewrite P. reflexivity.
Qed.

Lemma repaired_tcp6 :
  byte_at b 6 = 6 ->
  repaired b
  = fix_tcp 40 (payload_len6 b)
      (header.PseudoHeaderChecksum 6 (sub b 24 16) (sub b 8 16)
         (word_at b 4)) b.
Proof.
  intros P. unfold repaired. rewrite V.
  change (6 =? 4) with false. change (6 =? 6) with true. cbv iota.
  rewrite P. reflexivity.
Qed.

Lemma repaired_plain6 :
  byte_at b 6 <> 17 -> byte_at b 6 <> 6 -> repaired b = b.
Proof.
  intros P1 P2. unfold repaired. rewrite V.
  change (6 =? 4) with false. change (6 =? 6) with true. cbv iota.
  unfold header.UDPProtocolNumber, header.TCPProtocolNumber.
  destruct (Z.eqb_spec (byte_at b 6) 17); [contradiction|].
  destruct (Z.eqb_spec (byte_at b 6) 6); [contradiction|].
  reflexivity.
Qed.
End R6.
End Repaired.

Ltac pick_version V :=
  unfold checksum_fields, transport, segment_off; rewrite V;
  change (4 =? 4) with true; change (6 =? 4) with false;
  cbv iota.

Ltac pick_proto :=
  unfold header.UDPProtocolNumber, header.TCPProtocolNumber;
  repeat match goal with
  | |- context [?x =? ?y] =>
      first [ change (x =? y) with true | change (x =? y) with false
            | destruct (Z.eqb_spec x y); [contradiction|]
            | destruct (Z.eqb_spec x y); [|contradiction] ];
      cbv iota
  end.

(** Outside its checksum fields the packet [Write] injects is the packet
    it was given. *)
Lemma repaired_frame (b : list byte) :
  wellformed b = true ->
  length (repaired b) = length b
  /\ forall i, ~ In i (checksum_fields b) ->
               nth i (repaired b) x00 = nth i b x00.
Proof.
  intros W. unfold wellformed in W. apply andb_prop in W as [I F].
  unfold transport, segment, segment_off, segment_len in F.
  destruct (wellformed_version b I) as [V|V]; rewrite V in F.
  - change (4 =? 4) with true in F. cbv iota in F.
    destruct (wellformed_ip4 b V I) as (I1 & I2 & I3).
    pose proof (payload_len4_eq b I2) as EP.
    destruct (Z.eq_dec (byte_at b 9) 17) as [P|P1];
      [|destruct (Z.eq_dec (byte_at b 9) 6) as [P|P2]].
    + rewrite P in F. apply fits_udp in F; [|lia].
      rewrite (repaired_udp4 b I V P). split.
      * rewrite fix_udp_length; rewrite fix4_length; lia.
      * pick_version V. rewrite P. pick_proto. simpl. intros i Hi.
        rewrite fix_udp_nth by (rewrite ?fix4_length; lia).
        apply fix4_nth; lia.
    + rewrite P in F. apply fits_tcp in F; [|lia].
      rewrite (repaired_tcp4 b I V P). split.
      * rewrite fix_tcp_length; rewrite fix4_length; lia.
      * pick_version V. rewrite P. pick_proto. simpl. intros i Hi.
        rewrite fix_tcp_nth by (rewrite ?fix4_length; lia).
        apply fix4_nth; lia.
    + rewrite (repaired_plain4 b I V P1 P2). split.
      * apply fix4_length. lia.
      * pick_version V. pick_proto. simpl. intros i Hi.
        apply fix4_nth; lia.
  - change (6 =? 4) with false in F. cbv iota in F.
    pose proof (wellformed_ip6 b V I) as I1.
    destruct (Z.eq_dec (byte_at b 6) 17) as [P|P1];
      [|destruct (Z.eq_dec (byte_at b 6) 6) as [P|P2]].
    + rewrite P in F. apply fits_udp in F; [|lia].
      rewrite (repaired_udp6 b V P). split.
      * rewrite fix_udp_length; lia.
      * pick_version V. rewrite P. pick_proto. simpl. intros i Hi. apply fix_udp_nth; lia.
    + rewrite P in F. apply fits_tcp in F; [|lia].
      rewrite (repaired_tcp6 b V P). split.
      * rewrite fix_tcp_length; lia.
      * pick_version V. rewrite P. pick_proto. simpl. intros i Hi. apply fix_tcp_nth; lia.
    + rewrite (repaired_plain6 b V P1 P2). split; reflexivity.
Qed.

Lemma udp_law (m ph src dst : list byte) (off len : nat) (L : Z) :
  (off + len <= length m)%nat -> (8 <= len)%nat -> Z.of_nat len <= 65535 ->
  (length src <= 16)%nat -> (length dst <= 16)%nat ->
  Nat.even (length ph) = true -> (length ph <= 40)%nat ->
  wsum ph = wsum src + wsum dst + Z.of_nat len + 17 ->
  L = Z.of_nat len ->
  checksum.Checksum
    (ph ++ sub (fix_udp off len (header.PseudoHeaderChecksum 17 dst src L) m)
               off len) 0
  = 0xffff.
Proof.
  intros Hm H8 Hl Ls Ld Ep Lp Ew ->.
  pose proof (wsum_nonneg src). pose proof (wsum_nonneg dst).
  unfold fix_udp. cbv zeta.
  apply transport_law; try assumption; try reflexivity; try lia.
  rewrite PseudoHeaderChecksum_eq by lia. f_equal. lia.
Qed.

Lemma tcp_law (m ph src dst : list byte) (off len : nat) (L : Z) :
  (off + len <= length m)%nat ->
  (20 <= data_offset_at m off)%nat -> (data_offset_at m off <= len)%nat ->
  Z.of_nat len <= 65535 ->
  (length src <= 16)%nat -> (length dst <= 16)%nat ->
  Nat.even (length ph) = true -> (length ph <= 40)%nat ->
  wsum ph = wsum src + wsum dst + Z.of_nat len + 6 ->
  L = Z.of_nat len ->
  checksum.Checksum
    (ph ++ sub (fix_tcp off len (header.PseudoHeaderChecksum 6 dst src L) m)
               off len) 0
  = 0xffff.
Proof.
  intros Hm H20 Hd Hl Ls Ld Ep Lp Ew ->.
  pose proof (wsum_nonneg src). pose proof (wsum_nonneg dst).
  unfold fix_tcp. cbv zeta.
  assert (E : data_offset_at (store (off + 16) (be16 0) m) off
              = data_offset_at m off).
  { unfold data_offset_at, data_offset_z, byte_at.
    rewrite nth_store_other by (rewrite ?length_be16; lia). reflexivity. }
  rewrite E.
  apply transport_law; try assumption; try reflexivity; try lia.
  - apply data_offset_even.
  - rewrite PseudoHeaderChecksum_eq by lia. f_equal. lia.
Qed.

Lemma word_at_range (b : list byte) (i : nat) : 0 <= word_at b i < 65536.
Proof. apply word16_range. Qed.

Lemma byte_at_range (b : list byte) (i : nat) : 0 <= byte_at b i < 256.
Proof. apply b2z_range. Qed.

Lemma wsum_proto (p : Z) : 0 <= p < 256 -> wsum [x00; z2b p] = p.
Proof.
  intros H. change (wsum [x00; z2b p]) with (b2z x00 * 256 + b2z (z2b p) + 0).
  rewrite b2z_z2b, Z.mod_small by lia. change (b2z x00) with 0. lia.
Qed.

(** The sum of the pseudo-header bytes. *)
Lemma wsum_pseudo_header (b : list byte) :
  wellformed_ip b = true ->
  wsum (pseudo_header b)
  = (if header.IPVersion b =? 4
     then wsum (sub b 12 4) + wsum (sub b 16 4)
     else wsum (sub b 8 16) + wsum (sub b 24 16))
    + Z.of_nat (segment_len b) + transport b
  /\ Nat.even (length (pseudo_header b)) = true
  /\ (length (pseudo_header b) <= 40)%nat.
Proof.
  intros I. pose proof (segment_length b I) as SL.
  assert (R : 0 <= Z.of_nat (segment_len b) < 65536).
  { unfold segment_len, payload_len4, payload_len4_z, payload_len6, u16.
    destruct (header.IPVersion b =? 4).
    - pose proof (Z.mod_pos_bound (word_at b 2 - ihl_z b) (2 ^ 16) ltac:(lia)).
      change (2 ^ 16) with 65536 in *. lia.
    - pose proof (word_at_range b 4). lia. }
  assert (T : 0 <= transport b < 256)
    by (unfold transport; destruct (_ =? _); apply byte_at_range).
  unfold pseudo_header. cbv zeta. rewrite SL.
  destruct (wellformed_version b I) as [V|V]; rewrite V.
  - change (4 =? 4) with true. cbv iota.
    destruct (wellformed_ip4 b V I) as (I1 & I2 & I3).
    assert (L1 : length (sub b 12 4) = 4%nat) by (apply sub_length; lia).
    assert (L2 : length (sub b 16 4) = 4%nat) by (apply sub_length; lia).
    repeat split.
    + rewrite !wsum_app by (rewrite ?L1, ?L2; reflexivity).
      rewrite wsum_proto, wsum_be16 by lia. lia.
    + rewrite !length_app, L1, L2. reflexivity.
    + rewrite !length_app, L1, L2. simpl. lia.
  - change (6 =? 4) with false. cbv iota.
    pose proof (wellformed_ip6 b V I) as I1.
    assert (L1 : length (sub b 8 16) = 16%nat) by (apply sub_length; lia).
    assert (L2 : length (sub b 24 16) = 16%nat) by (apply sub_length; lia).
    repeat split.
    + rewrite !wsum_app by (rewrite ?L1, ?L2; reflexivity).
      rewrite wsum_be16 by lia.
      change (wsum [x00; x00; x00; z2b (transport b)])
        with (b2z x00 * 256 + b2z x00 + wsum [x00; z2b (transport b)]).
      rewrite wsum_proto by lia.
      change (wsum [x00; x00]) with 0. change (b2z x00) with 0. lia.
    + rewrite !length_app, L1, L2. reflexivity.
    + rewrite !length_app, L1, L2. simpl. lia.
Qed.

Lemma checksum_fields_where (b : list byte) (i : nat) :
  wellformed_ip b = true -> In i (checksum_fields b) ->
  (header.IPVersion b = 4 /\ (i = 10 \/ i = 11 \/ 26 <= i)%nat)
  \/ (header.IPVersion b = 6 /\ (46 <= i)%nat).
Proof.
  intros I. destruct (wellformed_version b I) as [V|V].
  - destruct (wellformed_ip4 b V I) as (I1 & I2 & I3).
    pick_version V.
    destruct (byte_at b 9 =? header.UDPProtocolNumber);
      [|destruct (byte_at b 9 =? header.TCPProtocolNumber)];
      simpl; intros H; left; split; trivial; lia.
  - pick_version V.
    destruct (byte_at b 6 =? header.UDPProtocolNumber);
      [|destruct (byte_at b 6 =? header.TCPProtocolNumber)];
      simpl; intros H; right; split; trivial; lia.
Qed.

(** The fields that locate and describe the segment survive the repair. *)
Lemma repaired_fields (b : list byte) :
  wellformed b = true ->
  header.IPVersion (repaired b) = header.IPVersion b
  /\ transport (repaired b) = transport b
  /\ segment_off (repaired b) = segment_off b
  /\ segment_len (repaired b) = segment_len b
  /\ segment (repaired b) = sub (repaired b) (segment_off b) (segment_len b)
  /\ pseudo_header (repaired b) = pseudo_header b.
Proof.
  intros W. destruct (repaired_frame b W) as [L N].
  unfold wellformed in W. apply andb_prop in W as [I F].
  pose proof (checksum_fields_where b) as CW.
  pose proof (segment_length b I) as SL.
  assert (EV : header.IPVersion (repaired b) = header.IPVersion b).
  { apply IPVersion_ext; [exact L|]. apply N. intros Hi.
    destruct (CW _ I Hi) as [[_ ?]|[_ ?]]; lia. }
  assert (K4 : header.IPVersion b = 4 ->
               forall i, (i < 10 \/ 12 <= i < 26)%nat ->
                         nth i (repaired b) x00 = nth i b x00).
  { intros V i Hi. apply N. intros Hin.
    destruct (CW _ I Hin) as [[_ ?]|[V' _]]; [lia|congruence]. }
  assert (K6 : header.IPVersion b = 6 ->
               forall i, (i < 46)%nat ->
                         nth i (repaired b) x00 = nth i b x00).
  { intros V i Hi. apply N. intros Hin.
    destruct (CW _ I Hin) as [[V' _]|[_ ?]]; [congruence|lia]. }
  assert (ET : transport (repaired b) = transport b).
  { unfold transport. rewrite EV.
    destruct (wellformed_version b I) as [V|V]; rewrite V.
    - change (4 =? 4) with true. cbv iota. unfold byte_at.
      rewrite K4 by (trivial; lia). reflexivity.
    - change (6 =? 4) with false. cbv iota. unfold byte_at.
      rewrite K6 by (trivial; lia). reflexivity. }
  assert (EO : segment_off (repaired b) = segment_off b).
  { unfold segment_off. rewrite EV.
    destruct (wellformed_version b I) as [V|V]; rewrite V.
    - change (4 =? 4) with true. cbv iota. unfold ihl, ihl_z, byte_at.
      rewrite K4 by (trivial; lia). reflexivity.
    - reflexivity. }
  assert (EL : segment_len (repaired b) = segment_len b).
  { unfold segment_len. rewrite EV.
    destruct (wellformed_version b I) as [V|V]; rewrite V.
    - change (4 =? 4) with true. cbv iota.
      unfold payload_len4, payload_len4_z, ihl_z, word_at, byte_at.
      rewrite !K4 by (trivial; lia). reflexivity.
    - change (6 =? 4) with false. cbv iota.
      unfold payload_len6, word_at.
      rewrite !K6 by (trivial; lia). reflexivity. }
  assert (ES : segment (repaired b)
               = sub (repaired b) (segment_off b) (segment_len b)).
  { unfold segment. rewrite EO, EL. reflexivity. }
  repeat split; try assumption.
  unfold pseudo_header. cbv zeta. rewrite ES, ET, EV.
  assert (LS : length (sub (repaired b) (segment_off b) (segment_len b))
               = length (segment b)).
  { rewrite SL. apply sub_length. rewrite L.
    unfold segment_off, segment_len.
    destruct (wellformed_version b I) as [V|V]; rewrite V.
    - change (4 =? 4) with true. cbv iota.
      destruct (wellformed_ip4 b V I) as (I1 & I2 & I3).
      pose proof (payload_len4_eq b I2). lia.
    - change (6 =? 4) with false. cbv iota.
      pose proof (wellformed_ip6 b V I). lia. }
  rewrite LS.
  destruct (wellformed_version b I) as [V|V]; rewrite V.
  - change (4 =? 4) with true. cbv iota.
    destruct (wellformed_ip4 b V I) as (I1 & I2 & I3).
    rewrite (sub_ext (repaired b) b 12 4), (sub_ext (repaired b) b 16 4);
      trivial; try lia; intros i Hi; apply K4; trivial; lia.
  - change (6 =? 4) with false. cbv iota.
    pose proof (wellformed_ip6 b V I).
    rewrite (sub_ext (repaired b) b 8 16), (sub_ext (repaired b) b 24 16);
      trivial; try lia; intros i Hi; apply K6; trivial; lia.
Qed.

Lemma word_at_sub (b : list byte) (off len i : nat) :
  (i + 2 <= len)%nat -> word_at (sub b off len) i = word_at b (off + i).
Proof.
  intros H. unfold word_at. rewrite !nth_sub by lia.
  replace (off + (i + 1))%nat with (off + i + 1)%nat by lia. reflexivity.
Qed.

Lemma segment_len_range (b : list byte) : Z.of_nat (segment_len b) <= 65535.
Proof.
  unfold segment_len, payload_len4, payload_len4_z, payload_len6, u16.
  destruct (header.IPVersion b =? 4).
  - pose proof (Z.mod_pos_bound (word_at b 2 - ihl_z b) (2 ^ 16) ltac:(lia)).
    change (2 ^ 16) with 65536 in *. lia.
  - pose proof (word_at_range b 4). lia.
Qed.

(** The segment of the repaired packet sums, with its pseudo-header, to all
    ones. *)
Lemma repaired_segment_law (b : list byte) :
  valid_segment b = true ->
  checksum.Checksum (pseudo_header (repaired b) ++ segment (repaired b)) 0
  = 0xffff.
Proof.
  intros VS. unfold valid_segment in VS. apply andb_prop in VS as [W VS].
  destruct (repaired_fields b W) as (_ & _ & _ & _ & ES & EP).
  rewrite ES, EP. clear ES EP.
  unfold wellformed in W. apply andb_prop in W as [I F].
  destruct (wsum_pseudo_header b I) as (WP & EvP & LP).
  pose proof (segment_length b I) as SL.
  pose proof (segment_len_range b) as SR.
  revert SL SR WP F VS.
  unfold segment, transport, segment_off, segment_len.
  destruct (wellformed_version b I) as [V|V]; rewrite V.
  - change (4 =? 4) with true. cbv iota. intros SL SR WP F VS.
    destruct (wellformed_ip4 b V I) as (I1 & I2 & I3).
    pose proof (payload_len4_eq b I2) as EP.
    assert (L1 : length (sub b 12 4) = 4%nat) by (apply sub_length; lia).
    assert (L2 : length (sub b 16 4) = 4%nat) by (apply sub_length; lia).
    apply orb_prop in VS as [VS|VS].
    + apply andb_prop in VS as [P VL].
      apply Z.eqb_eq in P, VL. rewrite P in F, WP.
      apply fits_udp in F; [|lia].
      rewrite (repaired_udp4 b I V P).
      apply udp_law with (src := sub b 12 4) (dst := sub b 16 4);
        rewrite ?fix4_length; try assumption; try lia.
      rewrite <- word_at_sub with (len := payload_len4 b) by lia.
      rewrite VL, SL. reflexivity.
    + apply Z.eqb_eq in VS. rename VS into P. rewrite P in F, WP.
      apply fits_tcp in F; [|lia].
      rewrite (repaired_tcp4 b I V P).
      apply tcp_law with (src := sub b 12 4) (dst := sub b 16 4);
        rewrite ?fix4_length, ?(fix4_data_offset_at b V I);
        try assumption; try lia.
      unfold payload_len4.
      assert (0 <= payload_len4_z b)
        by (unfold payload_len4_z, u16; apply Z.mod_pos_bound; lia).
      lia.
  - change (6 =? 4) with false. cbv iota. intros SL SR WP F VS.
    pose proof (wellformed_ip6 b V I) as I1.
    assert (L1 : length (sub b 8 16) = 16%nat) by (apply sub_length; lia).
    assert (L2 : length (sub b 24 16) = 16%nat) by (apply sub_length; lia).
    apply orb_prop in VS as [VS|VS].
    + apply andb_prop in VS as [P VL].
      apply Z.eqb_eq in P, VL. rewrite P in F, WP.
      apply fits_udp in F; [|lia].
      rewrite (repaired_udp6 b V P).
      apply udp_law with (src := sub b 8 16) (dst := sub b 24 16);
        try assumption; try lia.
      rewrite <- word_at_sub with (len := payload_len6 b) by lia.
      rewrite VL, SL. reflexivity.
    + apply Z.eqb_eq in VS. rename VS into P. rewrite P in F, WP.
      apply fits_tcp in F; [|lia].
      rewrite (repaired_tcp6 b V P).
      apply tcp_law with (src := sub b 8 16) (dst := sub b 24 16);
        try assumption; try lia.
      unfold payload_len6. pose proof (word_at_range b 4). lia.
Qed.

Lemma wsum_first (l : list byte) : b2z (nth 0 l x00) * 256 <= wsum l.
Proof.
  destruct l as [|x l]; [simpl; change (b2z x00) with 0; lia|].
  apply wsum_head.
Qed.

Lemma version_first_byte (b : list byte) (v : Z) :
  0 <= v -> header.IPVersion b = v -> v * 16 <= b2z (nth 0 b x00).
Proof.
  intros Hv E. destruct b as [|x b]; simpl in *; [lia|].
  rewrite Z.shiftr_div_pow2 in E by lia. change (2 ^ 4) with 16 in E.
  pose proof (Z.div_mod (b2z x) 16 ltac:(lia)).
  pose proof (Z.mod_pos_bound (b2z x) 16 ltac:(lia)). lia.
Qed.

Lemma ihl_range (b : list byte) : (ihl b <= 255)%nat.
Proof.
  unfold ihl, ihl_z, u8.
  pose proof (Z.mod_pos_bound (Z.land (byte_at b 0) 15 * 4) (2 ^ 8) ltac:(lia)).
  change (2 ^ 8) with 256 in *. lia.
Qed.

(** The header after the repair of its checksum: the field is zeroed, the
    header summed, and the complement of the sum written into the field. *)
Lemma fix_ipv4_header_form (b : list byte) :
  (12 <= ihl b)%nat -> (ihl b <= length b)%nat ->
  sub (fix_ipv4_header b) 0 (ihl b)
  = store 10
      (be16 (not16 (checksum.Checksum
                      (store 10 (be16 0) (sub b 0 (ihl b))) 0)))
      (store 10 (be16 0) (sub b 0 (ihl b))).
Proof.
  intros H12 Hl.
  unfold fix_ipv4_header. cbv zeta.
  rewrite ihl_store_zero by lia.
  set (m0 := store 10 (be16 0) b).
  assert (Lm0 : length m0 = length b) by (unfold m0; solve_len).
  change (firstn (ihl b) m0) with (sub m0 0 (ihl b)).
  rewrite (sub_store_inside 10 _ m0 0 (ihl b)) by (rewrite ?length_be16; lia).
  assert (E0 : sub m0 0 (ihl b) = store 10 (be16 0) (sub b 0 (ihl b))).
  { unfold m0. apply (sub_store_inside 10 _ b 0); rewrite ?length_be16; lia. }
  rewrite E0. reflexivity.
Qed.

(** It sums to all ones. *)
Lemma fix_ipv4_header_law (b : list byte) :
  header.IPVersion b = 4 -> (12 <= ihl b)%nat -> (ihl b <= length b)%nat ->
  checksum.Checksum (sub (fix_ipv4_header b) 0 (ihl b)) 0 = 0xffff.
Proof.
  intros V H12 Hl. pose proof (ihl_range b) as R.
  rewrite fix_ipv4_header_form by assumption.
  assert (Lh : length (sub b 0 (ihl b)) = ihl b) by (apply sub_length; lia).
  change (store 10 (be16 (not16 ?c)) ?x) with ([] ++ store 10 (be16 (not16 c)) x).
  apply complement_law; try reflexivity; try lia.
  - rewrite Lh. simpl length. lia.
  - rewrite Checksum_eq by (rewrite ?store_length; rewrite ?length_be16; lia).
    reflexivity.
  - change (wsum []) with 0.
    pose proof (wsum_first (store 10 (be16 0) (sub b 0 (ihl b)))) as Hf.
    rewrite nth_store_other in Hf by (rewrite ?length_be16; lia).
    rewrite nth_sub in Hf by lia.
    pose proof (version_first_byte b 4 ltac:(lia) V). simpl in Hf. lia.
Qed.


(** ** The pump loops *)

Lemma filled_length (size : nat) (stored : list byte) :
  length (filled size stored) = size.
Proof.
  unfold filled. rewrite length_firstn, length_app, repeat_length. lia.
Qed.

Lemma reslice_ok (buf : list byte) (off : nat) (n : Z) :
  0 <= n -> Z.of_nat off + n <= Z.of_nat (length buf) ->
  reslice buf (Z.of_nat off) (Z.of_nat off + n) = Some (sub buf off (Z.to_nat n)).
Proof.
  intros Hn Hl. unfold reslice.
  rewrite (proj2 (Z.leb_le 0 (Z.of_nat off))) by lia.
  rewrite (proj2 (Z.leb_le (Z.of_nat off) (Z.of_nat off + n))) by lia.
  rewrite (proj2 (Z.leb_le (Z.of_nat off + n) (Z.of_nat (length buf)))) by lia.
  cbn [andb]. unfold sub. rewrite Nat2Z.id.
  replace (Z.of_nat off + n - Z.of_nat off) with n by lia. reflexivity.
Qed.

Lemma forwarded_app (l1 l2 : list (list byte)) :
  forwarded (l1 ++ l2) = forwarded l1 ++ forwarded l2.
Proof. unfold forwarded. rewrite filter_app, map_app. reflexivity. Qed.

Lemma forward_all_app (e : channel.Endpoint) (l1 l2 : list (list byte)) :
  forward_all (forward_all e l1) l2 = forward_all e (l1 ++ l2).
Proof.
  unfold forward_all. cbn [channel.inbound channel.outq].
  rewrite forwarded_app, app_assoc. reflexivity.
Qed.

Lemma forward_all_nil (e : channel.Endpoint) : forward_all e [] = e.
Proof.
  destruct e. unfold forward_all, forwarded. simpl. rewrite app_nil_r.
  reflexivity.
Qed.

(** The [switch] on the version in both loops. *)
Lemma classify_eq (ep : channel.Endpoint) (p : list byte) :
  (if header.IPVersion p =? header.IPv4Version
   then channel.InjectInbound ep header.IPv4ProtocolNumber p
   else if header.IPVersion p =? header.IPv6Version
   then channel.InjectInbound ep header.IPv6ProtocolNumber p
   else ep)
  = forward_all ep [p].
Proof.
  unfold forward_all, forwarded, known, tagged, channel.InjectInbound.
  cbn [filter].
  destruct (header.IPVersion p =? header.IPv4Version) eqn:E4.
  - cbn [orb map]. rewrite E4. reflexivity.
  - destruct (header.IPVersion p =? header.IPv6Version) eqn:E6; cbn [orb map].
    + rewrite E4. reflexivity.
    + destruct ep. simpl. rewrite app_nil_r. reflexivity.
Qed.

Lemma forward_unknown (ep : channel.Endpoint) (p : list byte) :
  known p = false -> forward_all ep [p] = ep.
Proof.
  intros K. unfold forward_all, forwarded. cbn [filter]. rewrite K.
  apply forward_all_nil.
Qed.

Lemma Unix_loop_ok (size : Z) (ev : list byte * Z) (rest : list ReadEvent)
    (ep : channel.Endpoint) (k : nat) :
  0 <= snd ev -> 4 + snd ev <= size ->
  Unix.Attach_loop size (ok_event ev :: rest) ep k
  = Unix.Attach_loop size rest (forward_all ep [read_packet 4 size ev]) (S k).
Proof.
  intros Hn Hs. unfold ok_event. cbn [Unix.Attach_loop].
  rewrite (proj2 (Z.ltb_ge size 0)) by lia.
  change 4 with (Z.of_nat 4) at 1 2.
  rewrite reslice_ok by (rewrite ?filled_length; lia).
  rewrite classify_eq. reflexivity.
Qed.

Lemma Windows_loop_ok (size : Z) (ev : list byte * Z) (rest : list ReadEvent)
    (ep : channel.Endpoint) (k : nat) :
  0 <= snd ev -> snd ev <= size ->
  Windows.Attach_loop size (ok_event ev :: rest) ep k
  = Windows.Attach_loop size rest (forward_all ep [read_packet 0 size ev]) (S k).
Proof.
  intros Hn Hs. unfold ok_event. cbn [Windows.Attach_loop].
  rewrite (proj2 (Z.ltb_ge size 0)) by lia.
  change (reslice ?b 0 ?n) with (reslice b (Z.of_nat 0) (Z.of_nat 0 + n)).
  rewrite reslice_ok by (rewrite ?filled_length; lia).
  rewrite classify_eq. reflexivity.
Qed.

Lemma Unix_loop_run (size : Z) (evs : list (list byte * Z))
    (rest : list ReadEvent) :
  0 <= size ->
  Forall (fun ev => 0 <= snd ev /\ 4 + snd ev <= size) evs ->
  forall ep k,
    Unix.Attach_loop size (map ok_event evs ++ ReadErr :: rest) ep k
    = mkPump Stopped (forward_all ep (map (read_packet 4 size) evs))
             (S (length evs + k)) rest.
Proof.
  intros Hsize. induction 1 as [|ev evs [Hn Hs] _ IH]; intros ep k.
  - cbn [map app Unix.Attach_loop length].
    rewrite (proj2 (Z.ltb_ge size 0)) by lia.
    rewrite forward_all_nil. reflexivity.
  - cbn [map app]. rewrite Unix_loop_ok by assumption.
    rewrite IH, forward_all_app. cbn [length app]. f_equal. lia.
Qed.

Lemma Windows_loop_run (size : Z) (evs : list (list byte * Z))
    (rest : list ReadEvent) :
  0 <= size ->
  Forall (fun ev => 0 <= snd ev /\ snd ev <= size) evs ->
  forall ep k,
    Windows.Attach_loop size (map ok_event evs ++ ReadErr :: rest) ep k
    = mkPump Stopped (forward_all ep (map (read_packet 0 size) evs))
             (S (length evs + k)) rest.
Proof.
  intros Hsize. induction 1 as [|ev evs [Hn Hs] _ IH]; intros ep k.
  - cbn [map app Windows.Attach_loop length].
    rewrite (proj2 (Z.ltb_ge size 0)) by lia.
    rewrite forward_all_nil. reflexivity.
  - cbn [map app]. rewrite Windows_loop_ok by assumption.
    rewrite IH, forward_all_app. cbn [length app]. f_equal. lia.
Qed.

(** Of the packets read, the forwarded ones and the dropped ones. *)
Lemma forwarded_count (pkts : list (list byte)) :
  (length (forwarded pkts)
   + length (filter (fun p => negb (known p)) pkts) = length pkts)%nat.
Proof.
  unfold forwarded. rewrite length_map.
  induction pkts as [|p pkts IH]; [reflexivity|].
  cbn [filter]. destruct (known p); cbn [negb length]; lia.
Qed.

(** The device stored a frame prefix and a payload: the packet taken out of
    the buffer is the payload. *)
Lemma read_packet_payload (prefix payload : list byte) (size : Z) :
  Z.of_nat (length prefix + length payload) <= size ->
  read_packet (length prefix) size
    (prefix ++ payload, Z.of_nat (length payload))
  = payload.
Proof.
  intros H. unfold read_packet. cbn [fst snd]. rewrite Nat2Z.id.
  apply nth_ext with (d := x00) (d' := x00).
  - apply sub_length. rewrite filled_length. lia.
  - intros i Hi. rewrite sub_length in Hi by (rewrite filled_length; lia).
    rewrite nth_sub by exact Hi. unfold filled. rewrite nth_firstn.
    destruct (Nat.ltb_spec (length prefix + i) (Z.to_nat size)); [|lia].
    rewrite app_nth1 by (rewrite length_app; lia).
    rewrite app_nth2_plus. reflexivity.
Qed.

(** ** Slices grown by [append] *)

Lemma firstn_store_before (k off : nat) (bs m : list byte) :
  (k <= off)%nat -> (off + length bs <= length m)%nat ->
  firstn k (store off bs m) = firstn k m.
Proof.
  intros Hk H.
  change (firstn k (store off bs m)) with (sub (store off bs m) 0 k).
  change (firstn k m) with (sub m 0 k).
  apply sub_store_outside; lia.
Qed.

Lemma firstn_store_upto (off : nat) (bs m : list byte) :
  (off + length bs <= length m)%nat ->
  firstn (off + length bs) (store off bs m) = firstn off m ++ bs.
Proof.
  intros H. unfold store.
  assert (L : length (firstn off m ++ bs) = (off + length bs)%nat)
    by (rewrite length_app, length_firstn; lia).
  rewrite app_assoc, <- L. rewrite firstn_app, firstn_all, Nat.sub_diag.
  rewrite firstn_0. apply app_nil_r.
Qed.

Section Append.
Import DrainInv.
Variables (pre : nat) (scratch : list byte) (g : grown) (xs : list byte).
Hypothesis G : grown_ok pre scratch g.

Lemma append_length : length (fst (append scratch g xs)) = length scratch.
Proof.
  unfold append. destruct g as [n|c]; [|reflexivity]. simpl in G.
  destruct (Nat.leb_spec (n + length xs) (length scratch)); [|reflexivity].
  cbn [fst]. apply store_length. lia.
Qed.

Lemma append_contents :
  contents (fst (append scratch g xs)) (snd (append scratch g xs))
  = contents scratch g ++ xs.
Proof.
  unfold append. destruct g as [n|c]; [|reflexivity]. simpl in G.
  destruct (Nat.leb_spec (n + length xs) (length scratch)); [|reflexivity].
  cbn [fst snd contents]. apply firstn_store_upto. lia.
Qed.

Lemma append_grown_ok :
  grown_ok pre (fst (append scratch g xs)) (snd (append scratch g xs)).
Proof.
  unfold append. destruct g as [n|c]; [|exact I]. simpl in G.
  destruct (Nat.leb_spec (n + length xs) (length scratch)); [|exact I].
  cbn [fst snd grown_ok]. rewrite store_length by lia. lia.
Qed.

Lemma append_prefix :
  firstn pre (fst (append scratch g xs)) = firstn pre scratch.
Proof.
  unfold append. destruct g as [n|c]; [|reflexivity]. simpl in G.
  destruct (Nat.leb_spec (n + length xs) (length scratch)); [|reflexivity].
  cbn [fst]. apply firstn_store_before; lia.
Qed.
End Append.

(** ** Interleaved drains: the invariant *)

Section DrainProof.
Import Drain DrainInv.
Variables (v : build) (queue : list stack.PacketBuffer) (buf0 : list byte).

Lemma Inv_initial : Inv v queue buf0 (initial queue buf0).
Proof.
  unfold Inv, initial. cbn. repeat split; auto; try discriminate.
  intros w [].
Qed.

Lemma upd_same (f : nat -> invocation) (t : nat) (x : invocation) :
  upd f t x t = x.
Proof. unfold upd. rewrite Nat.eqb_refl. reflexivity. Qed.

Lemma upd_other (f : nat -> invocation) (t u : nat) (x : invocation) :
  u <> t -> upd f t x u = f u.
Proof.
  intros H. unfold upd. destruct (Nat.eqb_spec u t); [contradiction|].
  reflexivity.
Qed.

(** An invocation outside the critical section stays as it is whatever
    happens to the mutex and to the scratch array. *)
Lemma inv_ok_outside (s s' : sys) (t : nat) :
  inv_ok v queue buf0 s t ->
  invs s' t = invs s t ->
  in_section (at_pc (invs s t)) = false ->
  inv_ok v queue buf0 s' t.
Proof.
  intros (H1 & H2 & H3) E O. unfold inv_ok. rewrite E.
  repeat split.
  - rewrite O. discriminate.
  - exact H2.
  - destruct (at_pc (invs s t)); try exact I; discriminate.
Qed.

(** An invocation keeps what it has when nothing it looks at changes. *)
Lemma inv_ok_same (s s' : sys) (t : nat) :
  inv_ok v queue buf0 s t ->
  invs s' t = invs s t -> mu s' = mu s -> scratch s' = scratch s ->
  inv_ok v queue buf0 s' t.
Proof.
  intros H E Em Es. unfold inv_ok. rewrite E, Em, Es. exact H.
Qed.

(** While [t] is in the critical section no other invocation is. *)
Lemma others_outside (s : sys) (t u : nat) :
  (forall x, inv_ok v queue buf0 s x) ->
  mu s = Some t -> u <> t ->
  in_section (at_pc (invs s u)) = false.
Proof.
  intros H M N. destruct (in_section (at_pc (invs s u))) eqn:E; [|reflexivity].
  destruct (H u) as (H1 & _). rewrite (H1 E) in M. congruence.
Qed.

Lemma free_outside (s : sys) (u : nat) :
  (forall x, inv_ok v queue buf0 s x) ->
  mu s = None ->
  in_section (at_pc (invs s u)) = false.
Proof.
  intros H M. destruct (in_section (at_pc (invs s u))) eqn:E; [|reflexivity].
  destruct (H u) as (H1 & _). rewrite (H1 E) in M. discriminate.
Qed.

Ltac this_or_other t u :=
  destruct (Nat.eq_dec u t) as [->|N];
  [ unfold inv_ok; cbn [outq mu scratch device invs move];
    rewrite !upd_same; cbn [at_pc pkt local in_section]
  | ].

Lemma step_Inv (s s' : sys) :
  Inv v queue buf0 s -> step v s s' -> Inv v queue buf0 s'.
Proof.
  intros (HL & HP & HQ & HT & HD) St.
  destruct St as [s t p q A Q | s t B A Q | s t B A Q | s t A M
                 | s t p A K Hb | s t A K | s t p A K Hb
                 | s t p A K | s t p A K | s t A | s t A].
  all: pose proof (HT t) as (Ht1 & Ht2 & Ht3).
  all: rewrite A in Ht1, Ht3; cbn [in_section] in Ht1.
  all: unfold Inv; cbn [outq mu scratch device invs move].
  all: split; [|split; [|split; [|split]]]; trivial.
  - (* Read, a packet: the queue *)
    intros x Hx. apply HQ. rewrite Q. right. exact Hx.
  - (* Read, a packet: the invocations *)
    intros u. this_or_other t u.
    + split; [|split]; trivial; try discriminate.
      intros p' [= <-]. apply HQ. rewrite Q. left. reflexivity.
    + apply (inv_ok_same s); trivial. apply upd_other, N.
  - (* Read, nothing, return *)
    intros u. this_or_other t u.
    + split; [|split]; trivial; discriminate.
    + apply (inv_ok_same s); trivial. apply upd_other, N.
  - (* Read, nothing, go on *)
    intros u. this_or_other t u.
    + split; [|split]; trivial; discriminate.
    + apply (inv_ok_same s); trivial. apply upd_other, N.
  - (* Lock *)
    intros u. this_or_other t u.
    + split; [|split]; trivial.
    + apply (inv_ok_outside s); trivial.
      * apply upd_other, N.
      * apply free_outside; assumption.
  - (* append the network header: the length of the array *)
    rewrite (append_length (prefix v)); [assumption|simpl; lia].
  - (* the prefix *)
    rewrite (append_prefix (prefix v)); [assumption|simpl; lia].
  - (* the invocations *)
    assert (G : grown_ok (prefix v) (scratch s) (OnScratch (prefix v)))
      by (simpl; lia).
    intros u. this_or_other t u.
    + split; [|split].
      * intros _. apply Ht1. reflexivity.
      * intros p' [= <-]. apply Ht2, K.
      * exists p. split; [|split; [|split]]; trivial.
        -- apply Ht2, K.
        -- apply append_grown_ok, G.
        -- rewrite (append_contents (prefix v)) by exact G.
           cbn [contents]. rewrite HP. reflexivity.
    + apply (inv_ok_outside s); trivial.
      * apply upd_other, N.
      * apply (others_outside s t); trivial. apply Ht1. reflexivity.
  - (* nil packet *)
    intros u. this_or_other t u.
    + split; [|split]; trivial; discriminate.
    + apply (inv_ok_same s); trivial. apply upd_other, N.
  - (* scratch shorter than the prefix *)
    intros u. this_or_other t u.
    + split; [|split]; trivial.
      intros p' [= <-]. apply Ht2, K.
    + apply (inv_ok_same s); trivial. apply upd_other, N.
  - (* append the transport header *)
    destruct Ht3 as (p' & K' & Hin & G & C).
    rewrite (append_length (prefix v)); assumption.
  - destruct Ht3 as (p' & K' & Hin & G & C).
    rewrite (append_prefix (prefix v)); assumption.
  - destruct Ht3 as (p' & K' & Hin & G & C).
    rewrite K in K'. injection K' as <-.
    intros u. this_or_other t u.
    + split; [|split].
      * intros _. apply Ht1. reflexivity.
      * intros p' [= <-]. exact Hin.
      * exists p. split; [|split; [|split]]; trivial.
        -- apply append_grown_ok, G.
        -- rewrite (append_contents (prefix v)) by exact G.
           rewrite C, <- app_assoc. reflexivity.
    + apply (inv_ok_outside s); trivial.
      * apply upd_other, N.
      * apply (others_outside s t); trivial. apply Ht1. reflexivity.
  - (* append the data *)
    destruct Ht3 as (p' & K' & Hin & G & C).
    rewrite (append_length (prefix v)); assumption.
  - destruct Ht3 as (p' & K' & Hin & G & C).
    rewrite (append_prefix (prefix v)); assumption.
  - destruct Ht3 as (p' & K' & Hin & G & C).
    rewrite K in K'. injection K' as <-.
    intros u. this_or_other t u.
    + split; [|split].
      * intros _. apply Ht1. reflexivity.
      * intros p' [= <-]. exact Hin.
      * exists p. split; [|split; [|split]]; trivial.
        -- apply append_grown_ok, G.
        -- rewrite (append_contents (prefix v)) by exact G.
           rewrite C, <- !app_assoc. reflexivity.
    + apply (inv_ok_outside s); trivial.
      * apply upd_other, N.
      * apply (others_outside s t); trivial. apply Ht1. reflexivity.
  - (* the device write: the invocations *)
    intros u. this_or_other t u.
    + split; [|split]; trivial.
    + apply (inv_ok_same s); trivial. apply upd_other, N.
  - (* the device write: what was written *)
    destruct Ht3 as (p' & K' & Hin & G & C).
    intros w Hw. apply in_app_or in Hw as [Hw|[<-|[]]].
    + apply HD, Hw.
    + exists p'. split; trivial.
  - (* Unlock *)
    intros u. this_or_other t u.
    + split; [|split]; trivial. discriminate.
    + apply (inv_ok_outside s); trivial.
      * apply upd_other, N.
      * apply (others_outside s t); trivial. apply Ht1. reflexivity.
Qed.

Lemma reachable_Inv (s : sys) :
  reachable v (initial queue buf0) s -> Inv v queue buf0 s.
Proof.
  induction 1 as [|s s' _ IH St].
  - apply Inv_initial.
  - apply (step_Inv s); assumption.
Qed.
End DrainProof.

(** ** WriteNotify, run alone *)

Lemma drain_buffer (pre : nat) (scratch xs ys zs : list byte) :
  (pre <= length scratch)%nat ->
  let r1 := append scratch (OnScratch pre) xs in
  let r2 := append (fst r1) (snd r1) ys in
  let r3 := append (fst r2) (snd r2) zs in
  contents (fst r3) (snd r3) = firstn pre scratch ++ xs ++ ys ++ zs
  /\ firstn pre (fst r3) = firstn pre scratch
  /\ length (fst r3) = length scratch.
Proof.
  intros H r1 r2 r3.
  assert (G0 : DrainInv.grown_ok pre scratch (OnScratch pre)) by (simpl; lia).
  pose proof (append_grown_ok pre scratch _ xs G0) as G1. fold r1 in G1.
  pose proof (append_grown_ok pre _ _ ys G1) as G2. fold r2 in G2.
  split; [|split].
  - unfold r3. rewrite (append_contents pre) by exact G2.
    unfold r2. rewrite (append_contents pre) by exact G1.
    unfold r1. rewrite (append_contents pre) by exact G0.
    cbn [contents]. rewrite <- !app_assoc. reflexivity.
  - unfold r3. rewrite (append_prefix pre) by exact G2.
    unfold r2. rewrite (append_prefix pre) by exact G1.
    unfold r1. apply (append_prefix pre). exact G0.
  - unfold r3. rewrite (append_length pre) by exact G2.
    unfold r2. rewrite (append_length pre) by exact G1.
    unfold r1. apply (append_length pre). exact G0.
Qed.

Lemma Unix_WriteNotify_run (inb : list (Z * list byte))
    (pkt : stack.PacketBuffer) (q : list stack.PacketBuffer) (mtu : Z)
    (dev : Device) (buf : list byte) (wt : list (list byte * Z)) :
  (4 <= length buf)%nat ->
  exists buf',
    Unix.WriteNotify
      (Unix.mkEndpoint (channel.mkEndpoint inb (pkt :: q)) mtu dev buf wt)
    = Some (Unix.mkEndpoint (channel.mkEndpoint inb q) mtu dev buf'
              (wt ++ [(firstn 4 buf ++ stack.NetworkHeader pkt
                         ++ stack.TransportHeader pkt
                         ++ stack.ToView (stack.Data pkt), 4)]))
    /\ firstn 4 buf' = firstn 4 buf /\ length buf' = length buf.
Proof.
  intros H.
  destruct (drain_buffer 4 buf (stack.NetworkHeader pkt)
              (stack.TransportHeader pkt) (stack.ToView (stack.Data pkt)) H)
    as (C & P & L).
  cbv zeta in C, P, L.
  unfold Unix.WriteNotify, channel.Read.
  cbn [Unix.ep Unix.buf Unix.mtu Unix.dev Unix.wt channel.outq channel.inbound].
  rewrite (proj2 (Nat.leb_le 4 (length buf))) by exact H.
  destruct (append buf (OnScratch 4) (stack.NetworkHeader pkt)) as [s1 g1].
  cbn [fst snd] in C, P, L.
  destruct (append s1 g1 (stack.TransportHeader pkt)) as [s2 g2].
  cbn [fst snd] in C, P, L.
  destruct (append s2 g2 (stack.ToView (stack.Data pkt))) as [s3 g3].
  cbn [fst snd] in C, P, L.
  exists s3. rewrite C. auto.
Qed.

Lemma Windows_WriteNotify_run (inb : list (Z * list byte))
    (pkt : stack.PacketBuffer) (q : list stack.PacketBuffer) (mtu : Z)
    (dev : Device) (buff : list byte) (wr : list (list byte)) :
  exists buff',
    Windows.WriteNotify
      (Windows.mkEndpoint (channel.mkEndpoint inb (pkt :: q)) dev wr mtu buff)
    = Some (Windows.mkEndpoint (channel.mkEndpoint inb q) dev
              (wr ++ [stack.NetworkHeader pkt ++ stack.TransportHeader pkt
                        ++ stack.ToView (stack.Data pkt)])
              mtu buff')
    /\ length buff' = length buff.
Proof.
  destruct (drain_buffer 0 buff (stack.NetworkHeader pkt)
              (stack.TransportHeader pkt) (stack.ToView (stack.Data pkt))
              ltac:(lia))
    as (C & P & L).
  cbv zeta in C, P, L.
  unfold Windows.WriteNotify, channel.Read.
  cbn [Windows.ep Windows.buff Windows.mtu Windows.Device_ Windows.Writer
       channel.outq channel.inbound].
  destruct (append buff (OnScratch 0) (stack.NetworkHeader pkt)) as [s1 g1].
  cbn [fst snd] in C, P, L.
  destruct (append s1 g1 (stack.TransportHeader pkt)) as [s2 g2].
  cbn [fst snd] in C, P, L.
  destruct (append s2 g2 (stack.ToView (stack.Data pkt))) as [s3 g3].
  cbn [fst snd] in C, P, L.
  exists s3. rewrite C. auto.
Qed.

Lemma call_Write_unknown (e : channel.Endpoint) (b : list byte) :
  known b = false ->
  Windows.call_Write e b = Some ((Z.of_nat (length b), None), e).
Proof.
  intros K. unfold Windows.call_Write.
  unfold known, header.IPv4Version, header.IPv6Version in K.
  apply orb_false_elim in K as [K4 K6].
  apply Z.eqb_neq in K4, K6.
  rewrite Write_run_other by assumption. destruct e. reflexivity.
Qed.

(** [Write] has one [return], and it returns the length and a nil error. *)
Lemma Write_result (b : list byte) (w w' : Go.world) (r : Z * Windows.error) :
  Windows.Write b w = Some (r, w') -> r = (Z.of_nat (length b), None).
Proof.
  unfold Windows.Write.
  rewrite (bind_run _ _ _ _ _ (copy_of_run _ _)).
  rewrite (bind_run _ _ _ _ _ (load_run _ _ _)).
  cbn [Go.s_len]. unfold Go.bind at 1.
  match goal with |- match ?c with _ => _ end = _ -> _ => destruct c as [[u w1]|] end.
  - unfold Go.ret. intros [= <- _]. reflexivity.
  - discriminate.
Qed.

(* ================================================================== *)
(** * The claims *)

(** C1. For every valid TCP or UDP segment in an IPv4 or IPv6 packet handed
    to the push-producer [Write], [Write] returns and has injected a packet
    [d] that is the input outside its checksum fields and whose transport
    checksum satisfies the round-trip law of the Internet checksum: the
    ones'-complement sum over the pseudo-header (addresses, protocol, length
    in the layout of the IP version), the transport header with the written
    checksum field and the payload is the all-ones value. *)
Theorem C1_transport_checksum_round_trip
    (e : channel.Endpoint) (b : list byte) :
  valid_segment b = true ->
  exists d,
    Windows.call_Write e b
    = Some ((Z.of_nat (length b), None),
            channel.InjectInbound e (fst (tagged b)) d)
    /\ length d = length b
    /\ (forall i, ~ In i (checksum_fields b) -> nth i d x00 = nth i b x00)
    /\ checksum.Checksum (pseudo_header d ++ segment d) 0 = 0xffff.
Proof.
  intros VS. exists (repaired b).
  pose proof VS as VS'. unfold valid_segment in VS'.
  apply andb_prop in VS' as [W _].
  destruct (repaired_frame b W) as [L N].
  split; [apply call_Write_run, W|].
  split; [exact L|]. split; [exact N|].
  apply repaired_segment_law, VS.
Qed.

Lemma C1_witness :
  valid_segment sample_udp4 = true
  /\ exists d,
       Windows.call_Write (channel.mkEndpoint [] []) sample_udp4
       = Some ((Z.of_nat (length sample_udp4), None),
               channel.InjectInbound (channel.mkEndpoint [] [])
                 (fst (tagged sample_udp4)) d)
       /\ length d = length sample_udp4
       /\ (forall i, ~ In i (checksum_fields sample_udp4) ->
                     nth i d x00 = nth i sample_udp4 x00)
       /\ checksum.Checksum (pseudo_header d ++ segment d) 0 = 0xffff.
Proof.
  split; [reflexivity|].
  apply (C1_transport_checksum_round_trip (channel.mkEndpoint [] [])
           sample_udp4).
  reflexivity.
Defined.



(** C3. A packet whose version nibble is neither 4 nor 6 is forwarded by
    none of the inbound paths: [Write] returns its length and a nil error
    with the endpoint untouched, and both pump loops go on to the next read
    with the endpoint untouched. *)
Theorem C3_unknown_version_dropped (buf : list byte) :
  known buf = false ->
  (forall e,
     Windows.call_Write e buf = Some ((Z.of_nat (length buf), None), e))
  /\ (forall size ev rest ep k,
        0 <= snd ev -> 4 + snd ev <= size -> read_packet 4 size ev = buf ->
        Unix.Attach_loop size (ok_event ev :: rest) ep k
        = Unix.Attach_loop size rest ep (S k))
  /\ (forall size ev rest ep k,
        0 <= snd ev -> snd ev <= size -> read_packet 0 size ev = buf ->
        Windows.Attach_loop size (ok_event ev :: rest) ep k
        = Windows.Attach_loop size rest ep (S k)).
Proof.
  intros K. split; [|split].
  - intros e. apply call_Write_unknown, K.
  - intros size ev rest ep k Hn Hs E.
    rewrite Unix_loop_ok by assumption. rewrite E.
    rewrite forward_unknown by exact K. reflexivity.
  - intros size ev rest ep k Hn Hs E.
    rewrite Windows_loop_ok by assumption. rewrite E.
    rewrite forward_unknown by exact K. reflexivity.
Qed.

Lemma C3_witness :
  known [x15; x00] = false
  /\ (forall e,
        Windows.call_Write e [x15; x00]
        = Some ((Z.of_nat (length [x15; x00]), None), e))
  /\ (forall size ev rest ep k,
        0 <= snd ev -> 4 + snd ev <= size ->
        read_packet 4 size ev = [x15; x00] ->
        Unix.Attach_loop size (ok_event ev :: rest) ep k
        = Unix.Attach_loop size rest ep (S k))
  /\ (forall size ev rest ep k,
        0 <= snd ev -> snd ev <= size ->
        read_packet 0 size ev = [x15; x00] ->
        Windows.Attach_loop size (ok_event ev :: rest) ep k
        = Windows.Attach_loop size rest ep (S k)).
Proof.
  split; [reflexivity|].
  apply (C3_unknown_version_dropped [x15; x00]). reflexivity.
Defined.



(** C5. When the device read succeeds K times and then fails, the pump has
    forwarded, in read order, the packets of the K reads minus those of
    unknown version, has left the loop on the error, and has issued K + 1
    reads and no more: the device events behind the error are never asked
    for.  This holds of the offset loop (when each packet fits behind the
    prefix) and of the direct loop. *)
Theorem C5_pump_stops_on_read_error (size : Z) (evs : list (list byte * Z))
    (rest : list ReadEvent) (ep : channel.Endpoint) :
  0 <= size ->
  Forall (fun ev => 0 <= snd ev /\ snd ev <= size) evs ->
  (Forall (fun ev => 4 + snd ev <= size) evs ->
   Unix.Attach_loop size (map ok_event evs ++ ReadErr :: rest) ep 0
   = mkPump Stopped (forward_all ep (map (read_packet 4 size) evs))
            (S (length evs)) rest
   /\ (length (forwarded (map (read_packet 4 size) evs))
       + length (filter (fun p => negb (known p))
                   (map (read_packet 4 size) evs))
       = length evs)%nat)
  /\ (Windows.Attach_loop size (map ok_event evs ++ ReadErr :: rest) ep 0
      = mkPump Stopped (forward_all ep (map (read_packet 0 size) evs))
               (S (length evs)) rest
      /\ (length (forwarded (map (read_packet 0 size) evs))
          + length (filter (fun p => negb (known p))
                      (map (read_packet 0 size) evs))
          = length evs)%nat).
Proof.
  intros Hs Hev. split.
  - intros H4. split.
    + rewrite Unix_loop_run; trivial.
      * rewrite Nat.add_0_r. reflexivity.
      * rewrite Forall_forall in *. intros ev Hin.
        specialize (Hev ev Hin). specialize (H4 ev Hin). cbv beta in *. lia.
    + rewrite forwarded_count. apply length_map.
  - split.
    + rewrite Windows_loop_run; trivial.
      rewrite Nat.add_0_r. reflexivity.
    + rewrite forwarded_count. apply length_map.
Qed.

Lemma C5_witness :
  0 <= 1504
  /\ Forall (fun ev => 0 <= snd ev /\ snd ev <= 1504) sample_reads
  /\ ((Forall (fun ev => 4 + snd ev <= 1504) sample_reads ->
       Unix.Attach_loop 1504
         (map ok_event sample_reads ++ ReadErr :: [ReadOk sample_udp4 32])
         (channel.mkEndpoint [] []) 0
       = mkPump Stopped
           (forward_all (channel.mkEndpoint [] [])
              (map (read_packet 4 1504) sample_reads))
           (S (length sample_reads)) [ReadOk sample_udp4 32]
       /\ (length (forwarded (map (read_packet 4 1504) sample_reads))
           + length (filter (fun p => negb (known p))
                       (map (read_packet 4 1504) sample_reads))
           = length sample_reads)%nat)
      /\ (Windows.Attach_loop 1504
            (map ok_event sample_reads ++ ReadErr :: [ReadOk sample_udp4 32])
            (channel.mkEndpoint [] []) 0
          = mkPump Stopped
              (forward_all (channel.mkEndpoint [] [])
                 (map (read_packet 0 1504) sample_reads))
              (S (length sample_reads)) [ReadOk sample_udp4 32]
          /\ (length (forwarded (map (read_packet 0 1504) sample_reads))
              + length (filter (fun p => negb (known p))
                          (map (read_packet 0 1504) sample_reads))
              = length sample_reads)%nat)).
Proof.
  split; [lia|].
  split; [repeat constructor; cbn [snd]; lia|].
  apply (C5_pump_stops_on_read_error 1504 sample_reads
           [ReadOk sample_udp4 32] (channel.mkEndpoint [] []));
    [lia | repeat constructor; cbn [snd]; lia].
Defined.

(** C6. On a spurious notification (the outbound queue is empty) the
    linux/darwin [WriteNotify] tests the result of [Read] and returns
    having done nothing; the windows [WriteNotify] has no such test and
    panics on the nil packet. *)
Theorem C6_spurious_notification
    (inb : list (Z * list byte)) (mtu : Z) (dev : Device)
    (buf : list byte) (wt : list (list byte * Z)) (wr : list (list byte)) :
  Unix.WriteNotify (Unix.mkEndpoint (channel.mkEndpoint inb []) mtu dev buf wt)
  = Some (Unix.mkEndpoint (channel.mkEndpoint inb []) mtu dev buf wt)
  /\ Windows.WriteNotify
       (Windows.mkEndpoint (channel.mkEndpoint inb []) dev wr mtu buf)
     = None.
Proof. split; reflexivity. Qed.



(** C8. For a packet dequeued by the outbound drain, the buffer written to
    the device is, in this order, the frame prefix (the first 4 bytes of the
    scratch buffer as they are for the offset variant, nothing for the
    direct-write variant), the network header, the transport header and the
    flattened data of that packet; the prefix bytes of the scratch buffer
    are left as they were. *)
Theorem C8_drain_writes_concatenation
    (inb : list (Z * list byte)) (pkt : stack.PacketBuffer)
    (q : list stack.PacketBuffer) (mtu : Z) (dev : Device)
    (buf buff : list byte) (wt : list (list byte * Z))
    (wr : list (list byte)) :
  (4 <= length buf)%nat ->
  (exists buf',
     Unix.WriteNotify
       (Unix.mkEndpoint (channel.mkEndpoint inb (pkt :: q)) mtu dev buf wt)
     = Some (Unix.mkEndpoint (channel.mkEndpoint inb q) mtu dev buf'
               (wt ++ [(firstn 4 buf ++ stack.NetworkHeader pkt
                          ++ stack.TransportHeader pkt
                          ++ stack.ToView (stack.Data pkt), 4)]))
     /\ firstn 4 buf' = firstn 4 buf /\ length buf' = length buf)
  /\ (exists buff',
        Windows.WriteNotify
          (Windows.mkEndpoint (channel.mkEndpoint inb (pkt :: q)) dev wr mtu buff)
        = Some (Windows.mkEndpoint (channel.mkEndpoint inb q) dev
                  (wr ++ [stack.NetworkHeader pkt ++ stack.TransportHeader pkt
                            ++ stack.ToView (stack.Data pkt)])
                  mtu buff')
        /\ length buff' = length buff).
Proof.
  intros H. split.
  - apply Unix_WriteNotify_run, H.
  - apply Windows_WriteNotify_run.
Qed.

Lemma C8_witness :
  (4 <= length (repeat x00 44))%nat
  /\ (exists buf',
        Unix.WriteNotify
          (Unix.mkEndpoint (channel.mkEndpoint [] [sample_out]) 40
             (mkDevice false false false true true) (repeat x00 44) [])
        = Some (Unix.mkEndpoint (channel.mkEndpoint [] []) 40
                  (mkDevice false false false true true) buf'
                  ([] ++ [(firstn 4 (repeat x00 44)
                             ++ stack.NetworkHeader sample_out
                             ++ stack.TransportHeader sample_out
                             ++ stack.ToView (stack.Data sample_out), 4)]))
        /\ firstn 4 buf' = firstn 4 (repeat x00 44)
        /\ length buf' = length (repeat x00 44))
  /\ (exists buff',
        Windows.WriteNotify
          (Windows.mkEndpoint (channel.mkEndpoint [] [sample_out])
             (mkDevice false false false true true) [] 40 (repeat x00 40))
        = Some (Windows.mkEndpoint (channel.mkEndpoint [] [])
                  (mkDevice false false false true true)
                  ([] ++ [stack.NetworkHeader sample_out
                            ++ stack.TransportHeader sample_out
                            ++ stack.ToView (stack.Data sample_out)])
                  40 buff')
        /\ length buff' = length (repeat x00 40)).
Proof.
  split; [simpl; lia|].
  apply (C8_drain_writes_concatenation [] sample_out [] 40
           (mkDevice false false false true true)
           (repeat x00 44) (repeat x00 40) [] []).
  simpl; lia.
Defined.

(** C9, as the code has it. Each build knows its own variants only.  In
    the linux/darwin build a device that is not of the offset read/write
    variant makes construction or attachment panic, and in the windows
    build a device that is neither of the direct-read nor of the
    push-producer variant does; no goroutine is left running.  So a device
    of none of the three variants fails in either build.  With a
    non-negative MTU, a device of the offset variant is constructed and
    attached by the linux/darwin build, which starts the offset read loop,
    and a device of the direct-read or of the push-producer variant by the
    windows build, which starts the direct read loop or the push
    producer. *)
Theorem C9_capability_mismatch (dev : Device) (mtu : Z) :
  0 <= mtu ->
  let unix_setup :=
    match Unix.NewEndpoint dev mtu with
    | Some e => Unix.Attach e
    | None => None
    end in
  let windows_setup :=
    match Windows.NewEndpoint dev mtu with
    | Some e => Windows.Attach e
    | None => None
    end in
  (implReaderOffset dev && implWriterOffset dev = false -> unix_setup = None)
  /\ (implReader dev = false -> implWriterTo dev = false ->
      windows_setup = None)
  /\ (implReaderOffset dev && implWriterOffset dev = true ->
      unix_setup = Some (ReadLoop 4 (4 + mtu)))
  /\ (implWriter dev && implReader dev = true ->
      windows_setup = Some (ReadLoop 0 (mtu + 4)))
  /\ (implWriter dev && implWriterTo dev = true -> implReader dev = false ->
      windows_setup = Some PushProducer).
Proof.
  intros Hm. cbv zeta.
  unfold Unix.NewEndpoint, Windows.NewEndpoint, Unix.Attach, Windows.Attach.
  rewrite (proj2 (Z.ltb_ge (4 + mtu) 0)) by lia.
  rewrite (proj2 (Z.ltb_ge mtu 0)) by lia.
  destruct dev as [w r wto ro wo]. cbn [implWriter implReader implWriterTo
    implReaderOffset implWriterOffset].
  destruct w, r, wto, ro, wo; cbn; repeat split; intros; congruence.
Qed.

Lemma C9_witness :
  0 <= 1500
  /\ (let unix_setup :=
        match Unix.NewEndpoint (mkDevice true false false false false) 1500 with
        | Some e => Unix.Attach e
        | None => None
        end in
      let windows_setup :=
        match Windows.NewEndpoint (mkDevice true false false false false) 1500 with
        | Some e => Windows.Attach e
        | None => None
        end in
      (implReaderOffset (mkDevice true false false false false)
       && implWriterOffset (mkDevice true false false false false) = false ->
       unix_setup = None)
      /\ (implReader (mkDevice true false false false false) = false ->
          implWriterTo (mkDevice true false false false false) = false ->
          windows_setup = None)
      /\ (implReaderOffset (mkDevice true false false false false)
          && implWriterOffset (mkDevice true false false false false) = true ->
          unix_setup = Some (ReadLoop 4 (4 + 1500)))
      /\ (implWriter (mkDevice true false false false false)
          && implReader (mkDevice true false false false false) = true ->
          windows_setup = Some (ReadLoop 0 (1500 + 4)))
      /\ (implWriter (mkDevice true false false false false)
          && implWriterTo (mkDevice true false false false false) = true ->
          implReader (mkDevice true false false false false) = false ->
          windows_setup = Some PushProducer)).
Proof.
  split; [lia|].
  apply (C9_capability_mismatch (mkDevice true false false false false) 1500).
  lia.
Defined.




(** C9, as the claim has it ("a device that does match a variant" is
    constructed and attached), fails in each build for the variants of the
    other one: the windows build panics in [Attach] on a device of the
    offset variant, the linux/darwin build in [NewEndpoint] on a device of
    the direct-read and push-producer variants. *)
Lemma C9_counterexample :
  match Windows.NewEndpoint (mkDevice true false false true true) 1500 with
  | Some e => Windows.Attach e
  | None => None
  end = None
  /\ match Unix.NewEndpoint (mkDevice true true true false false) 1500 with
     | Some e => Unix.Attach e
     | None => None
     end = None.
Proof. split; reflexivity. Qed.

(* ================================================================== *)
(** * More of the code: panics, stale checksums, runs *)

(** ** [Write] as a function of its input *)

Lemma bind_panic {A B} (c : Go.M A) (k : A -> Go.M B) (w : Go.world) :
  c w = None -> Go.bind c k w = None.
Proof. intros E. unfold Go.bind. rewrite E. reflexivity. Qed.

(** The computation at the head of the bind chain panics, by the lemma
    [L]. *)
Ltac crash_with L side :=
  first [ rewrite bind_panic by (apply L; side)
        | rewrite bind_assoc; crash_with L side ].

Ltac crash L := crash_with L ltac:(lia).

Ltac tests_false :=
  cbn [Go.s_len Go.s_cap Go.s_off Go.mem Go.chan andb];
  repeat match goal with
  | |- context [(?a <=? ?b)%nat] =>
      first [ rewrite (proj2 (Nat.leb_le a b)) by lia
            | rewrite (proj2 (Nat.leb_gt a b)) by lia ];
      cbn [Go.s_len Go.s_cap Go.s_off Go.mem Go.chan andb]
  | |- context [(?a <? ?b)%nat] =>
      first [ rewrite (proj2 (Nat.ltb_lt a b)) by lia
            | rewrite (proj2 (Nat.ltb_ge a b)) by lia ];
      cbn [Go.s_len Go.s_cap Go.s_off Go.mem Go.chan andb]
  end.

Ltac panic_prim :=
  unfold Go.bind, Go.index, Go.from, Go.upto, Go.range, Go.load, Go.Uint16,
    Go.PutUint16, Go.ret, Go.panic;
  tests_false;
  repeat match goal with
  | |- context [(?a <=? ?b)%nat] =>
      destruct (Nat.leb_spec a b);
      cbn [Go.s_len Go.s_cap Go.s_off Go.mem Go.chan andb]; tests_false
  end.

Section AccessorPanics.
Import Go.
Variables (m : list byte) (c : channel.Endpoint).

Lemma IPv4_SetChecksum_panic (n : nat) (v : Z) :
  (n < 12)%nat ->
  header.IPv4.SetChecksum (mkSlice 0 n n) v (mkWorld m c) = None.
Proof.
  intros H. unfold header.IPv4.SetChecksum. panic_prim; reflexivity.
Qed.

Lemma IPv4_CalculateChecksum_panic (n : nat) :
  (1 <= n)%nat -> (n < ihl m)%nat ->
  header.IPv4.CalculateChecksum (mkSlice 0 n n) (mkWorld m c) = None.
Proof.
  intros H1 H2. unfold header.IPv4.CalculateChecksum.
  rewrite (bind_run _ _ _ _ _ (IPv4_HeaderLength_run m c n ltac:(lia))).
  fold (ihl m). panic_prim. reflexivity.
Qed.

Lemma IPv4_Payload_panic (n : nat) :
  (4 <= n)%nat -> (n < ihl m + payload_len4 m)%nat ->
  header.IPv4.Payload (mkSlice 0 n n) (mkWorld m c) = None.
Proof.
  intros H1 H2. unfold header.IPv4.Payload.
  rewrite (bind_run _ _ _ _ _ (IPv4_HeaderLength_run m c n ltac:(lia))).
  fold (ihl m).
  destruct (Nat.le_gt_cases (ihl m) n).
  - unfold bind at 1. unfold from at 1. tests. unfold ret at 1.
    rewrite (bind_run _ _ _ _ _ (IPv4_PayloadLength_run m c n ltac:(lia))).
    fold (payload_len4 m). panic_prim. reflexivity.
  - panic_prim. reflexivity.
Qed.

Lemma IPv4_DestinationAddress_panic (n : nat) :
  (n < 20)%nat ->
  header.IPv4.DestinationAddress (mkSlice 0 n n) (mkWorld m c) = None.
Proof.
  intros H. unfold header.IPv4.DestinationAddress. panic_prim. reflexivity.
Qed.

Lemma IPv6_TransportProtocol_panic (n : nat) :
  (n < 7)%nat ->
  header.IPv6.TransportProtocol (mkSlice 0 n n) (mkWorld m c) = None.
Proof.
  intros H. unfold header.IPv6.TransportProtocol. panic_prim. reflexivity.
Qed.

Lemma IPv6_Payload_panic (n : nat) :
  (6 <= n)%nat -> (n < 40 + payload_len6 m)%nat ->
  header.IPv6.Payload (mkSlice 0 n n) (mkWorld m c) = None.
Proof.
  intros H1 H2. unfold header.IPv6.Payload, header.IPv6MinimumSize.
  destruct (Nat.le_gt_cases 40 n).
  - unfold bind at 1. unfold from at 1. tests. unfold ret at 1.
    rewrite (bind_run _ _ _ _ _ (IPv6_PayloadLength_run m c n ltac:(lia))).
    fold (payload_len6 m). panic_prim. reflexivity.
  - panic_prim. reflexivity.
Qed.

(** A UDP header that does not fit: [hdr.Length()] or [hdr.Payload()]
    panics, whatever comes after them. *)
Lemma udp_short_panic {A} (off len cap : nat) (k : Z -> slice -> M A) :
  (len < 8)%nat ->
  (l <- header.UDP.Length (mkSlice off len cap) ;;
   pl <- header.UDP.Payload (mkSlice off len cap) ;;
   k l pl) (mkWorld m c) = None.
Proof.
  intros H. destruct (Nat.le_gt_cases 6 len).
  - rewrite (bind_run _ _ _ _ _ (UDP_Length_run m c off len cap ltac:(lia))).
    apply bind_panic. unfold header.UDP.Payload, header.UDPMinimumSize.
    panic_prim. reflexivity.
  - apply bind_panic. unfold header.UDP.Length. panic_prim; reflexivity.
Qed.

(** A TCP header whose data offset or checksum field does not fit:
    [hdr.Payload()] or [hdr.SetChecksum(0)] panics. *)
Lemma tcp_short_panic {A} (off len cap : nat)
    (k : list byte -> M A) :
  (len < 18 \/ len < data_offset_at m off)%nat ->
  (pl <- header.TCP.Payload (mkSlice off len cap) ;;
   data <- load pl ;;
   header.TCP.SetChecksum (mkSlice off len cap) 0 ;;;
   k data) (mkWorld m c) = None.
Proof.
  intros H. destruct (Nat.le_gt_cases 13 len).
  - destruct (Nat.le_gt_cases (data_offset_at m off) len).
    + rewrite (bind_run _ _ _ _ _
                 (TCP_Payload_run m c off len cap ltac:(lia) ltac:(lia))).
      rewrite (bind_run _ _ _ _ _ (load_run _ _ _)).
      apply bind_panic. unfold header.TCP.SetChecksum.
      panic_prim; reflexivity.
    + apply bind_panic. unfold header.TCP.Payload.
      rewrite (bind_run _ _ _ _ _ (TCP_DataOffset_run m c off len cap ltac:(lia))).
      fold (data_offset_at m off). panic_prim. reflexivity.
  - apply bind_panic. unfold header.TCP.Payload.
    apply bind_panic. unfold header.TCP.DataOffset. panic_prim. reflexivity.
Qed.
End AccessorPanics.

Lemma fix4_data_offset (b : list byte) (off : nat) :
  (12 <= length b)%nat ->
  data_offset_at (fix_ipv4_header b) off = data_offset_at b off.
Proof.
  intros H. unfold data_offset_at, data_offset_z.
  rewrite fix4_byte_at by lia. reflexivity.
Qed.

(** [Write] on the buffers that keep it in bounds, branch by branch. *)
Section WriteInBounds.
Variables (b : list byte) (w : Go.world).

Section B4.
Hypothesis V : header.IPVersion b = 4.
Hypothesis H12 : (12 <= length b)%nat.
Hypothesis Hh : (ihl b <= length b)%nat.

Lemma Write_ok_udp4 :
  byte_at b 9 = 17 ->
  (ihl b + payload_len4 b <= length b)%nat -> (20 <= length b)%nat ->
  (8 <= payload_len4 b)%nat ->
  Windows.Write b w
  = Some ((Z.of_nat (length b), None),
          Go.mkWorld (repaired b)
            (channel.InjectInbound (Go.chan w) header.IPv4ProtocolNumber
               (repaired b))).
Proof.
  intros P Hp H20 F.
  enter_Write. rewrite V.
  change (4 =? header.IPv4Version) with true. cbv iota.
  ipv4_start b. rewrite P.
  change (17 =? header.UDPProtocolNumber) with true. cbv iota.
  step_with IPv4_Payload_run ltac:(fix4_facts; lia). fix4_facts.
  step IPv4_DestinationAddress_run. step IPv4_SourceAddress_run.
  step UDP_Length_run. step udp_tail_run.
  step_with InjectInbound_run_n
    ltac:(rewrite fix_udp_length; fix4_facts; lia).
  unfold repaired. rewrite V.
  change (4 =? 4) with true. cbv iota zeta.
  rewrite (fix4_byte_at b) by lia. rewrite P.
  change (17 =? header.UDPProtocolNumber) with true. cbv iota.
  fix4_facts. reflexivity.
Qed.

Lemma Write_ok_tcp4 :
  byte_at b 9 = 6 ->
  (ihl b + payload_len4 b <= length b)%nat -> (20 <= length b)%nat ->
  (18 <= payload_len4 b)%nat ->
  (data_offset_at b (ihl b) <= payload_len4 b)%nat ->
  Windows.Write b w
  = Some ((Z.of_nat (length b), None),
          Go.mkWorld (repaired b)
            (channel.InjectInbound (Go.chan w) header.IPv4ProtocolNumber
               (repaired b))).
Proof.
  intros P Hp H20 F1 F2.
  enter_Write. rewrite V.
  change (4 =? header.IPv4Version) with true. cbv iota.
  ipv4_start b. rewrite P.
  change (6 =? header.UDPProtocolNumber) with false.
  change (6 =? header.TCPProtocolNumber) with true. cbv iota.
  step_with IPv4_Payload_run ltac:(fix4_facts; lia). fix4_facts.
  step IPv4_DestinationAddress_run. step IPv4_SourceAddress_run.
  step IPv4_PayloadLength_run.
  step_with tcp_tail_run
    ltac:(rewrite ?fix4_data_offset by lia; fix4_facts; lia).
  step_with InjectInbound_run_n
    ltac:(rewrite fix_tcp_length; fix4_facts; lia).
  unfold repaired. rewrite V.
  change (4 =? 4) with true. cbv iota zeta.
  rewrite (fix4_byte_at b) by lia. rewrite P.
  change (6 =? header.UDPProtocolNumber) with false.
  change (6 =? header.TCPProtocolNumber) with true. cbv iota.
  fix4_facts. reflexivity.
Qed.

Lemma Write_ok_plain4 :
  byte_at b 9 <> 17 -> byte_at b 9 <> 6 ->
  Windows.Write b w
  = Some ((Z.of_nat (length b), None),
          Go.mkWorld (fix_ipv4_header b)
            (channel.InjectInbound (Go.chan w) header.IPv4ProtocolNumber
               (fix_ipv4_header b)))
  /\ repaired b = fix_ipv4_header b.
Proof.
  intros P1 P2.
  assert (R : repaired b = fix_ipv4_header b).
  { unfold repaired. rewrite V.
    change (4 =? 4) with true. cbv iota zeta.
    rewrite (fix4_byte_at b) by lia.
    unfold header.UDPProtocolNumber, header.TCPProtocolNumber.
    destruct (Z.eqb_spec (byte_at b 9) 17); [contradiction|].
    destruct (Z.eqb_spec (byte_at b 9) 6); [contradiction|].
    reflexivity. }
  split; [|exact R].
  enter_Write. rewrite V.
  change (4 =? header.IPv4Version) with true. cbv iota.
  ipv4_start b.
  unfold header.UDPProtocolNumber, header.TCPProtocolNumber.
  destruct (Z.eqb_spec (byte_at b 9) 17); [contradiction|].
  destruct (Z.eqb_spec (byte_at b 9) 6); [contradiction|].
  step_with InjectInbound_run_n ltac:(fix4_facts; lia).
  reflexivity.
Qed.

(** The panics of the IPv4 branch behind the header checksum. *)
Lemma Write_panic_segment4 :
  byte_at b 9 = 17 \/ byte_at b 9 = 6 ->
  (length b < ihl b + payload_len4 b \/ length b < 20
   \/ header_in_bounds (byte_at b 9) b (ihl b) (payload_len4 b) = false)%nat ->
  Windows.Write b w = None.
Proof.
  intros P Hbad.
  enter_Write. rewrite V.
  change (4 =? header.IPv4Version) with true. cbv iota.
  ipv4_start b.
  destruct (Nat.le_gt_cases (ihl b + payload_len4 b) (length b)) as [Hp|Hp].
  2:{ destruct P as [P|P]; rewrite P.
      - change (17 =? header.UDPProtocolNumber) with true. cbv iota.
        crash_with IPv4_Payload_panic ltac:(fix4_facts; lia).
        reflexivity.
      - change (6 =? header.UDPProtocolNumber) with false.
        change (6 =? header.TCPProtocolNumber) with true. cbv iota.
        crash_with IPv4_Payload_panic ltac:(fix4_facts; lia).
        reflexivity. }
  destruct (Nat.le_gt_cases 20 (length b)) as [H20|H20].
  2:{ destruct P as [P|P]; rewrite P.
      - change (17 =? header.UDPProtocolNumber) with true. cbv iota.
        step_with IPv4_Payload_run ltac:(fix4_facts; lia).
        crash IPv4_DestinationAddress_panic. reflexivity.
      - change (6 =? header.UDPProtocolNumber) with false.
        change (6 =? header.TCPProtocolNumber) with true. cbv iota.
        step_with IPv4_Payload_run ltac:(fix4_facts; lia).
        crash IPv4_DestinationAddress_panic. reflexivity. }
  destruct Hbad as [Hbad|[Hbad|Hbad]]; try lia.
  unfold header_in_bounds in Hbad.
  destruct P as [P|P]; rewrite P in *.
  - change (17 =? header.UDPProtocolNumber) with true in *. cbv iota in *.
    apply Nat.leb_gt in Hbad.
    step_with IPv4_Payload_run ltac:(fix4_facts; lia). fix4_facts.
    step IPv4_DestinationAddress_run. step IPv4_SourceAddress_run.
    crash udp_short_panic. reflexivity.
  - change (6 =? header.UDPProtocolNumber) with false in *.
    change (6 =? header.TCPProtocolNumber) with true. cbv iota in *.
    apply andb_false_iff in Hbad. rewrite !Nat.leb_gt in Hbad.
    step_with IPv4_Payload_run ltac:(fix4_facts; lia). fix4_facts.
    step IPv4_DestinationAddress_run. step IPv4_SourceAddress_run.
    step IPv4_PayloadLength_run.
    crash_with tcp_short_panic ltac:(rewrite ?fix4_data_offset by lia; lia).
    reflexivity.
Qed.
End B4.

Lemma Write_panic_header4 :
  header.IPVersion b = 4 ->
  (length b < 12 \/ length b < ihl b)%nat ->
  Windows.Write b w = None.
Proof.
  intros V Hbad.
  enter_Write. rewrite V.
  change (4 =? header.IPv4Version) with true. cbv iota.
  destruct (Nat.le_gt_cases 12 (length b)) as [H12|H12].
  - step IPv4_SetChecksum_run.
    crash_with IPv4_CalculateChecksum_panic
      ltac:(rewrite ?ihl_store_zero by lia; solve_len).
    reflexivity.
  - crash IPv4_SetChecksum_panic. reflexivity.
Qed.
End WriteInBounds.

Section WriteInBounds6.
Variables (b : list byte) (w : Go.world).
Hypothesis V : header.IPVersion b = 6.

Lemma Write_ok_udp6 :
  byte_at b 6 = 17 ->
  (40 + payload_len6 b <= length b)%nat -> (8 <= payload_len6 b)%nat ->
  Windows.Write b w
  = Some ((Z.of_nat (length b), None),
          Go.mkWorld (repaired b)
            (channel.InjectInbound (Go.chan w) header.IPv6ProtocolNumber
               (repaired b))).
Proof.
  intros P Hp F.
  enter_Write. rewrite V.
  change (6 =? header.IPv4Version) with false.
  change (6 =? header.IPv6Version) with true. cbv iota.
  step IPv6_TransportProtocol_run. rewrite P.
  change (17 =? header.UDPProtocolNumber) with true. cbv iota.
  step IPv6_Payload_run.
  step IPv6_DestinationAddress_run. step IPv6_SourceAddress_run.
  step UDP_Length_run. step udp_tail_run.
  step_with InjectInbound_run_n ltac:(rewrite fix_udp_length; lia).
  unfold repaired. rewrite V.
  change (6 =? 4) with false. change (6 =? 6) with true. cbv iota.
  rewrite P.
  change (17 =? header.UDPProtocolNumber) with true. cbv iota.
  reflexivity.
Qed.

Lemma Write_ok_tcp6 :
  byte_at b 6 = 6 ->
  (40 + payload_len6 b <= length b)%nat ->
  (18 <= payload_len6 b)%nat ->
  (data_offset_at b 40 <= payload_len6 b)%nat ->
  Windows.Write b w
  = Some ((Z.of_nat (length b), None),
          Go.mkWorld (repaired b)
            (channel.InjectInbound (Go.chan w) header.IPv6ProtocolNumber
               (repaired b))).
Proof.
  intros P Hp F1 F2.
  enter_Write. rewrite V.
  change (6 =? header.IPv4Version) with false.
  change (6 =? header.IPv6Version) with true. cbv iota.
  step IPv6_TransportProtocol_run. rewrite P.
  change (6 =? header.UDPProtocolNumber) with false.
  change (6 =? header.TCPProtocolNumber) with true. cbv iota.
  step IPv6_Payload_run.
  step IPv6_DestinationAddress_run. step IPv6_SourceAddress_run.
  step IPv6_PayloadLength_run.
  step tcp_tail_run.
  step_with InjectInbound_run_n ltac:(rewrite fix_tcp_length; lia).
  unfold repaired. rewrite V.
  change (6 =? 4) with false. change (6 =? 6) with true. cbv iota.
  rewrite P.
  change (6 =? header.UDPProtocolNumber) with false.
  change (6 =? header.TCPProtocolNumber) with true. cbv iota.
  reflexivity.
Qed.

Lemma Write_ok_plain6 :
  (7 <= length b)%nat -> byte_at b 6 <> 17 -> byte_at b 6 <> 6 ->
  Windows.Write b w
  = Some ((Z.of_nat (length b), None),
          Go.mkWorld b
            (channel.InjectInbound (Go.chan w) header.IPv6ProtocolNumber b))
  /\ repaired b = b.
Proof.
  intros H7 P1 P2.
  assert (R : repaired b = b).
  { unfold repaired. rewrite V.
    change (6 =? 4) with false. change (6 =? 6) with true. cbv iota.
    unfold header.UDPProtocolNumber, header.TCPProtocolNumber.
    destruct (Z.eqb_spec (byte_at b 6) 17); [contradiction|].
    destruct (Z.eqb_spec (byte_at b 6) 6); [contradiction|].
    reflexivity. }
  split; [|exact R].
  enter_Write. rewrite V.
  change (6 =? header.IPv4Version) with false.
  change (6 =? header.IPv6Version) with true. cbv iota.
  step IPv6_TransportProtocol_run.
  unfold header.UDPProtocolNumber, header.TCPProtocolNumber.
  destruct (Z.eqb_spec (byte_at b 6) 17); [contradiction|].
  destruct (Z.eqb_spec (byte_at b 6) 6); [contradiction|].
  step InjectInbound_run_n.
  reflexivity.
Qed.

Lemma Write_panic_header6 :
  (length b < 7)%nat -> Windows.Write b w = None.
Proof.
  intros H.
  enter_Write. rewrite V.
  change (6 =? header.IPv4Version) with false.
  change (6 =? header.IPv6Version) with true. cbv iota.
  crash IPv6_TransportProtocol_panic. reflexivity.
Qed.

Lemma Write_panic_segment6 :
  (7 <= length b)%nat ->
  byte_at b 6 = 17 \/ byte_at b 6 = 6 ->
  (length b < 40 + payload_len6 b
   \/ header_in_bounds (byte_at b 6) b 40 (payload_len6 b) = false)%nat ->
  Windows.Write b w = None.
Proof.
  intros H7 P Hbad.
  enter_Write. rewrite V.
  change (6 =? header.IPv4Version) with false.
  change (6 =? header.IPv6Version) with true. cbv iota.
  step IPv6_TransportProtocol_run.
  destruct (Nat.le_gt_cases (40 + payload_len6 b) (length b)) as [Hp|Hp].
  2:{ destruct P as [P|P]; rewrite P.
      - change (17 =? header.UDPProtocolNumber) with true. cbv iota.
        crash IPv6_Payload_panic. reflexivity.
      - change (6 =? header.UDPProtocolNumber) with false.
        change (6 =? header.TCPProtocolNumber) with true. cbv iota.
        crash IPv6_Payload_panic. reflexivity. }
  destruct Hbad as [Hbad|Hbad]; try lia.
  unfold header_in_bounds in Hbad.
  destruct P as [P|P]; rewrite P in *.
  - change (17 =? header.UDPProtocolNumber) with true in *. cbv iota in *.
    apply Nat.leb_gt in Hbad.
    step IPv6_Payload_run.
    step IPv6_DestinationAddress_run. step IPv6_SourceAddress_run.
    crash udp_short_panic. reflexivity.
  - change (6 =? header.UDPProtocolNumber) with false in *.
    change (6 =? header.TCPProtocolNumber) with true. cbv iota in *.
    apply andb_false_iff in Hbad. rewrite !Nat.leb_gt in Hbad.
    step IPv6_Payload_run.
    step IPv6_DestinationAddress_run. step IPv6_SourceAddress_run.
    step IPv6_PayloadLength_run.
    crash tcp_short_panic. reflexivity.
Qed.
End WriteInBounds6.

(** [Write] is this function of its input: a panic outside [in_bounds],
    and inside it the length, a nil error, and the repaired bytes injected
    under the protocol number of the version (nothing for an unknown
    version). *)
Lemma Write_exact (b : list byte) (w : Go.world) :
  Windows.Write b w
  = if in_bounds b
    then Some ((Z.of_nat (length b), None),
               Go.mkWorld (repaired b)
                 (if known b
                  then channel.InjectInbound (Go.chan w) (fst (tagged b))
                         (repaired b)
                  else Go.chan w))
    else None.
Proof.
  unfold in_bounds, known, tagged, fst, header.IPv4Version,
    header.IPv6Version.
  destruct (Z.eqb_spec (header.IPVersion b) 4) as [V|N4].
  - cbn [orb].
    destruct (Nat.leb_spec 12 (length b)) as [H12|H12];
      [|cbn [andb]; apply Write_panic_header4; trivial; lia].
    destruct (Nat.leb_spec (ihl b) (length b)) as [Hh|Hh];
      [|cbn [andb]; apply Write_panic_header4; trivial; lia].
    cbn [andb].
    unfold header.UDPProtocolNumber, header.TCPProtocolNumber.
    destruct (Z.eqb_spec (byte_at b 9) 17) as [P|P1].
    + cbn [orb].
      destruct (Nat.leb_spec (ihl b + payload_len4 b) (length b)) as [Hp|Hp];
        [|cbn [andb]; apply Write_panic_segment4; trivial; [left; exact P|lia]].
      destruct (Nat.leb_spec 20 (length b)) as [H20|H20];
        [|cbn [andb]; apply Write_panic_segment4; trivial; [left; exact P|lia]].
      cbn [andb].
      destruct (header_in_bounds (byte_at b 9) b (ihl b) (payload_len4 b))
        eqn:F;
        [|apply Write_panic_segment4; trivial; [left; exact P|auto]].
      unfold header_in_bounds in F. rewrite P in F.
      change (17 =? header.UDPProtocolNumber) with true in F. cbv iota in F.
      apply Nat.leb_le in F. apply Write_ok_udp4; trivial.
    + destruct (Z.eqb_spec (byte_at b 9) 6) as [P|P2].
      * cbn [orb].
        destruct (Nat.leb_spec (ihl b + payload_len4 b) (length b)) as [Hp|Hp];
          [|cbn [andb]; apply Write_panic_segment4; trivial;
            [right; exact P|lia]].
        destruct (Nat.leb_spec 20 (length b)) as [H20|H20];
          [|cbn [andb]; apply Write_panic_segment4; trivial;
            [right; exact P|lia]].
        cbn [andb].
        destruct (header_in_bounds (byte_at b 9) b (ihl b) (payload_len4 b))
          eqn:F;
          [|apply Write_panic_segment4; trivial; [right; exact P|auto]].
        unfold header_in_bounds in F. rewrite P in F.
        change (6 =? header.UDPProtocolNumber) with false in F.
        cbv iota in F. apply andb_prop in F as [F1 F2].
        apply Nat.leb_le in F1, F2. apply Write_ok_tcp4; trivial.
      * cbn [orb].
        destruct (Write_ok_plain4 b w V H12 Hh P1 P2) as [E R].
        rewrite R. exact E.
  - destruct (Z.eqb_spec (header.IPVersion b) 6) as [V|N6].
    + cbn [orb].
      destruct (Nat.leb_spec 7 (length b)) as [H7|H7];
        [|cbn [andb]; apply Write_panic_header6; trivial].
      cbn [andb].
      unfold header.UDPProtocolNumber, header.TCPProtocolNumber.
      destruct (Z.eqb_spec (byte_at b 6) 17) as [P|P1].
      * cbn [orb].
        destruct (Nat.leb_spec (40 + payload_len6 b) (length b)) as [Hp|Hp];
          [|cbn [andb]; apply Write_panic_segment6; trivial;
            [left; exact P|lia]].
        cbn [andb].
        destruct (header_in_bounds (byte_at b 6) b 40 (payload_len6 b)) eqn:F;
          [|apply Write_panic_segment6; trivial; [left; exact P|auto]].
        unfold header_in_bounds in F. rewrite P in F.
        change (17 =? header.UDPProtocolNumber) with true in F. cbv iota in F.
        apply Nat.leb_le in F. apply Write_ok_udp6; trivial.
      * destruct (Z.eqb_spec (byte_at b 6) 6) as [P|P2].
        -- cbn [orb].
           destruct (Nat.leb_spec (40 + payload_len6 b) (length b)) as [Hp|Hp];
             [|cbn [andb]; apply Write_panic_segment6; trivial;
               [right; exact P|lia]].
           cbn [andb].
           destruct (header_in_bounds (byte_at b 6) b 40 (payload_len6 b))
             eqn:F;
             [|apply Write_panic_segment6; trivial; [right; exact P|auto]].
           unfold header_in_bounds in F. rewrite P in F.
           change (6 =? header.UDPProtocolNumber) with false in F.
           cbv iota in F. apply andb_prop in F as [F1 F2].
           apply Nat.leb_le in F1, F2. apply Write_ok_tcp6; trivial.
        -- cbn [orb].
           destruct (Write_ok_plain6 b w V H7 P1 P2) as [E R].
           rewrite R. exact E.
    + cbn [orb]. rewrite Write_run_other by assumption.
      unfold repaired.
      destruct (Z.eqb_spec (header.IPVersion b) 4); [contradiction|].
      destruct (Z.eqb_spec (header.IPVersion b) 6); [contradiction|].
      reflexivity.
Qed.

(** ** The incoming checksums do not matter *)

Lemma store_ext (off : nat) (bs m m' : list byte) :
  length m' = length m -> (off + length bs <= length m)%nat ->
  (forall i, (i < off \/ off + length bs <= i)%nat ->
             nth i m' x00 = nth i m x00) ->
  store off bs m' = store off bs m.
Proof.
  intros L H E. apply nth_ext with (d := x00) (d' := x00).
  - rewrite !store_length; lia.
  - intros i _. rewrite !nth_store by lia.
    destruct (Nat.ltb_spec i off); [apply E; lia|].
    destruct (Nat.ltb_spec i (off + length bs)); [reflexivity|apply E; lia].
Qed.

(** The header checksum that is written depends on the header outside its
    checksum field only. *)
Lemma fix4_ext (b b' : list byte) :
  (12 <= length b)%nat -> (ihl b <= length b)%nat -> length b' = length b ->
  (forall i, (i < ihl b)%nat -> i <> 10%nat -> i <> 11%nat ->
             nth i b' x00 = nth i b x00) ->
  ihl b' = ihl b ->
  forall i, (i = 10 \/ i = 11)%nat ->
            nth i (fix_ipv4_header b') x00 = nth i (fix_ipv4_header b) x00.
Proof.
  intros H12 Hh L E EI i Hi.
  unfold fix_ipv4_header. cbv zeta.
  rewrite !ihl_store_zero by lia. rewrite EI.
  assert (S0 : firstn (ihl b) (store 10 (be16 0) b')
               = firstn (ihl b) (store 10 (be16 0) b)).
  { change (sub (store 10 (be16 0) b') 0 (ihl b)
            = sub (store 10 (be16 0) b) 0 (ihl b)).
    apply sub_ext; try solve_len.
    intros j Hj. rewrite !nth_store by solve_len. rewrite length_be16.
    destruct (Nat.ltb_spec j 10); [apply E; lia|].
    destruct (Nat.ltb_spec j (10 + 2)); [reflexivity|apply E; lia]. }
  rewrite S0. rewrite !nth_store by solve_len. rewrite !length_be16.
  destruct (Nat.ltb_spec i 10); [lia|].
  destruct (Nat.ltb_spec i (10 + 2)); [reflexivity|lia].
Qed.

Lemma fix_udp_ext (off len : nat) (ps : Z) (m m' : list byte) :
  length m' = length m -> (off + len <= length m)%nat -> (8 <= len)%nat ->
  (forall i, (i < off + 6 \/ off + 8 <= i)%nat ->
             nth i m' x00 = nth i m x00) ->
  fix_udp off len ps m' = fix_udp off len ps m.
Proof.
  intros L H H8 E. unfold fix_udp. cbv zeta.
  assert (E0 : store (off + 6) (be16 0) m' = store (off + 6) (be16 0) m)
    by (apply store_ext; rewrite ?length_be16; trivial; try lia;
        intros i Hi; apply E; lia).
  assert (Ed : sub m' (off + 8) (len - 8) = sub m (off + 8) (len - 8))
    by (apply sub_ext; trivial; try lia; intros i Hi; apply E; lia).
  rewrite E0, Ed. reflexivity.
Qed.

Lemma fix_tcp_ext (off len : nat) (ps : Z) (m m' : list byte) :
  length m' = length m -> (off + len <= length m)%nat ->
  (18 <= data_offset_at m off)%nat -> (data_offset_at m off <= len)%nat ->
  (forall i, (i < off + 16 \/ off + 18 <= i)%nat ->
             nth i m' x00 = nth i m x00) ->
  fix_tcp off len ps m' = fix_tcp off len ps m.
Proof.
  intros L H H18 Hd E. unfold fix_tcp. cbv zeta.
  assert (Eo : data_offset_at m' off = data_offset_at m off).
  { unfold data_offset_at, data_offset_z, byte_at. rewrite E by lia.
    reflexivity. }
  assert (E0 : store (off + 16) (be16 0) m' = store (off + 16) (be16 0) m)
    by (apply store_ext; rewrite ?length_be16; trivial; try lia;
        intros i Hi; apply E; lia).
  rewrite Eo, E0.
  assert (Ed : sub m' (off + data_offset_at m off) (len - data_offset_at m off)
               = sub m (off + data_offset_at m off) (len - data_offset_at m off))
    by (apply sub_ext; trivial; try lia; intros i Hi; apply E; lia).
  rewrite Ed. reflexivity.
Qed.

(** A buffer that is a well-formed packet but for the contents of its
    checksum fields. *)
Section Agree.
Variables b d : list byte.
Hypothesis W : wellformed b = true.
Hypothesis L : length d = length b.
Hypothesis N : forall i, ~ In i (checksum_fields b) -> nth i d x00 = nth i b x00.

Lemma agree_ip : wellformed_ip b = true.
Proof. unfold wellformed in W. apply andb_prop in W as [I _]. exact I. Qed.

Lemma agree_nth4 (i : nat) :
  header.IPVersion b = 4 -> (i < 10 \/ 12 <= i < 26)%nat ->
  nth i d x00 = nth i b x00.
Proof.
  intros V Hi. apply N. intros Hin.
  destruct (checksum_fields_where b i agree_ip Hin) as [[_ ?]|[V' _]];
    [lia|congruence].
Qed.

Lemma agree_nth6 (i : nat) :
  header.IPVersion b = 6 -> (i < 46)%nat -> nth i d x00 = nth i b x00.
Proof.
  intros V Hi. apply N. intros Hin.
  destruct (checksum_fields_where b i agree_ip Hin) as [[V' _]|[_ ?]];
    [congruence|lia].
Qed.

Lemma agree_version : header.IPVersion d = header.IPVersion b.
Proof.
  apply IPVersion_ext; [exact L|].
  destruct (wellformed_version b agree_ip) as [V|V].
  - apply agree_nth4; trivial; lia.
  - apply agree_nth6; trivial; lia.
Qed.

Lemma agree_byte_at4 (i : nat) :
  header.IPVersion b = 4 -> (i < 10 \/ 12 <= i < 26)%nat ->
  byte_at d i = byte_at b i.
Proof. intros V Hi. unfold byte_at. rewrite agree_nth4; trivial. Qed.

Lemma agree_word_at4 (i : nat) :
  header.IPVersion b = 4 -> (i + 1 < 10 \/ 12 <= i < 25)%nat ->
  word_at d i = word_at b i.
Proof.
  intros V Hi. unfold word_at. rewrite !agree_nth4; trivial; lia.
Qed.

Lemma agree_ihl : header.IPVersion b = 4 -> ihl d = ihl b.
Proof.
  intros V. unfold ihl, ihl_z. rewrite agree_byte_at4; trivial; lia.
Qed.

Lemma agree_payload_len4 :
  header.IPVersion b = 4 -> payload_len4_z d = payload_len4_z b.
Proof.
  intros V. unfold payload_len4_z, ihl_z.
  rewrite agree_byte_at4, agree_word_at4; trivial; lia.
Qed.

Lemma agree_byte_at6 (i : nat) :
  header.IPVersion b = 6 -> (i < 46)%nat -> byte_at d i = byte_at b i.
Proof. intros V Hi. unfold byte_at. rewrite agree_nth6; trivial. Qed.

Lemma agree_word_at6 (i : nat) :
  header.IPVersion b = 6 -> (i + 1 < 46)%nat -> word_at d i = word_at b i.
Proof.
  intros V Hi. unfold word_at. rewrite !agree_nth6; trivial; lia.
Qed.

Lemma agree_payload_len6 :
  header.IPVersion b = 6 -> payload_len6 d = payload_len6 b.
Proof.
  intros V. unfold payload_len6. rewrite agree_word_at6; trivial; lia.
Qed.

Lemma agree_wellformed_ip : wellformed_ip d = true.
Proof.
  pose proof agree_ip as I. unfold wellformed_ip in *.
  rewrite agree_version.
  destruct (wellformed_version b agree_ip) as [V|V]; rewrite V in *.
  - change (4 =? 4) with true in *. cbv iota in *.
    rewrite agree_ihl, agree_word_at4, L by (trivial; lia). exact I.
  - change (6 =? 4) with false in *. change (6 =? 6) with true in *.
    cbv iota in *. rewrite agree_payload_len6, L by trivial. exact I.
Qed.
End Agree.

Lemma fix4_agree (b d : list byte) (skip : nat -> Prop) :
  (20 <= ihl b)%nat -> (ihl b <= length b)%nat -> length d = length b ->
  ihl d = ihl b ->
  (forall i, i <> 10%nat -> i <> 11%nat -> ~ skip i ->
             nth i d x00 = nth i b x00) ->
  (forall i, skip i -> (ihl b <= i)%nat) ->
  forall i, ~ skip i ->
            nth i (fix_ipv4_header d) x00 = nth i (fix_ipv4_header b) x00.
Proof.
  intros H20 Hh L EI E Hs i Hi.
  destruct (Nat.eq_dec i 10) as [->|N10];
    [|destruct (Nat.eq_dec i 11) as [->|N11]].
  - apply fix4_ext; try lia.
    intros j Hj J10 J11. apply E; trivial. intros Sj. apply Hs in Sj. lia.
  - apply fix4_ext; try lia.
    intros j Hj J10 J11. apply E; trivial. intros Sj. apply Hs in Sj. lia.
  - rewrite !fix4_nth by lia. apply E; trivial.
Qed.

(** The packet [Write] injects is the same for two buffers that differ in
    their checksum fields only. *)
Lemma repaired_ext (b d : list byte) :
  wellformed b = true -> length d = length b ->
  (forall i, ~ In i (checksum_fields b) -> nth i d x00 = nth i b x00) ->
  wellformed d = true
  /\ fst (tagged d) = fst (tagged b)
  /\ repaired d = repaired b.
Proof.
  intros W L N.
  pose proof (agree_ip b W) as I.
  pose proof (agree_wellformed_ip b d W L N) as I'.
  pose proof (agree_version b d W L N) as EV.
  pose proof W as F. unfold wellformed in F. apply andb_prop in F as [_ F].
  unfold transport, segment, segment_off, segment_len in F.
  unfold wellformed. rewrite I'. cbn [andb].
  unfold tagged, fst, transport, segment, segment_off, segment_len.
  rewrite EV.
  destruct (wellformed_version b I) as [V|V]; rewrite V in *.
  - change (4 =? 4) with true in *.
    change (4 =? header.IPv4Version) with true. cbv iota in *.
    destruct (wellformed_ip4 b V I) as (I1 & I2 & I3).
    pose proof (payload_len4_eq b I2) as EP.
    pose proof (agree_ihl b d W L N V) as EI.
    pose proof (agree_payload_len4 b d W L N V) as EPL.
    assert (EPn : payload_len4 d = payload_len4 b)
      by (unfold payload_len4; rewrite EPL; reflexivity).
    pose proof (agree_byte_at4 b d W L N 9 V ltac:(lia)) as EP9.
    rewrite EI, EPn, EP9.
    assert (Es : sub d 12 4 = sub b 12 4)
      by (apply sub_ext; trivial; try lia; intros i Hi;
          apply (agree_nth4 b d W L N); trivial; lia).
    assert (Ed : sub d 16 4 = sub b 16 4)
      by (apply sub_ext; trivial; try lia; intros i Hi;
          apply (agree_nth4 b d W L N); trivial; lia).
    destruct (Z.eq_dec (byte_at b 9) 17) as [P|P1];
      [|destruct (Z.eq_dec (byte_at b 9) 6) as [P|P2]].
    + rewrite P in *. apply fits_udp in F; [|lia].
      assert (N' : forall i, i <> 10%nat -> i <> 11%nat ->
                   ~ (ihl b + 6 <= i < ihl b + 8)%nat ->
                   nth i d x00 = nth i b x00).
      { intros i A1 A2 A3. apply N. pick_version V. rewrite P. pick_proto.
        simpl. lia. }
      split; [|split; [reflexivity|]].
      * unfold fits. change (17 =? header.UDPProtocolNumber) with true.
        cbv iota. apply Nat.leb_le. rewrite sub_length; lia.
      * rewrite (repaired_udp4 b I V P).
        rewrite (repaired_udp4 d I' ltac:(congruence) ltac:(congruence)).
        rewrite EI, EPn, Es, Ed.
        replace (word_at d (ihl b + 4)) with (word_at b (ihl b + 4))
          by (unfold word_at; rewrite !N' by lia; reflexivity).
        apply fix_udp_ext; rewrite ?fix4_length; try lia.
        intros i Hi.
        apply (fix4_agree b d (fun i => ihl b + 6 <= i < ihl b + 8)%nat);
          trivial; try lia.
    + rewrite P in *. apply fits_tcp in F; [|lia].
      assert (N' : forall i, i <> 10%nat -> i <> 11%nat ->
                   ~ (ihl b + 16 <= i < ihl b + 18)%nat ->
                   nth i d x00 = nth i b x00).
      { intros i A1 A2 A3. apply N. pick_version V. rewrite P. pick_proto.
        simpl. lia. }
      assert (Eo : data_offset_at d (ihl b) = data_offset_at b (ihl b)).
      { unfold data_offset_at, data_offset_z, byte_at. rewrite N' by lia.
        reflexivity. }
      split; [|split; [reflexivity|]].
      * unfold fits. change (6 =? header.UDPProtocolNumber) with false.
        change (6 =? header.TCPProtocolNumber) with true. cbv iota.
        rewrite sub_length by lia. rewrite data_offset_sub by lia.
        rewrite Eo. apply andb_true_intro. split; apply Nat.leb_le; lia.
      * rewrite (repaired_tcp4 b I V P).
        rewrite (repaired_tcp4 d I' ltac:(congruence) ltac:(congruence)).
        rewrite EI, EPn, EPL, Es, Ed.
        apply fix_tcp_ext; rewrite ?fix4_length, ?fix4_data_offset; try lia.
        intros i Hi.
        apply (fix4_agree b d (fun i => ihl b + 16 <= i < ihl b + 18)%nat);
          trivial; try lia.
    + assert (N' : forall i, i <> 10%nat -> i <> 11%nat ->
                   nth i d x00 = nth i b x00).
      { intros i A1 A2. apply N. pick_version V. pick_proto. simpl. lia. }
      split; [|split; [reflexivity|]].
      * unfold fits, header.UDPProtocolNumber, header.TCPProtocolNumber.
        destruct (Z.eqb_spec (byte_at b 9) 17); [contradiction|].
        destruct (Z.eqb_spec (byte_at b 9) 6); [contradiction|].
        reflexivity.
      * rewrite (repaired_plain4 b I V P1 P2).
        rewrite (repaired_plain4 d I' ltac:(congruence) ltac:(congruence)
                   ltac:(congruence)).
        apply nth_ext with (d := x00) (d' := x00);
          [rewrite !fix4_length; lia|].
        intros i _.
        apply (fix4_agree b d (fun _ => False)); trivial; try lia;
          try tauto.
        intros j A1 A2 _. apply N'; trivial.
  - change (6 =? 4) with false in *.
    change (6 =? header.IPv4Version) with false. cbv iota in *.
    pose proof (wellformed_ip6 b V I) as I1.
    pose proof (agree_payload_len6 b d W L N V) as EPn.
    pose proof (agree_byte_at6 b d W L N 6 V ltac:(lia)) as EP6.
    rewrite EPn, EP6.
    assert (Es : sub d 8 16 = sub b 8 16)
      by (apply sub_ext; trivial; try lia; intros i Hi;
          apply (agree_nth6 b d W L N); trivial; lia).
    assert (Ed : sub d 24 16 = sub b 24 16)
      by (apply sub_ext; trivial; try lia; intros i Hi;
          apply (agree_nth6 b d W L N); trivial; lia).
    destruct (Z.eq_dec (byte_at b 6) 17) as [P|P1];
      [|destruct (Z.eq_dec (byte_at b 6) 6) as [P|P2]].
    + rewrite P in *. apply fits_udp in F; [|lia].
      assert (N' : forall i, ~ (40 + 6 <= i < 40 + 8)%nat ->
                   nth i d x00 = nth i b x00).
      { intros i A3. apply N. pick_version V. rewrite P. pick_proto.
        simpl. lia. }
      split; [|split; [reflexivity|]].
      * unfold fits. change (17 =? header.UDPProtocolNumber) with true.
        cbv iota. apply Nat.leb_le. rewrite sub_length; lia.
      * rewrite (repaired_udp6 b V P).
        rewrite (repaired_udp6 d ltac:(congruence) ltac:(congruence)).
        rewrite EPn, Es, Ed.
        replace (word_at d (40 + 4)) with (word_at b (40 + 4))
          by (unfold word_at; rewrite !N' by lia; reflexivity).
        apply fix_udp_ext; try lia.
        intros i Hi. apply N'. lia.
    + rewrite P in *. apply fits_tcp in F; [|lia].
      assert (N' : forall i, ~ (40 + 16 <= i < 40 + 18)%nat ->
                   nth i d x00 = nth i b x00).
      { intros i A3. apply N. pick_version V. rewrite P. pick_proto.
        simpl. lia. }
      assert (Eo : data_offset_at d 40 = data_offset_at b 40).
      { unfold data_offset_at, data_offset_z, byte_at. rewrite N' by lia.
        reflexivity. }
      split; [|split; [reflexivity|]].
      * unfold fits. change (6 =? header.UDPProtocolNumber) with false.
        change (6 =? header.TCPProtocolNumber) with true. cbv iota.
        rewrite sub_length by lia. rewrite data_offset_sub by lia.
        rewrite Eo. apply andb_true_intro. split; apply Nat.leb_le; lia.
      * rewrite (repaired_tcp6 b V P).
        rewrite (repaired_tcp6 d ltac:(congruence) ltac:(congruence)).
        rewrite EPn, Es, Ed.
        replace (word_at d 4) with (word_at b 4)
          by (unfold word_at; rewrite !N' by lia; reflexivity).
        apply fix_tcp_ext; try lia.
        intros i Hi. apply N'. lia.
    + assert (N' : forall i, nth i d x00 = nth i b x00).
      { intros i. apply N. pick_version V. pick_proto. simpl. tauto. }
      split; [|split; [reflexivity|]].
      * unfold fits, header.UDPProtocolNumber, header.TCPProtocolNumber.
        destruct (Z.eqb_spec (byte_at b 6) 17); [contradiction|].
        destruct (Z.eqb_spec (byte_at b 6) 6); [contradiction|].
        reflexivity.
      * rewrite (repaired_plain6 b V P1 P2).
        rewrite (repaired_plain6 d ltac:(congruence) ltac:(congruence)
                   ltac:(congruence)).
        apply nth_ext with (d := x00) (d' := x00); [exact L|].
        intros i _. apply N'.
Qed.

(** ** Runs of the pump loops and of the drain *)

Lemma Unix_loop_prefix (size : Z) (evs : list (list byte * Z))
    (tail : list ReadEvent) :
  0 <= size ->
  Forall (fun ev => 0 <= snd ev /\ 4 + snd ev <= size) evs ->
  forall ep k,
    Unix.Attach_loop size (map ok_event evs ++ tail) ep k
    = Unix.Attach_loop size tail
        (forward_all ep (map (read_packet 4 size) evs)) (length evs + k).
Proof.
  intros Hsize. induction 1 as [|ev evs [Hn Hs] _ IH]; intros ep k.
  - cbn [map app length]. rewrite forward_all_nil. reflexivity.
  - cbn [map app]. rewrite Unix_loop_ok by assumption.
    rewrite IH, forward_all_app. cbn [length app]. f_equal. lia.
Qed.

Lemma Windows_loop_prefix (size : Z) (evs : list (list byte * Z))
    (tail : list ReadEvent) :
  0 <= size ->
  Forall (fun ev => 0 <= snd ev /\ snd ev <= size) evs ->
  forall ep k,
    Windows.Attach_loop size (map ok_event evs ++ tail) ep k
    = Windows.Attach_loop size tail
        (forward_all ep (map (read_packet 0 size) evs)) (length evs + k).
Proof.
  intros Hsize. induction 1 as [|ev evs [Hn Hs] _ IH]; intros ep k.
  - cbn [map app length]. rewrite forward_all_nil. reflexivity.
  - cbn [map app]. rewrite Windows_loop_ok by assumption.
    rewrite IH, forward_all_app. cbn [length app]. f_equal. lia.
Qed.

Lemma reslice_out (buf : list byte) (lo hi : Z) :
  lo < 0 \/ hi < lo \/ Z.of_nat (length buf) < hi ->
  reslice buf lo hi = None.
Proof.
  intros H. unfold reslice.
  destruct (Z.leb_spec 0 lo); [|reflexivity].
  destruct (Z.leb_spec lo hi); [|reflexivity].
  destruct (Z.leb_spec hi (Z.of_nat (length buf))); [lia|reflexivity].
Qed.

Lemma Forall_weaken_size (size : Z) (evs : list (list byte * Z)) :
  Forall (fun ev => 0 <= snd ev /\ 4 + snd ev <= size) evs ->
  Forall (fun ev => 0 <= snd ev /\ snd ev <= size) evs.
Proof.
  apply Forall_impl. intros ev [H1 H2]. lia.
Qed.

(* ================================================================== *)
(** * Further properties *)

(** ** The push-producer [Write] *)

(** X1. [Write] panics exactly on the buffers on which one of its slice
    expressions or header accesses is out of range ([in_bounds] is false).
    On every other buffer it returns the length of the input and a nil
    error; for version 4 or 6 it has injected the repaired bytes under the
    protocol number of the version, for any other version it has injected
    nothing. *)
Theorem X1_Write_exact (e : channel.Endpoint) (b : list byte) :
  Windows.call_Write e b
  = if in_bounds b
    then Some ((Z.of_nat (length b), None),
               if known b
               then channel.InjectInbound e (fst (tagged b)) (repaired b)
               else e)
    else None.
Proof.
  unfold Windows.call_Write. rewrite Write_exact.
  destruct (in_bounds b); reflexivity.
Qed.

(** X2. A buffer cut inside the IP header makes [Write] panic: version 4
    with fewer than 12 bytes or fewer bytes than the header length field
    announces, version 6 with fewer than 7 bytes. *)
Theorem X2_Write_truncated_header_panics
    (e : channel.Endpoint) (b : list byte) :
  (header.IPVersion b = 4 /\ (length b < 12 \/ length b < ihl b)%nat)
  \/ (header.IPVersion b = 6 /\ (length b < 7)%nat) ->
  Windows.call_Write e b = None.
Proof.
  intros [[V H]|[V H]]; unfold Windows.call_Write.
  - rewrite Write_panic_header4 by assumption. reflexivity.
  - rewrite Write_panic_header6 by assumption. reflexivity.
Qed.

Lemma X2_witness :
  ((header.IPVersion sample_short6 = 4
    /\ (length sample_short6 < 12
        \/ length sample_short6
           < ihl sample_short6)%nat)
   \/ (header.IPVersion sample_short6 = 6
       /\ (length sample_short6 < 7)%nat))
  /\ Windows.call_Write (channel.mkEndpoint [] [])
       sample_short6 = None.
Proof.
  split; [right; split; [reflexivity|simpl; lia]|].
  apply (X2_Write_truncated_header_panics (channel.mkEndpoint [] [])
           sample_short6).
  right. split; [reflexivity|simpl; lia].
Defined.

(** X3. [Write] trusts the length field of the IP header: a UDP or TCP
    packet whose IPv4 total length, or whose IPv6 payload length behind the
    40 byte header, is larger than the buffer makes it panic. *)
Theorem X3_Write_length_field_overrun_panics
    (e : channel.Endpoint) (b : list byte) :
  (header.IPVersion b = 4
   /\ (byte_at b 9 = 17 \/ byte_at b 9 = 6)
   /\ Z.of_nat (length b) < word_at b 2)
  \/ (header.IPVersion b = 6
      /\ (byte_at b 6 = 17 \/ byte_at b 6 = 6)
      /\ Z.of_nat (length b) < 40 + word_at b 4) ->
  Windows.call_Write e b = None.
Proof.
  intros [(V & P & H)|(V & P & H)]; unfold Windows.call_Write.
  - destruct (Nat.le_gt_cases 12 (length b)) as [H12|H12];
      [|rewrite Write_panic_header4 by (trivial; lia); reflexivity].
    destruct (Nat.le_gt_cases (ihl b) (length b)) as [Hh|Hh];
      [|rewrite Write_panic_header4 by (trivial; lia); reflexivity].
    rewrite Write_panic_segment4; trivial.
    left. rewrite payload_len4_eq by lia. lia.
  - destruct (Nat.le_gt_cases 7 (length b)) as [H7|H7];
      [|rewrite Write_panic_header6 by (trivial; lia); reflexivity].
    rewrite Write_panic_segment6; trivial.
    left. unfold payload_len6. pose proof (word_at_range b 4). lia.
Qed.

Lemma X3_witness :
  ((header.IPVersion sample_overrun = 4
    /\ (byte_at sample_overrun 9 = 17
        \/ byte_at sample_overrun 9 = 6)
    /\ Z.of_nat (length sample_overrun)
       < word_at sample_overrun 2)
   \/ (header.IPVersion sample_overrun = 6
       /\ (byte_at sample_overrun 6 = 17
           \/ byte_at sample_overrun 6 = 6)
       /\ Z.of_nat (length sample_overrun)
          < 40 + word_at sample_overrun 4))
  /\ Windows.call_Write (channel.mkEndpoint [] [])
       sample_overrun = None.
Proof.
  split; [left; split; [reflexivity|split; [left; reflexivity|reflexivity]]|].
  apply (X3_Write_length_field_overrun_panics (channel.mkEndpoint [] [])
           sample_overrun).
  left. split; [reflexivity|split; [left; reflexivity|reflexivity]].
Defined.

(** X4. An IPv6 packet that carries neither UDP nor TCP is injected as it
    came, whatever its length field says and even when it is shorter than
    the 40 byte header: the next-header byte is all [Write] looks at. *)
Theorem X4_Write_ipv6_other_unchanged (e : channel.Endpoint) (b : list byte) :
  header.IPVersion b = 6 -> (7 <= length b)%nat ->
  byte_at b 6 <> 17 -> byte_at b 6 <> 6 ->
  Windows.call_Write e b
  = Some ((Z.of_nat (length b), None),
          channel.InjectInbound e header.IPv6ProtocolNumber b).
Proof.
  intros V H7 P1 P2. unfold Windows.call_Write.
  destruct (Write_ok_plain6 b (Go.mkWorld [] e) V H7 P1 P2) as [E _].
  rewrite E. reflexivity.
Qed.

Lemma X4_witness :
  header.IPVersion sample_cut6 = 6
  /\ (7 <= length sample_cut6)%nat
  /\ byte_at sample_cut6 6 <> 17
  /\ byte_at sample_cut6 6 <> 6
  /\ Windows.call_Write (channel.mkEndpoint [] [])
       sample_cut6
     = Some ((Z.of_nat (length sample_cut6), None),
             channel.InjectInbound (channel.mkEndpoint [] [])
               header.IPv6ProtocolNumber
               sample_cut6).
Proof.
  split; [reflexivity|]. split; [simpl; lia|].
  split; [vm_compute; discriminate|]. split; [vm_compute; discriminate|].
  apply (X4_Write_ipv6_other_unchanged (channel.mkEndpoint [] [])
           sample_cut6);
    [reflexivity | simpl; lia | vm_compute; discriminate
     | vm_compute; discriminate].
Defined.

(** X5. Of an IPv4 packet that carries neither UDP nor TCP, [Write] changes
    bytes 10 and 11 (the header checksum) and nothing else, whatever the
    total length field says; it needs 12 bytes and the header inside the
    buffer.  When the header has its 12 bytes, the header of the injected
    packet sums to the all-ones value. *)
Theorem X5_Write_ipv4_other_header_only
    (e : channel.Endpoint) (b : list byte) :
  header.IPVersion b = 4 -> (12 <= length b)%nat -> (ihl b <= length b)%nat ->
  byte_at b 9 <> 17 -> byte_at b 9 <> 6 ->
  exists d,
    Windows.call_Write e b
    = Some ((Z.of_nat (length b), None),
            channel.InjectInbound e header.IPv4ProtocolNumber d)
    /\ length d = length b
    /\ (forall i, i <> 10%nat -> i <> 11%nat -> nth i d x00 = nth i b x00)
    /\ ((12 <= ihl b)%nat ->
        checksum.Checksum (sub d 0 (ihl b)) 0 = 0xffff).
Proof.
  intros V H12 Hh P1 P2. exists (fix_ipv4_header b).
  destruct (Write_ok_plain4 b (Go.mkWorld [] e) V H12 Hh P1 P2) as [E _].
  split; [unfold Windows.call_Write; rewrite E; reflexivity|].
  split; [apply fix4_length; assumption|].
  split; [intros i A1 A2; apply fix4_nth; lia|].
  intros Hi. apply fix_ipv4_header_law; assumption.
Qed.

Lemma X5_witness :
  header.IPVersion sample_icmp4 = 4
  /\ (12 <= length sample_icmp4)%nat
  /\ (ihl sample_icmp4 <= length sample_icmp4)%nat
  /\ byte_at sample_icmp4 9 <> 17
  /\ byte_at sample_icmp4 9 <> 6
  /\ exists d,
       Windows.call_Write (channel.mkEndpoint [] []) sample_icmp4
       = Some ((Z.of_nat (length sample_icmp4), None),
               channel.InjectInbound (channel.mkEndpoint [] [])
                 header.IPv4ProtocolNumber d)
       /\ length d = length sample_icmp4
       /\ (forall i, i <> 10%nat -> i <> 11%nat ->
                     nth i d x00 = nth i sample_icmp4 x00)
       /\ ((12 <= ihl sample_icmp4)%nat ->
           checksum.Checksum (sub d 0 (ihl sample_icmp4)) 0 = 0xffff).
Proof.
  split; [reflexivity|]. split; [vm_compute; lia|]. split; [vm_compute; lia|].
  split; [vm_compute; discriminate|]. split; [vm_compute; discriminate|].
  apply (X5_Write_ipv4_other_header_only (channel.mkEndpoint [] [])
           sample_icmp4);
    [reflexivity | vm_compute; lia | vm_compute; lia
     | vm_compute; discriminate | vm_compute; discriminate].
Defined.

(** X6. [Write] does not read the checksums that come in: two well-formed
    buffers of one length that differ in their checksum fields only (the
    IPv4 header checksum, the UDP or TCP checksum) give the same result and
    the same injected packet. *)
Theorem X6_Write_ignores_incoming_checksums
    (e : channel.Endpoint) (b d : list byte) :
  wellformed b = true -> length d = length b ->
  (forall i, ~ In i (checksum_fields b) -> nth i d x00 = nth i b x00) ->
  Windows.call_Write e d = Windows.call_Write e b.
Proof.
  intros W L N.
  destruct (repaired_ext b d W L N) as (W' & T & R).
  rewrite (call_Write_run e b W), (call_Write_run e d W').
  rewrite T, R, L. reflexivity.
Qed.

Lemma X6_witness :
  wellformed sample_udp4 = true
  /\ length sample_stale_sums = length sample_udp4
  /\ (forall i, ~ In i (checksum_fields sample_udp4) ->
                nth i sample_stale_sums x00 = nth i sample_udp4 x00)
  /\ Windows.call_Write (channel.mkEndpoint [] []) sample_stale_sums
     = Windows.call_Write (channel.mkEndpoint [] []) sample_udp4.
Proof.
  assert (N : forall i, ~ In i (checksum_fields sample_udp4) ->
                nth i sample_stale_sums x00 = nth i sample_udp4 x00).
  { intros i Hi. change (checksum_fields sample_udp4)
      with [10; 11; 26; 27]%nat in Hi.
    do 32 (destruct i as [|i];
           [try reflexivity; exfalso; apply Hi; simpl; tauto|]).
    destruct i; reflexivity. }
  split; [reflexivity|]. split; [reflexivity|]. split; [exact N|].
  apply (X6_Write_ignores_incoming_checksums (channel.mkEndpoint [] [])
           sample_udp4 sample_stale_sums); [reflexivity|reflexivity|exact N].
Defined.

(** X7. [Write] is idempotent on well-formed packets: handing the packet
    it has injected to [Write] again injects the same bytes. *)
Theorem X7_Write_idempotent (e : channel.Endpoint) (b : list byte) :
  wellformed b = true ->
  exists d,
    Windows.call_Write e b
    = Some ((Z.of_nat (length b), None),
            channel.InjectInbound e (fst (tagged b)) d)
    /\ forall e',
         Windows.call_Write e' d
         = Some ((Z.of_nat (length b), None),
                 channel.InjectInbound e' (fst (tagged b)) d).
Proof.
  intros W. exists (repaired b).
  split; [apply call_Write_run, W|].
  destruct (repaired_frame b W) as [L N].
  destruct (repaired_ext b (repaired b) W L N) as (W' & T & R).
  intros e'. rewrite (call_Write_run e' (repaired b) W').
  rewrite T, R, L. reflexivity.
Qed.

Lemma X7_witness :
  wellformed sample_udp4 = true
  /\ exists d,
       Windows.call_Write (channel.mkEndpoint [] []) sample_udp4
       = Some ((Z.of_nat (length sample_udp4), None),
               channel.InjectInbound (channel.mkEndpoint [] [])
                 (fst (tagged sample_udp4)) d)
       /\ forall e',
            Windows.call_Write e' d
            = Some ((Z.of_nat (length sample_udp4), None),
                    channel.InjectInbound e' (fst (tagged sample_udp4)) d).
Proof.
  split; [reflexivity|].
  apply (X7_Write_idempotent (channel.mkEndpoint [] []) sample_udp4).
  reflexivity.
Defined.

(** ** The outbound drain, notification after notification *)

(** X8. On the linux/darwin endpoint, [n] notifications in a row take the
    first [n] packets off the outbound queue (all of them when there are
    fewer) and hand the device one frame for each, in queue order: the
    first four bytes of the scratch buffer followed by the packet's network
    header, transport header and data.  The scratch buffer is reused from
    one notification to the next; its length and its first four bytes stay
    as they were.  Notifications beyond the queue do nothing.  (The device
    write is a record of the frame handed over.) *)
Theorem X8_unix_notifications_drain_in_order (n : nat)
    (inb : list (Z * list byte)) (queue : list stack.PacketBuffer)
    (mtu : Z) (dev : Device) (buf : list byte) (wt : list (list byte * Z)) :
  (4 <= length buf)%nat ->
  exists buf',
    unix_notify n
      (Unix.mkEndpoint (channel.mkEndpoint inb queue) mtu dev buf wt)
    = Some (Unix.mkEndpoint (channel.mkEndpoint inb (skipn n queue)) mtu dev
              buf'
              (wt ++ map (fun p => (firstn 4 buf ++ Drain.wire p, 4))
                         (firstn n queue)))
    /\ firstn 4 buf' = firstn 4 buf /\ length buf' = length buf.
Proof.
  revert queue buf wt.
  induction n as [|n IH]; intros queue buf wt H.
  - exists buf. cbn [unix_notify skipn firstn map]. rewrite app_nil_r. auto.
  - destruct queue as [|pkt q].
    + cbn [unix_notify]. unfold Unix.WriteNotify at 1.
      cbn [channel.Read Unix.ep channel.outq].
      destruct (IH [] buf wt H) as (buf' & E & P & L).
      rewrite E. exists buf'.
      rewrite skipn_nil, firstn_nil. cbn [skipn firstn]. auto.
    + destruct (Unix_WriteNotify_run inb pkt q mtu dev buf wt H)
        as (buf1 & E1 & P1 & L1).
      cbn [unix_notify]. rewrite E1.
      destruct (IH q buf1
                  (wt ++ [(firstn 4 buf ++ stack.NetworkHeader pkt
                             ++ stack.TransportHeader pkt
                             ++ stack.ToView (stack.Data pkt), 4)])
                  ltac:(lia)) as (buf' & E & P & L).
      rewrite E. exists buf'.
      change (skipn (S n) (pkt :: q)) with (skipn n q).
      change (firstn (S n) (pkt :: q)) with (pkt :: firstn n q).
      cbn [map]. rewrite P1, <- app_assoc. cbn [app]. unfold Drain.wire.
      split; [reflexivity|]. split; congruence.
Qed.

Lemma X8_witness :
  (4 <= length (repeat x00 44))%nat
  /\ exists buf',
       unix_notify 3
         (Unix.mkEndpoint (channel.mkEndpoint [] [sample_out; sample_out2])
            40 (mkDevice false false false true true) (repeat x00 44) [])
       = Some (Unix.mkEndpoint
                 (channel.mkEndpoint [] (skipn 3 [sample_out; sample_out2]))
                 40 (mkDevice false false false true true) buf'
                 ([] ++ map (fun p => (firstn 4 (repeat x00 44)
                                         ++ Drain.wire p, 4))
                            (firstn 3 [sample_out; sample_out2])))
       /\ firstn 4 buf' = firstn 4 (repeat x00 44)
       /\ length buf' = length (repeat x00 44).
Proof.
  split; [simpl; lia|].
  apply (X8_unix_notifications_drain_in_order 3 [] [sample_out; sample_out2]
           40 (mkDevice false false false true true) (repeat x00 44) []).
  simpl; lia.
Defined.

(** X9. On the windows endpoint, [n] notifications in a row with at least
    [n] packets in the outbound queue take the first [n] packets off the
    queue and write each to the device, in queue order and without a frame
    prefix; the scratch buffer keeps its length. *)
Theorem X9_windows_notifications_drain_in_order (n : nat)
    (inb : list (Z * list byte)) (queue : list stack.PacketBuffer)
    (mtu : Z) (dev : Device) (buff : list byte) (wr : list (list byte)) :
  (n <= length queue)%nat ->
  exists buff',
    windows_notify n
      (Windows.mkEndpoint (channel.mkEndpoint inb queue) dev wr mtu buff)
    = Some (Windows.mkEndpoint (channel.mkEndpoint inb (skipn n queue)) dev
              (wr ++ map Drain.wire (firstn n queue)) mtu buff')
    /\ length buff' = length buff.
Proof.
  revert queue buff wr.
  induction n as [|n IH]; intros queue buff wr H.
  - exists buff. cbn [windows_notify skipn firstn map]. rewrite app_nil_r.
    auto.
  - destruct queue as [|pkt q]; [simpl in H; lia|].
    destruct (Windows_WriteNotify_run inb pkt q mtu dev buff wr)
      as (buff1 & E1 & L1).
    cbn [windows_notify]. rewrite E1.
    destruct (IH q buff1
                (wr ++ [stack.NetworkHeader pkt ++ stack.TransportHeader pkt
                          ++ stack.ToView (stack.Data pkt)])
                ltac:(simpl in H; lia)) as (buff' & E & L).
    rewrite E. exists buff'. cbn [skipn firstn map].
    rewrite <- app_assoc. cbn [app]. unfold Drain.wire.
    split; [reflexivity|congruence].
Qed.

Lemma X9_witness :
  (2 <= length [sample_out; sample_out2])%nat
  /\ exists buff',
       windows_notify 2
         (Windows.mkEndpoint (channel.mkEndpoint [] [sample_out; sample_out2])
            (mkDevice true true false false false) [] 20 (repeat x00 20))
       = Some (Windows.mkEndpoint
                 (channel.mkEndpoint [] (skipn 2 [sample_out; sample_out2]))
                 (mkDevice true true false false false)
                 ([] ++ map Drain.wire (firstn 2 [sample_out; sample_out2]))
                 20 buff')
       /\ length buff' = length (repeat x00 20).
Proof.
  split; [simpl; lia|].
  apply (X9_windows_notifications_drain_in_order 2 []
           [sample_out; sample_out2] 20
           (mkDevice true true false false false) (repeat x00 20) []).
  simpl; lia.
Defined.

(** X10. On the windows endpoint, more notifications than queued packets
    end in a panic: the queue is drained, and the next notification
    dereferences the nil packet. *)
Theorem X10_windows_notifications_beyond_queue_panic (n : nat)
    (inb : list (Z * list byte)) (queue : list stack.PacketBuffer)
    (mtu : Z) (dev : Device) (buff : list byte) (wr : list (list byte)) :
  (length queue < n)%nat ->
  windows_notify n
    (Windows.mkEndpoint (channel.mkEndpoint inb queue) dev wr mtu buff)
  = None.
Proof.
  revert queue buff wr.
  induction n as [|n IH]; intros queue buff wr H; [lia|].
  destruct queue as [|pkt q]; [reflexivity|].
  destruct (Windows_WriteNotify_run inb pkt q mtu dev buff wr)
    as (buff1 & E1 & L1).
  cbn [windows_notify]. rewrite E1.
  apply IH. simpl in H. lia.
Qed.

Lemma X10_witness :
  (length [sample_out; sample_out2] < 3)%nat
  /\ windows_notify 3
       (Windows.mkEndpoint (channel.mkEndpoint [] [sample_out; sample_out2])
          (mkDevice true true false false false) [] 20 (repeat x00 20))
     = None.
Proof.
  split; [simpl; lia|].
  apply (X10_windows_notifications_beyond_queue_panic 3 []
           [sample_out; sample_out2] 20
           (mkDevice true true false false false) (repeat x00 20) []).
  simpl; lia.
Defined.

(** ** The pump loops *)

(** X11. The linux/darwin pump trusts the byte count of the device: after
    any number of good reads, a read that reports a negative count, or
    more bytes than the buffer holds behind the 4 byte prefix, makes the
    slice expression [buf[4:4+n]] panic.  The packets of the good reads
    have been forwarded, the later device events are never asked for. *)
Theorem X11_unix_pump_panics_on_bad_count (size : Z)
    (evs : list (list byte * Z)) (stored : list byte) (n : Z)
    (rest : list ReadEvent) (ep : channel.Endpoint) :
  0 <= size ->
  Forall (fun ev => 0 <= snd ev /\ 4 + snd ev <= size) evs ->
  n < 0 \/ size < 4 + n ->
  Unix.Attach_loop size (map ok_event evs ++ ReadOk stored n :: rest) ep 0
  = mkPump Panicked (forward_all ep (map (read_packet 4 size) evs))
           (S (length evs)) rest.
Proof.
  intros Hs Hev Hn.
  rewrite Unix_loop_prefix by assumption.
  cbn [Unix.Attach_loop].
  rewrite (proj2 (Z.ltb_ge size 0)) by lia.
  rewrite reslice_out by (rewrite filled_length; lia).
  rewrite Nat.add_0_r. reflexivity.
Qed.

Lemma X11_witness :
  0 <= 44
  /\ Forall (fun ev => 0 <= snd ev /\ 4 + snd ev <= 44) sample_reads
  /\ (41 < 0 \/ 44 < 4 + 41)
  /\ Unix.Attach_loop 44
       (map ok_event sample_reads ++ ReadOk sample_udp4 41 :: [ReadErr])
       (channel.mkEndpoint [] []) 0
     = mkPump Panicked
         (forward_all (channel.mkEndpoint [] [])
            (map (read_packet 4 44) sample_reads))
         (S (length sample_reads)) [ReadErr].
Proof.
  split; [lia|].
  split; [repeat constructor; cbn [snd]; lia|].
  split; [right; lia|].
  apply (X11_unix_pump_panics_on_bad_count 44 sample_reads sample_udp4 41
           [ReadErr] (channel.mkEndpoint [] []));
    [lia | repeat constructor; cbn [snd]; lia | right; lia].
Defined.

(** X12. The windows pump likewise: a read that reports a negative count
    or more bytes than the buffer holds makes [buf[:nr]] panic, after the
    packets of the good reads have been forwarded. *)
Theorem X12_windows_pump_panics_on_bad_count (size : Z)
    (evs : list (list byte * Z)) (stored : list byte) (nr : Z)
    (rest : list ReadEvent) (ep : channel.Endpoint) :
  0 <= size ->
  Forall (fun ev => 0 <= snd ev /\ snd ev <= size) evs ->
  nr < 0 \/ size < nr ->
  Windows.Attach_loop size (map ok_event evs ++ ReadOk stored nr :: rest) ep 0
  = mkPump Panicked (forward_all ep (map (read_packet 0 size) evs))
           (S (length evs)) rest.
Proof.
  intros Hs Hev Hn.
  rewrite Windows_loop_prefix by assumption.
  cbn [Windows.Attach_loop].
  rewrite (proj2 (Z.ltb_ge size 0)) by lia.
  rewrite reslice_out by (rewrite filled_length; lia).
  rewrite Nat.add_0_r. reflexivity.
Qed.

Lemma X12_witness :
  0 <= 44
  /\ Forall (fun ev => 0 <= snd ev /\ snd ev <= 44) sample_reads
  /\ (-1 < 0 \/ 44 < -1)
  /\ Windows.Attach_loop 44
       (map ok_event sample_reads ++ ReadOk sample_udp4 (-1) :: [ReadErr])
       (channel.mkEndpoint [] []) 0
     = mkPump Panicked
         (forward_all (channel.mkEndpoint [] [])
            (map (read_packet 0 44) sample_reads))
         (S (length sample_reads)) [ReadErr].
Proof.
  split; [lia|].
  split; [repeat constructor; cbn [snd]; lia|].
  split; [left; lia|].
  apply (X12_windows_pump_panics_on_bad_count 44 sample_reads sample_udp4
           (-1) [ReadErr] (channel.mkEndpoint [] []));
    [lia | repeat constructor; cbn [snd]; lia | left; lia].
Defined.

(** X13. Without a read error the pump never leaves its loop: after K
    reads that all succeed, with counts that fit the buffer, either loop
    has forwarded the packets of known version in read order, has issued
    exactly K reads and stands in the next one.  Packets of unknown
    version and empty reads do not stop it. *)
Theorem X13_pump_keeps_reading (size : Z) (evs : list (list byte * Z))
    (ep : channel.Endpoint) :
  0 <= size ->
  Forall (fun ev => 0 <= snd ev /\ 4 + snd ev <= size) evs ->
  Unix.Attach_loop size (map ok_event evs) ep 0
  = mkPump Reading (forward_all ep (map (read_packet 4 size) evs))
           (length evs) []
  /\ Windows.Attach_loop size (map ok_event evs) ep 0
     = mkPump Reading (forward_all ep (map (read_packet 0 size) evs))
              (length evs) [].
Proof.
  intros Hs Hev. split.
  - rewrite <- (app_nil_r (map ok_event evs)).
    rewrite Unix_loop_prefix by assumption.
    rewrite Nat.add_0_r. reflexivity.
  - rewrite <- (app_nil_r (map ok_event evs)).
    rewrite Windows_loop_prefix by (trivial; apply Forall_weaken_size, Hev).
    rewrite Nat.add_0_r. reflexivity.
Qed.

Lemma X13_witness :
  0 <= 1504
  /\ Forall (fun ev => 0 <= snd ev /\ 4 + snd ev <= 1504) sample_reads
  /\ Unix.Attach_loop 1504 (map ok_event sample_reads)
       (channel.mkEndpoint [] []) 0
     = mkPump Reading
         (forward_all (channel.mkEndpoint [] [])
            (map (read_packet 4 1504) sample_reads))
         (length sample_reads) []
  /\ Windows.Attach_loop 1504 (map ok_event sample_reads)
       (channel.mkEndpoint [] []) 0
     = mkPump Reading
         (forward_all (channel.mkEndpoint [] [])
            (map (read_packet 0 1504) sample_reads))
         (length sample_reads) [].
Proof.
  split; [lia|].
  split; [repeat constructor; cbn [snd]; lia|].
  apply (X13_pump_keeps_reading 1504 sample_reads (channel.mkEndpoint [] []));
    [lia | repeat constructor; cbn [snd]; lia].
Defined.

(** X14. The frame of the linux/darwin drain and the read of the
    linux/darwin pump are inverse: when a device hands the frame that
    [WriteNotify] wrote for a packet back to the pump of an endpoint with
    the same MTU (the frame in the buffer, the count without the 4 byte
    prefix), the pump reads the bytes of the packet, and forwards them
    if their version is 4 or 6.  The packet has to fit the MTU. *)
Theorem X14_unix_frame_round_trip
    (inb : list (Z * list byte)) (pkt : stack.PacketBuffer)
    (q : list stack.PacketBuffer) (mtu : Z) (dev : Device)
    (buf : list byte) (wt : list (list byte * Z)) (ep : channel.Endpoint) :
  (4 <= length buf)%nat ->
  Z.of_nat (length (Drain.wire pkt)) <= mtu ->
  exists e' frame,
    Unix.WriteNotify
      (Unix.mkEndpoint (channel.mkEndpoint inb (pkt :: q)) mtu dev buf wt)
    = Some e'
    /\ Unix.wt e' = wt ++ [(frame, 4)]
    /\ Unix.Attach_loop (4 + mtu)
         [ReadOk frame (Z.of_nat (length frame) - 4)] ep 0
       = mkPump Reading (forward_all ep [Drain.wire pkt]) 1 [].
Proof.
  intros H Hm.
  destruct (Unix_WriteNotify_run inb pkt q mtu dev buf wt H)
    as (buf1 & E1 & P1 & L1).
  fold (Drain.wire pkt) in E1.
  eexists. exists (firstn 4 buf ++ Drain.wire pkt).
  split; [exact E1|]. split; [reflexivity|].
  assert (L4 : length (firstn 4 buf) = 4%nat)
    by (rewrite length_firstn; lia).
  assert (Ln : Z.of_nat (length (firstn 4 buf ++ Drain.wire pkt)) - 4
               = Z.of_nat (length (Drain.wire pkt)))
    by (rewrite length_app; lia).
  rewrite Ln.
  change (ReadOk (firstn 4 buf ++ Drain.wire pkt)
            (Z.of_nat (length (Drain.wire pkt))))
    with (ok_event (firstn 4 buf ++ Drain.wire pkt,
                    Z.of_nat (length (Drain.wire pkt)))).
  rewrite Unix_loop_ok by (cbn [snd]; lia).
  cbn [Unix.Attach_loop].
  rewrite <- L4 at 1.
  rewrite read_packet_payload by lia.
  reflexivity.
Qed.

Lemma X14_witness :
  (4 <= length (repeat x00 44))%nat
  /\ Z.of_nat (length (Drain.wire sample_out)) <= 40
  /\ exists e' frame,
       Unix.WriteNotify
         (Unix.mkEndpoint (channel.mkEndpoint [] [sample_out]) 40
            (mkDevice false false false true true) (repeat x00 44) [])
       = Some e'
       /\ Unix.wt e' = [] ++ [(frame, 4)]
       /\ Unix.Attach_loop (4 + 40)
            [ReadOk frame (Z.of_nat (length frame) - 4)]
            (channel.mkEndpoint [] []) 0
          = mkPump Reading
              (forward_all (channel.mkEndpoint [] [])
                 [Drain.wire sample_out]) 1 [].
Proof.
  split; [simpl; lia|]. split; [vm_compute; discriminate|].
  apply (X14_unix_frame_round_trip [] sample_out [] 40
           (mkDevice false false false true true) (repeat x00 44) []
           (channel.mkEndpoint [] []));
    [simpl; lia | vm_compute; discriminate].
Defined.

(** ** Interleaved drains, and the constructor *)

(** X15. Whatever the interleaving of the invocations of [WriteNotify], in
    every state they reach the scratch buffer has the length it was made
    with, its frame prefix (4 bytes on linux/darwin, none on windows) holds
    the bytes it held at the start, and the packets still queued or held by
    an invocation are packets of the queue they started with. *)
Theorem X15_drains_keep_scratch_shape (v : Drain.build)
    (queue : list stack.PacketBuffer) (buf : list byte) (s : Drain.sys) :
  Drain.reachable v (Drain.initial queue buf) s ->
  length (Drain.scratch s) = length buf
  /\ firstn (Drain.prefix v) (Drain.scratch s) = firstn (Drain.prefix v) buf
  /\ (forall x, In x (Drain.outq s) -> In x queue)
  /\ (forall t p, Drain.pkt (Drain.invs s t) = Some p -> In p queue).
Proof.
  intros R.
  destruct (reachable_Inv v queue buf s R) as (L & P & Q & HT & _).
  split; [exact L|]. split; [exact P|]. split; [exact Q|].
  intros t p Hp. destruct (HT t) as (_ & H & _). apply H, Hp.
Qed.

Lemma X15_witness :
  exists s,
    Drain.reachable Drain.unix
      (Drain.initial [sample_out; sample_out2] (repeat x00 44)) s
    /\ Drain.outq s = []
    /\ Drain.mu s = Some 1%nat
    /\ length (Drain.scratch s) = length (repeat x00 44)
    /\ firstn (Drain.prefix Drain.unix) (Drain.scratch s)
       = firstn (Drain.prefix Drain.unix) (repeat x00 44)
    /\ (forall x, In x (Drain.outq s) -> In x [sample_out; sample_out2])
    /\ (forall t p, Drain.pkt (Drain.invs s t) = Some p ->
                    In p [sample_out; sample_out2]).
Proof.
  pose proof (Drain.reach_init Drain.unix
                (Drain.initial [sample_out; sample_out2] (repeat x00 44)))
    as r0.
  assert (r1 := r0).
  match type of r1 with Drain.reachable _ _ ?s =>
    apply (fun r => Drain.reach_step _ _ s _ r
             (Drain.step_read_some Drain.unix s 0%nat _ _ eq_refl eq_refl))
      in r1 end; vm_compute in r1.
  match type of r1 with Drain.reachable _ _ ?s =>
    apply (fun r => Drain.reach_step _ _ s _ r
             (Drain.step_read_some Drain.unix s 1%nat _ _ eq_refl eq_refl))
      in r1 end; vm_compute in r1.
  match type of r1 with Drain.reachable _ _ ?s =>
    apply (fun r => Drain.reach_step _ _ s _ r
             (Drain.step_lock Drain.unix s 1%nat eq_refl eq_refl))
      in r1 end; vm_compute in r1.
  match type of r1 with Drain.reachable _ _ ?s =>
    apply (fun r => Drain.reach_step _ _ s _ r
             (Drain.step_network Drain.unix s 1%nat _ eq_refl eq_refl
                ltac:(vm_compute; lia))) in r1 end; vm_compute in r1.
  match type of r1 with Drain.reachable _ _ ?s => exists s end.
  split; [exact r1|]. split; [reflexivity|]. split; [reflexivity|].
  exact (X15_drains_keep_scratch_shape _ _ _ _ r1).
Defined.

(** X16. The linux/darwin constructor accepts an MTU from -4 to -1 (the
    buffer [make([]byte, 4+mtu)] then has fewer than 4 bytes), and on the
    endpoint it returns every notification that finds a packet in the
    outbound queue panics in [e.buf[:4]]. *)
Theorem X16_unix_negative_mtu_drain_panics (dev : Device) (mtu : Z) :
  implWriterOffset dev = true -> -4 <= mtu < 0 ->
  exists e,
    Unix.NewEndpoint dev mtu = Some e
    /\ forall inb pkt q,
         Unix.WriteNotify
           (Unix.mkEndpoint (channel.mkEndpoint inb (pkt :: q))
              (Unix.mtu e) (Unix.dev e) (Unix.buf e) (Unix.wt e))
         = None.
Proof.
  intros Hd Hm. unfold Unix.NewEndpoint.
  rewrite (proj2 (Z.ltb_ge (4 + mtu) 0)) by lia. rewrite Hd.
  eexists. split; [reflexivity|].
  intros inb pkt q. unfold Unix.WriteNotify.
  cbn [channel.Read Unix.ep Unix.buf Unix.mtu Unix.dev Unix.wt channel.outq
       channel.inbound].
  rewrite repeat_length.
  destruct (Nat.leb_spec 4 (Z.to_nat (4 + mtu))); [lia|reflexivity].
Qed.

Lemma X16_witness :
  implWriterOffset (mkDevice false false false true true) = true
  /\ -4 <= -1 < 0
  /\ exists e,
       Unix.NewEndpoint (mkDevice false false false true true) (-1) = Some e
       /\ forall inb pkt q,
            Unix.WriteNotify
              (Unix.mkEndpoint (channel.mkEndpoint inb (pkt :: q))
                 (Unix.mtu e) (Unix.dev e) (Unix.buf e) (Unix.wt e))
            = None.
Proof.
  split; [reflexivity|]. split; [lia|].
  apply (X16_unix_negative_mtu_drain_panics
           (mkDevice false false false true true) (-1));
    [reflexivity|lia].
Defined.

(** ** The value of the UDP checksum field *)

Lemma word_at_store_be16 (k : nat) (v : Z) (m : list byte) :
  (k + 2 <= length m)%nat -> 0 <= v < 65536 ->
  word_at (store k (be16 v) m) k = v.
Proof.
  intros Hk Hv. unfold word_at.
  rewrite !nth_store by (rewrite length_be16; lia).
  rewrite length_be16.
  destruct (Nat.ltb_spec k k); [lia|].
  destruct (Nat.ltb_spec k (k + 2)); [|lia].
  destruct (Nat.ltb_spec (k + 1) k); [lia|].
  destruct (Nat.ltb_spec (k + 1) (k + 2)); [|lia].
  replace (k - k)%nat with 0%nat by lia.
  replace (k + 1 - k)%nat with 1%nat by lia.
  rewrite word16_eq. pose proof (wsum_be16 v Hv) as E.
  unfold be16 in *. cbn [nth]. simpl in E. lia.
Qed.

Lemma fix_udp_field (off len : nat) (ps : Z) (m : list byte) :
  (off + len <= length m)%nat -> (8 <= len)%nat -> Z.of_nat len <= 65535 ->
  1 <= ps <= 65535 ->
  0 <= word_at (fix_udp off len ps m) (off + 6) <= 65534.
Proof.
  intros Hm H8 Hl Hps. unfold fix_udp. cbv zeta.
  set (m0 := store (off + 6) (be16 0) m).
  assert (Lm0 : length m0 = length m) by (unfold m0; solve_len).
  set (pay := sub m (off + 8) (len - 8)).
  assert (Lp : length pay = (len - 8)%nat) by (apply sub_length; lia).
  assert (Lh : length (sub m0 off 8) = 8%nat) by (apply sub_length; lia).
  pose proof (wsum_nonneg pay). pose proof (wsum_nonneg (sub m0 off 8)).
  rewrite (Checksum_eq pay ps) by lia.
  pose proof (fold16_range (ps + wsum pay) ltac:(lia)).
  pose proof (fold16_pos (ps + wsum pay) ltac:(lia)).
  rewrite Checksum_eq by lia.
  set (c := fold16 (fold16 (ps + wsum pay) + wsum (sub m0 off 8))).
  assert (Rc : 1 <= c <= 65535).
  { unfold c. split; [apply fold16_pos; lia|apply fold16_range; lia]. }
  rewrite not16_eq by lia.
  rewrite word_at_store_be16 by lia. lia.
Qed.

(** X17. [Write] never leaves 0xffff in the UDP checksum field of a
    well-formed packet: what it writes is the complement of a
    ones'-complement sum that is never zero, the pseudo-header carrying
    the protocol number 17. *)
Theorem X17_Write_udp_checksum_never_all_ones
    (e : channel.Endpoint) (b : list byte) :
  wellformed b = true -> transport b = header.UDPProtocolNumber ->
  exists d,
    Windows.call_Write e b
    = Some ((Z.of_nat (length b), None),
            channel.InjectInbound e (fst (tagged b)) d)
    /\ 0 <= word_at d (segment_off b + 6) <= 0xfffe.
Proof.
  intros W T. exists (repaired b).
  split; [apply call_Write_run, W|].
  pose proof W as F. unfold wellformed in F. apply andb_prop in F as [I F].
  unfold transport, segment, segment_off, segment_len in *.
  assert (Rps : forall src dst L,
            (length src <= 16)%nat -> (length dst <= 16)%nat ->
            0 <= L < 65536 ->
            1 <= header.PseudoHeaderChecksum 17 src dst L <= 65535).
  { intros src dst L Hs Hd HL.
    rewrite PseudoHeaderChecksum_eq by lia.
    pose proof (wsum_nonneg src). pose proof (wsum_nonneg dst).
    split; [apply fold16_pos; lia|apply fold16_range; lia]. }
  destruct (wellformed_version b I) as [V|V]; rewrite V in *.
  - change (4 =? 4) with true in *. cbv iota in *.
    destruct (wellformed_ip4 b V I) as (I1 & I2 & I3).
    pose proof (payload_len4_eq b I2) as EP.
    pose proof (word_at_range b 2).
    change header.UDPProtocolNumber with 17 in T.
    rewrite T in F. apply fits_udp in F; [|lia].
    rewrite (repaired_udp4 b I V T).
    apply fix_udp_field; rewrite ?fix4_length; try lia.
    apply Rps; try apply word_at_range.
    + rewrite sub_length; lia.
    + rewrite sub_length; lia.
  - change (6 =? 4) with false in *. cbv iota in *.
    pose proof (wellformed_ip6 b V I) as I1.
    pose proof (word_at_range b 4).
    change header.UDPProtocolNumber with 17 in T.
    rewrite T in F. apply fits_udp in F; [|lia].
    rewrite (repaired_udp6 b V T).
    apply fix_udp_field; try (unfold payload_len6 in *; lia).
    apply Rps; try apply word_at_range.
    + rewrite sub_length; lia.
    + rewrite sub_length; lia.
Qed.

Lemma X17_witness :
  wellformed sample_udp4 = true
  /\ transport sample_udp4 = header.UDPProtocolNumber
  /\ exists d,
       Windows.call_Write (channel.mkEndpoint [] []) sample_udp4
       = Some ((Z.of_nat (length sample_udp4), None),
               channel.InjectInbound (channel.mkEndpoint [] [])
                 (fst (tagged sample_udp4)) d)
       /\ 0 <= word_at d (segment_off sample_udp4 + 6) <= 0xfffe.
Proof.
  split; [reflexivity|]. split; [reflexivity|].
  apply (X17_Write_udp_checksum_never_all_ones (channel.mkEndpoint [] [])
           sample_udp4); reflexivity.
Defined.
